(** * Face-based access control: the main node's recognition core

    A shallow embedding of
      - [src/face_recognition/backends/opencv.py]   (raw-image validity),
      - [src/main_node/services/access_control.py]  (AccessControlService),
      - [src/main_node/services/utils.py]           (Result / Ok / Err),
      - [src/main_node/repositories/access_control_repository.py],
    together with a model of the two-step engine
    ([src.face_recognition.two_step]: FaceImageNormalizer, FaceRecognizer),
    whose module is not part of the sources at hand and is therefore
    modelled from the specification.

    Numbers: Python [int] is [Z]; array shapes are lists of [nat];
    descriptors are vectors of IEEE doubles in the program and are idealised
    here as vectors of real numbers ([R]). *)

From Stdlib Require Import Reals Lra.
From Stdlib Require Import DecimalString.
From stdpp Require Import base gmap list strings fin_maps.

Set Default Proof Using "Type".

(* ===================================================================== *)
(** * Python results: a value or a raised exception                      *)
(* ===================================================================== *)

Module Py.

Inductive exn : Type :=
  | IndexError
  | TypeError
  | BackendFailure.

  (** The outcome of evaluating a Python expression. *)
Inductive outcome (A : Type) : Type :=
  | Return (a : A)
  | Raise (e : exn).
Arguments Return {A} a.
Arguments Raise {A} e.

Definition bind {A B} (m : outcome A) (k : A -> outcome B) : outcome B :=
    match m with
    | Return a => k a
    | Raise e => Raise e
    end.

  (** [t[i]] on a tuple: IndexError out of range. *)
Definition getitem {A} (t : list A) (i : nat) : outcome A :=
    match t !! i with
    | Some a => Return a
    | None => Raise IndexError
    end.

Definition raises {A} (m : outcome A) : Prop :=
    exists e, m = Raise e.

End Py.

Notation "x <-? m ; k" := (Py.bind m (fun x => k))
  (at level 100, m at next level, right associativity,
   format "'[v' x  <-?  m ; '/' k ']'").

(* ===================================================================== *)
(** * numpy arrays as far as the program inspects them                   *)
(* ===================================================================== *)

Module np.

  (** Element types of an [ndarray]. *)
Inductive dtype_t : Type :=
  | bool_
  | int8 | int16 | int32 | int64
  | uint8 | uint16 | uint32 | uint64
  | float16 | float32 | float64
  | complex128
  | object_.

#[global] Instance dtype_eq_dec : EqDecision dtype_t.
Proof. solve_decision. Defined.

  (** An array: element type, shape and the flat sample buffer.  The
      program only looks at [dtype] and [shape]; the buffer is what the
      detector and embedder back ends consume. *)
Record ndarray : Type := mk_ndarray {
    dtype : dtype_t;
    shape : list nat;
    buffer : list Z;
  }.

#[global] Instance ndarray_eq_dec : EqDecision ndarray.
Proof. solve_decision. Defined.

End np.

Definition NumpyImage : Type := np.ndarray.

(* ===================================================================== *)
(** * src/face_recognition/backends/opencv.py                            *)
(* ===================================================================== *)

Module opencv.

  (** [shape[2] not in {1, 3}] *)
Definition not_in_1_3 (c : nat) : bool :=
    negb (bool_decide (c = 1%nat) || bool_decide (c = 3%nat)).

  (** [_check_image_valid(image)], statement by statement.  The only
      operation that can raise is the subscript [shape[2]]. *)
Definition _check_image_valid (image : NumpyImage) : Py.outcome bool :=
    let shape := np.shape image in
    let dtype := np.dtype image in
    (* check array type *)
    if bool_decide (dtype <> np.uint8) then Py.Return false else
    (* check array dimensions *)
    if bool_decide (length shape <> 3%nat) then Py.Return false else
    (* check image channels *)
    c <-? Py.getitem shape 2;
    if not_in_1_3 c then Py.Return false else
    Py.Return true.

  (** [OpenCVDetector.check_image_valid] is bound to the function above;
      as a total predicate (an exception counts as "not valid"). *)
Definition check_image_valid (image : NumpyImage) : bool :=
    match _check_image_valid image with
    | Py.Return b => b
    | Py.Raise _ => false
    end.

End opencv.

(* ===================================================================== *)
(** * Data exchanged between the service and the recognition engine      *)
(* ===================================================================== *)

(** A face descriptor: a vector of reals (doubles in the program). *)
Definition Descriptor : Type := list R.

(** [backend_protocols.Rectangle]: built in [OpenCVDetector.find_faces]
    by unpacking the detector's (x, y, w, h) rows. *)
Record Rectangle : Type := mk_Rectangle {
  rect_x : Z;
  rect_y : Z;
  rect_width : Z;
  rect_height : Z;
}.

(** What the service reads from a recognition result:
    [result.is_known_face] and [result.descriptor_id]. *)
Record RecognitionResult : Type := mk_RecognitionResult {
  is_known_face : bool;
  descriptor_id : option Z;
  distance : option R;
}.

Definition Unknown : RecognitionResult :=
  {| is_known_face := false; descriptor_id := None; distance := None |}.

Definition Known (i : Z) (d : R) : RecognitionResult :=
  {| is_known_face := true; descriptor_id := Some i; distance := Some d |}.

(** ** Dataclasses of [services/access_control.py] *)

Module User.
Record t : Type := mk {
    id : Z;
    name : string;
    surname : string;
    patronymic : string;
    position : option string;
  }.
End User.

Module UserFaceDescriptor.
Record t : Type := mk {
    id : Z;
    features : list R;
    user_id : Z;
  }.
End UserFaceDescriptor.

(** [class AccessCheck(BaseModel)] *)
Record AccessCheck : Type := mk_AccessCheck {
  is_known : bool;
  have_access : option bool;
  user : option User.t;
}.

(** [class AnonymousDescriptor(BaseModel)] *)
Record AnonymousDescriptor : Type := mk_AnonymousDescriptor {
  features : list R;
}.

(** ** [services/utils.py]: Result, Ok, Err *)

Inductive Result (RE : Type) : Type :=
| Ok (result : RE)               (* success = True *)
| Err (cause : string)           (* success = False *)
| Plain (success : bool).        (* [Result(success=...)] itself *)
Arguments Ok {RE} result.
Arguments Err {RE} cause.
Arguments Plain {RE} success.

Definition success {RE} (r : Result RE) : bool :=
  match r with
  | Ok _ => true
  | Err _ => false
  | Plain b => b
  end.

(** Python's [str] on an [int], and on [None]. *)
Definition str_int (z : Z) : string := NilZero.string_of_int (Z.to_int z).

Definition str_optional_int (o : option Z) : string :=
  match o with
  | Some z => str_int z
  | None => "None"
  end.

(* ===================================================================== *)
(** * The abstract repository of [services/access_control.py]            *)
(* ===================================================================== *)

(** [class AccessControlRepository(ABC)], restricted to the coroutines
    used by the face and descriptor flows.  A repository is a pure
    function of the database state [DB]; the one mutating coroutine
    returns the new state. *)
Class AccessControlRepository (DB : Type) : Type := {
  get_user_by_id : Z -> DB -> option User.t;
  get_user_by_descriptor_id : Z -> DB -> option User.t;
  check_access_permission_exist : Z -> Z -> DB -> bool;
  get_all_face_descriptors : DB -> list UserFaceDescriptor.t;
  update_descriptor_by_user_id : Z -> list R -> DB -> DB;
}.

(* ===================================================================== *)
(** * Back ends injected into the two-step engine                        *)
(* ===================================================================== *)

(** The detector, normalizer and recognizer back ends handed to
    [FaceImageNormalizer] and [FaceRecognizer] in [app.py].  Their code is
    a learned model or a cascade; here they are parameters.  A back end
    either returns or fails with an internal fault.  [threshold],
    [descriptor_dim] and the canonical crop size are the constants of the
    chosen embedding model. *)
Class Backends : Type := {
  detector_find_faces : NumpyImage -> Py.outcome (list Rectangle);
  normalizer_normalize : NumpyImage -> Rectangle -> Py.outcome NumpyImage;
  recognizer_calculate_descriptor : NumpyImage -> Py.outcome Descriptor;
  descriptor_dim : nat;
  canonical_rows : nat;
  canonical_cols : nat;
  threshold : R;
}.

(* ===================================================================== *)
(** * Effects: the stores, the two kinds of threads, the log of calls    *)
(* ===================================================================== *)

Module Effects.

  (** Where a call runs: on the thread of the cooperative scheduler, or on
      a worker thread entered through [asyncio.to_thread]. *)
Inductive Place : Type :=
  | SchedulerThread
  | WorkerThread.

#[global] Instance Place_eq_dec : EqDecision Place.
Proof. solve_decision. Defined.

  (** Coroutines of the repository, with their arguments. *)
Inductive RepoCall : Type :=
  | q_get_user_by_id (user_id : Z)
  | q_get_user_by_descriptor_id (descriptor_id : option Z)
  | q_check_access_permission_exist (user_id room_id : Z)
  | q_get_all_face_descriptors
  | q_update_descriptor_by_user_id (user_id : Z) (descriptor : list R).

  (** Calls made on the engine and on the repository. *)
Inductive Call : Type :=
  | CheckImageValid (image : NumpyImage)
  | Normalize (image : NumpyImage)
  | FindFaces (image : NumpyImage)
  | CropAlign (image : NumpyImage) (face : Rectangle)
  | CheckImageNormalized (image : NumpyImage)
  | CheckDescriptorValid (descriptor : Descriptor)
  | CalculateDescriptor (image : NumpyImage)
  | Recognize (image : NumpyImage)
  | RecognizeByDescriptor (descriptor : Descriptor)
  | UpdateDescriptors (pairs : list (Z * Descriptor))
  | Repository (q : RepoCall).

Record Event : Type := mk_Event {
    place : Place;
    call : Call;
  }.

  (** The mutable state reachable from the service object: the database
      behind [_repository] and the descriptor cache of [_face_recognizer]. *)
Record Store (DB : Type) : Type := mk_Store {
    db : DB;
    descriptors : gmap Z Descriptor;
  }.
Arguments mk_Store {DB} db descriptors.
Arguments db {DB} s.
Arguments descriptors {DB} s.

  (** A computation runs at a place, transforms the store, logs the calls
      it makes, and returns or raises. *)
Definition M (DB A : Type) : Type :=
    Place -> Store DB -> Py.outcome A * Store DB * list Event.

Section ops.
Context {DB : Type}.

Definition ret {A} (a : A) : M DB A :=
      fun _ s => (Py.Return a, s, []).

Definition bind {A B} (m : M DB A) (k : A -> M DB B) : M DB B :=
      fun p s =>
        let '(o, s1, t1) := m p s in
        match o with
        | Py.Return a => let '(r, s2, t2) := k a p s1 in (r, s2, t1 ++ t2)
        | Py.Raise e => (Py.Raise e, s1, t1)
        end.

    (** Lift a back-end outcome. *)
Definition lift {A} (o : Py.outcome A) : M DB A :=
      fun _ s => (o, s, []).

    (** Record a call at the current place. *)
Definition log (c : Call) : M DB unit :=
      fun p s => (Py.Return tt, s, [mk_Event p c]).

    (** [await asyncio.to_thread(f, x)]: the body runs on a worker thread;
        its result, or its exception, comes back to the awaiting
        coroutine. *)
Definition to_thread {A} (m : M DB A) : M DB A :=
      fun _ s => m WorkerThread s.

Definition read_descriptors : M DB (gmap Z Descriptor) :=
      fun _ s => (Py.Return (descriptors s), s, []).

Definition write_descriptors (c : gmap Z Descriptor) : M DB unit :=
      fun _ s => (Py.Return tt, mk_Store (db s) c, []).

Definition read_db {A} (f : DB -> A) : M DB A :=
      fun _ s => (Py.Return (f (db s)), s, []).

Definition write_db (f : DB -> DB) : M DB unit :=
      fun _ s => (Py.Return tt, mk_Store (f (db s)) (descriptors s), []).

    (** Projections of a run. *)
Definition outcome_of {A} (r : Py.outcome A * Store DB * list Event) : Py.outcome A :=
      r.1.1.
Definition store_of {A} (r : Py.outcome A * Store DB * list Event) : Store DB :=
      r.1.2.
Definition events_of {A} (r : Py.outcome A * Store DB * list Event) : list Event :=
      r.2.

(** Every call logged by [m] when started at place [p] satisfies [Q]. *)
Definition emits {A} (Q : Event -> Prop) (m : M DB A) (p : Place) : Prop :=
  forall s e, e ∈ events_of (m p s) -> Q e.

End ops.

End Effects.
Import Effects.

Notation "x <- m ;; k" := (Effects.bind m (fun x => k))
  (at level 100, m at next level, right associativity).
Notation "m ;;; k" := (Effects.bind m (fun _ => k))
  (at level 100, right associativity).


(* ===================================================================== *)
(** * src.face_recognition.two_step (modelled)                           *)
(* ===================================================================== *)

Module two_step.

(** Modelled from the spec: the raw-image checks of
    [FaceImageNormalizer.check_image_valid], whose class is missing from
    the sources: "dtype must be 8-bit unsigned, rank exactly 3, channel
    count in {1,3}". *)
Definition image_checks (image : NumpyImage) : bool :=
  bool_decide (np.dtype image = np.uint8)
  && bool_decide (length (np.shape image) = 3%nat)
  && match np.shape image !! 2%nat with
     | Some c => bool_decide (c = 1%nat) || bool_decide (c = 3%nat)
     | None => false
     end.

(** ** Selection of the face to normalize *)

(** Modelled from the spec: the area of a face region. *)
Definition area (r : Rectangle) : Z := (rect_width r * rect_height r)%Z.

(** Modelled from the spec: "select the rectangle of maximum area; ties
    broken by the detector's first-returned order". *)
Fixpoint largest (best : Rectangle) (rest : list Rectangle) : Rectangle :=
  match rest with
  | [] => best
  | r :: rest' => largest (if (area best <? area r)%Z then r else best) rest'
  end.

(** Modelled from the spec: no face when the detector returned nothing,
    else the largest one. *)
Definition select_face (faces : list Rectangle) : option Rectangle :=
  match faces with
  | [] => None
  | f :: fs => Some (largest f fs)
  end.

(** ** Matching a query against the cache *)

(** Modelled from the spec: the "fixed distance metric (Euclidean over the
    embedding space)" of the missing [FaceRecognizer]. *)
Definition sum_squares (a b : Descriptor) : R :=
  fold_right Rplus 0%R (zip_with (fun x y => ((x - y) * (x - y))%R) a b).

(** Modelled from the spec: the Euclidean distance between a query and a
    cached descriptor. *)
Definition euclidean (a b : Descriptor) : R := sqrt (sum_squares a b).

(** Modelled from the spec: "ties at the minimum broken by lowest enrolled
    id".  [closer c b]: candidate [c] beats the best so far [b]: a strictly
    smaller distance, or the same distance and a lower id. *)
Definition closer (c b : Z * R) : bool :=
  if Rlt_dec c.2 b.2 then true
  else if Rlt_dec b.2 c.2 then false
  else bool_decide (c.1 < b.1)%Z.

(** Modelled from the spec: one cached entry compared with the best so
    far. *)
Definition consider (q : Descriptor) (i : Z) (d : Descriptor)
    (best : option (Z * R)) : option (Z * R) :=
  let c := (i, euclidean q d) in
  match best with
  | None => Some c
  | Some b => if closer c b then Some c else Some b
  end.

(** Modelled from the spec: the distance "from the query to every cached
    descriptor" and its minimum: one pass over the whole cache. *)
Definition nearest (cache : gmap Z Descriptor) (q : Descriptor) : option (Z * R) :=
  map_fold (consider q) None cache.

(** Modelled from the spec: the pure part of
    [FaceRecognizer.recognize_by_descriptor], missing from the sources:
    "the minimum-distance candidate is the match iff that minimum is below
    a fixed acceptance threshold, else is_known_face=false". *)
Definition match_descriptor {backends : Backends} (cache : gmap Z Descriptor)
    (q : Descriptor) : RecognitionResult :=
  match nearest cache q with
  | Some (i, dist) => if Rlt_dec dist threshold then Known i dist else Unknown
  | None => Unknown
  end.

(** Modelled from the spec: "build new map"; as with Python's [dict], a
    later pair with the same id overrides an earlier one. *)
Definition build_map (pairs : list (Z * Descriptor)) : gmap Z Descriptor :=
  fold_left (fun m p => <[p.1 := p.2]> m) pairs ∅.

(** [c] is the entry of [cache] nearest to [q], the lowest id winning
    among entries at the same distance. *)
Definition is_nearest (cache : gmap Z Descriptor) (q : Descriptor) (c : Z * R) : Prop :=
  (exists d, cache !! c.1 = Some d /\ c.2 = euclidean q d) /\
  forall j d', cache !! j = Some d' ->
    (c.2 < euclidean q d')%R \/ (c.2 = euclidean q d' /\ (c.1 <= j)%Z).

End two_step.

Module FaceImageNormalizer.
Import two_step.
Section methods.
Context {DB : Type} {backends : Backends}.

(** Modelled from the spec: [FaceImageNormalizer.check_image_valid], a
    pure predicate on the array's dtype and shape. *)
Definition check_image_valid (image : NumpyImage) : M DB bool :=
  log (CheckImageValid image) ;;;
  ret (image_checks image).

(** Modelled from the spec: the call of [Detector.find_faces] made by the
    missing [FaceImageNormalizer], on the injected back end. *)
Definition find_faces (image : NumpyImage) : M DB (list Rectangle) :=
  log (FindFaces image) ;;;
  lift (detector_find_faces image).

(** Modelled from the spec: [FaceImageNormalizer.normalize], missing from
    the sources: "runs detection; zero faces -> explicit no-face outcome
    (not an error); one or more faces -> select the rectangle of maximum
    area; crop and resize/align; return the normalized image".  The
    no-face outcome is [None], as the service tests
    [normalized_image is None]. *)
Definition normalize (image : NumpyImage) : M DB (option NumpyImage) :=
  log (Normalize image) ;;;
  faces <- find_faces image ;;
  match select_face faces with
  | None => ret None
  | Some face =>
      log (CropAlign image face) ;;;
      normalized <- lift (normalizer_normalize image face) ;;
      ret (Some normalized)
  end.

End methods.
End FaceImageNormalizer.

Module FaceRecognizer.
Import two_step.
Section methods.
Context {DB : Type} {backends : Backends}.

(** Modelled from the spec: "length == D, all values finite" (every real
    is finite). *)
Definition check_descriptor_valid (descriptor : Descriptor) : M DB bool :=
  log (CheckDescriptorValid descriptor) ;;;
  ret (bool_decide (length descriptor = descriptor_dim)).

(** Modelled from the spec: the "canonical-size check" on rows and
    columns. *)
Definition canonical_size (image : NumpyImage) : bool :=
  match np.shape image with
  | r :: c :: _ => bool_decide (r = canonical_rows) && bool_decide (c = canonical_cols)
  | _ => false
  end.

(** Modelled from the spec: "same checks as check_image_valid plus
    canonical-size check". *)
Definition check_image_normalized (image : NumpyImage) : M DB bool :=
  log (CheckImageNormalized image) ;;;
  ret (image_checks image && canonical_size image).

(** Modelled from the spec: [FaceRecognizer.calculate_descriptor], the
    embedder: a call on the injected back end. *)
Definition calculate_descriptor (normalized_image : NumpyImage) : M DB Descriptor :=
  log (CalculateDescriptor normalized_image) ;;;
  lift (recognizer_calculate_descriptor normalized_image).

(** Modelled from the spec: [FaceRecognizer.recognize_by_descriptor]
    reads the cache once and matches the query against it. *)
Definition recognize_by_descriptor (descriptor : Descriptor) : M DB RecognitionResult :=
  log (RecognizeByDescriptor descriptor) ;;;
  cache <- read_descriptors ;;
  ret (match_descriptor cache descriptor).

(** Modelled from the spec: "embed, then behave as
    recognize_by_descriptor". *)
Definition recognize (normalized_image : NumpyImage) : M DB RecognitionResult :=
  log (Recognize normalized_image) ;;;
  descriptor <- calculate_descriptor normalized_image ;;
  recognize_by_descriptor descriptor.

(** Modelled from the spec: [FaceRecognizer.update_descriptors]: "build
    new map, then swap". *)
Definition update_descriptors (pairs : list (Z * Descriptor)) : M DB unit :=
  log (UpdateDescriptors pairs) ;;;
  write_descriptors (build_map pairs).

End methods.
End FaceRecognizer.


(* ===================================================================== *)
(** * src/main_node/services/access_control.py: AccessControlService     *)
(* ===================================================================== *)

Module AccessControlService.
Section methods.
Context {DB : Type} {repository : AccessControlRepository DB} {backends : Backends}.

(** ** Awaited repository coroutines *)

Definition repo_get_user_by_id (user_id : Z) : M DB (option User.t) :=
  log (Repository (q_get_user_by_id user_id)) ;;;
  read_db (get_user_by_id user_id).

(** The argument is [result.descriptor_id]; a missing id selects no row. *)
Definition repo_get_user_by_descriptor_id (descriptor_id : option Z) : M DB (option User.t) :=
  log (Repository (q_get_user_by_descriptor_id descriptor_id)) ;;;
  read_db (fun d => match descriptor_id with
                    | Some i => get_user_by_descriptor_id i d
                    | None => None
                    end).

Definition repo_check_access_permission_exist (user_id room_id : Z) : M DB bool :=
  log (Repository (q_check_access_permission_exist user_id room_id)) ;;;
  read_db (check_access_permission_exist user_id room_id).

Definition repo_get_all_face_descriptors : M DB (list UserFaceDescriptor.t) :=
  log (Repository q_get_all_face_descriptors) ;;;
  read_db get_all_face_descriptors.

Definition repo_update_descriptor_by_user_id (user_id : Z) (descriptor : list R) : M DB unit :=
  log (Repository (q_update_descriptor_by_user_id user_id descriptor)) ;;;
  write_db (update_descriptor_by_user_id user_id descriptor).

(** ** The f-strings of the two "not bound" errors *)

Definition cause_not_bound_face (descriptor_id : option Z) : string :=
  "Calculated descriptor is known but not bound to user. (descriptor_id = "
  +:+ str_optional_int descriptor_id +:+ ")".

Definition cause_not_bound_descriptor (descriptor_id : option Z) : string :=
  "Provided descriptor is known, but not bound to user. (descriptor_id = "
  +:+ str_optional_int descriptor_id +:+ ")".

(** ** Methods *)

(** [async def check_access_by_face(self, room_id, image)] *)
Definition check_access_by_face (room_id : Z) (image : NumpyImage) : M DB (Result AccessCheck) :=
  normalized <- FaceRecognizer.check_image_normalized image ;;
  if negb normalized then ret (Err "Provided image is not normalized.") else
  (* Recognize face *)
  result <- to_thread (FaceRecognizer.recognize image) ;;
  if negb (is_known_face result) then ret (Ok (mk_AccessCheck false None None)) else
  (* Get user by descriptor id *)
  user <- repo_get_user_by_descriptor_id (descriptor_id result) ;;
  match user with
  | None => ret (Err (cause_not_bound_face (descriptor_id result)))
  | Some user =>
      (* Check user access to the room *)
      have_access <- repo_check_access_permission_exist (User.id user) room_id ;;
      ret (Ok (mk_AccessCheck true (Some have_access) (Some user)))
  end.

(** [async def check_access_by_descriptor(self, room_id, descriptor)] *)
Definition check_access_by_descriptor (room_id : Z) (descriptor : Descriptor) : M DB (Result AccessCheck) :=
  valid <- FaceRecognizer.check_descriptor_valid descriptor ;;
  if negb valid then ret (Err "Provided descriptor is invalid.") else
  (* Get descriptor id *)
  result <- FaceRecognizer.recognize_by_descriptor descriptor ;;
  if negb (is_known_face result) then ret (Ok (mk_AccessCheck false None None)) else
  (* Get user by descriptor id *)
  user <- repo_get_user_by_descriptor_id (descriptor_id result) ;;
  match user with
  | None => ret (Err (cause_not_bound_descriptor (descriptor_id result)))
  | Some user =>
      (* Check user access to the room *)
      have_access <- repo_check_access_permission_exist (User.id user) room_id ;;
      ret (Ok (mk_AccessCheck true (Some have_access) (Some user)))
  end.

(** [async def calculate_descriptor(self, image)] *)
Definition calculate_descriptor (image : NumpyImage) : M DB (Result AnonymousDescriptor) :=
  valid <- FaceImageNormalizer.check_image_valid image ;;
  if negb valid then ret (Err "Provided image is invalid.") else
  (* Normalize image *)
  normalized_image <- to_thread (FaceImageNormalizer.normalize image) ;;
  match normalized_image with
  | None => ret (Err "Can't normalize image. Maybe there is no face.")
  | Some normalized_image =>
      (* Calculate descriptor *)
      descriptor <- to_thread (FaceRecognizer.calculate_descriptor normalized_image) ;;
      let anonymous_descriptor := mk_AnonymousDescriptor descriptor in
      ret (Ok anonymous_descriptor)
  end.

(** The generator [((d.id, np.array(d.features)) for d in descriptors)]. *)
Definition numpy_descriptors (descriptors : list UserFaceDescriptor.t) : list (Z * Descriptor) :=
  map (fun d => (UserFaceDescriptor.id d, UserFaceDescriptor.features d)) descriptors.

(** [async def _load_descriptors(self)] *)
Definition _load_descriptors : M DB unit :=
  descriptors <- repo_get_all_face_descriptors ;;
  FaceRecognizer.update_descriptors (numpy_descriptors descriptors).

(** [async def update_user_descriptor(self, user_id, descriptor)] *)
Definition update_user_descriptor (user_id : Z) (descriptor : Descriptor) : M DB (Result unit) :=
  user <- repo_get_user_by_id user_id ;;
  match user with
  | None => ret (Err "Unknown user id.")
  | Some _ =>
      repo_update_descriptor_by_user_id user_id descriptor ;;;
      _load_descriptors ;;;
      ret (Plain true)
  end.

(** [async def init(self)] *)
Definition init : M DB unit :=
  _load_descriptors.

(** ** Requests that reach the recognition engine *)

Inductive Request : Type :=
| req_check_access_by_face (room_id : Z) (image : NumpyImage)
| req_check_access_by_descriptor (room_id : Z) (descriptor : Descriptor)
| req_calculate_descriptor (image : NumpyImage)
| req_update_user_descriptor (user_id : Z) (descriptor : Descriptor)
| req_init.

(** Serving a request: the store it leaves and the calls it logged; every
    coroutine of the service starts on the scheduler thread. *)
Definition serve (r : Request) (s : Store DB) : Store DB * list Event :=
  match r with
  | req_check_access_by_face room_id image =>
      let run := check_access_by_face room_id image SchedulerThread s in
      (store_of run, events_of run)
  | req_check_access_by_descriptor room_id descriptor =>
      let run := check_access_by_descriptor room_id descriptor SchedulerThread s in
      (store_of run, events_of run)
  | req_calculate_descriptor image =>
      let run := calculate_descriptor image SchedulerThread s in
      (store_of run, events_of run)
  | req_update_user_descriptor user_id descriptor =>
      let run := update_user_descriptor user_id descriptor SchedulerThread s in
      (store_of run, events_of run)
  | req_init =>
      let run := init SchedulerThread s in
      (store_of run, events_of run)
  end.

End methods.
End AccessControlService.

(** ** Classification of the logged calls *)

(** Detection, normalization and embedding: the CPU-bound calls. *)
Definition cpu_bound (c : Call) : bool :=
  match c with
  | Normalize _ | FindFaces _ | CropAlign _ _ | CalculateDescriptor _ | Recognize _ => true
  | _ => false
  end.

(** Cheap validity checks. *)
Definition validity_check (c : Call) : bool :=
  match c with
  | CheckImageValid _ | CheckImageNormalized _ | CheckDescriptorValid _ => true
  | _ => false
  end.

(** Reads and writes of the descriptor cache. *)
Definition cache_access (c : Call) : bool :=
  match c with
  | RecognizeByDescriptor _ | UpdateDescriptors _ => true
  | _ => false
  end.

Definition repository_call (c : Call) : bool :=
  match c with
  | Repository _ => true
  | _ => false
  end.

(** Calls on the recognition engine, as opposed to awaited coroutines of
    the repository. *)
Definition engine_call (c : Call) : bool := negb (repository_call c).

(** A call is well placed when a CPU-bound call sits on a worker thread,
    and an engine call made inline on the scheduler thread is a validity
    check or a cache access. *)
Definition well_placed (e : Event) : Prop :=
  (cpu_bound (call e) = true -> place e = WorkerThread) /\
  (place e = SchedulerThread -> engine_call (call e) = true ->
     validity_check (call e) || cache_access (call e) = true).


(* ===================================================================== *)
(** * src/main_node/repositories/access_control_repository.py            *)
(* ===================================================================== *)

Module sql.

(** The tables the queries name.  The schema is not part of the sources;
    [id] columns are taken to be keys, and a new descriptor row draws its
    id from a sequence. *)
Record Database : Type := mk_Database {
  tbl_User : list User.t;
  tbl_UserFaceDescriptor : list UserFaceDescriptor.t;
  tbl_UserRoomAccessPermission : list (Z * Z);   (* (room_id, user_id) *)
  seq_UserFaceDescriptor_id : Z;
}.

(** [conn.fetchrow(query, ...)]: the first selected row, if any. *)
Definition fetchrow {A} (where_ : A -> bool) (rows : list A) : option A :=
  find where_ rows.

(** [select * from "User" where "id" = $1] *)
Definition get_user_by_id (user_id : Z) (d : Database) : option User.t :=
  fetchrow (fun u => (User.id u =? user_id)%Z) (tbl_User d).

(** [select * from "User" where "id" =
      (select "user_id" from "UserFaceDescriptor" where "id" = $1)] *)
Definition get_user_by_descriptor_id (descriptor_id : Z) (d : Database) : option User.t :=
  match fetchrow (fun r => (UserFaceDescriptor.id r =? descriptor_id)%Z)
                 (tbl_UserFaceDescriptor d) with
  | Some r => fetchrow (fun u => (User.id u =? UserFaceDescriptor.user_id r)%Z) (tbl_User d)
  | None => None
  end.

(** [select from "UserRoomAccessPermission"
      where "room_id" = $1 and "user_id" = $2], called with
    [(room_id, user_id)]; the row is there or not. *)
Definition check_access_permission_exist (user_id room_id : Z) (d : Database) : bool :=
  match fetchrow (fun p => (p.1 =? room_id)%Z && (p.2 =? user_id)%Z)
                 (tbl_UserRoomAccessPermission d) with
  | Some _ => true
  | None => false
  end.

(** [select * from "UserFaceDescriptor"] *)
Definition get_all_face_descriptors (d : Database) : list UserFaceDescriptor.t :=
  tbl_UserFaceDescriptor d.

(** [delete from "UserFaceDescriptor" where "user_id" = $1] followed by
    [insert into "UserFaceDescriptor" ("user_id", "features") values ($1, $2)]. *)
Definition update_descriptor_by_user_id (user_id : Z) (descriptor : list R)
    (d : Database) : Database :=
  let kept := filter (fun r => UserFaceDescriptor.user_id r <> user_id)
                     (tbl_UserFaceDescriptor d) in
  let row := UserFaceDescriptor.mk (seq_UserFaceDescriptor_id d) descriptor user_id in
  {| tbl_User := tbl_User d;
     tbl_UserFaceDescriptor := kept ++ [row];
     tbl_UserRoomAccessPermission := tbl_UserRoomAccessPermission d;
     seq_UserFaceDescriptor_id := (seq_UserFaceDescriptor_id d + 1)%Z |}.

End sql.

#[global] Instance sql_repository : AccessControlRepository sql.Database := {|
  get_user_by_id := sql.get_user_by_id;
  get_user_by_descriptor_id := sql.get_user_by_descriptor_id;
  check_access_permission_exist := sql.check_access_permission_exist;
  get_all_face_descriptors := sql.get_all_face_descriptors;
  update_descriptor_by_user_id := sql.update_descriptor_by_user_id;
|}.

(* ===================================================================== *)
(** * Interleaved updates and recognitions of the cache                  *)
(* ===================================================================== *)

(** [update_descriptors] runs on the scheduler thread while [recognize]
    runs on worker threads.  Here both are cut into their atomic steps and
    interleaved freely.  Dictionaries are objects on a heap; the cache
    attribute of the recognizer is a reference to one of them, and a
    reader that took the reference reads the dictionary it points to
    entry by entry, in place. *)
Module Interleaving.
Import two_step.

(** The calls in flight. *)
Inductive Invocation : Type :=
| call_update_descriptors (pairs : list (Z * Descriptor))
| call_recognize_by_descriptor (q : Descriptor).

(** Heap locations of dictionary objects. *)
Definition loc : Type := nat.

(** The state of one thread.
    Modelled from the spec: [update_descriptors] is "build new map, then
    swap": the writer allocates a new dictionary, fills it pair by pair
    and publishes it in one assignment of the cache reference; a reader
    takes the reference once and scans the dictionary behind it. *)
Inductive Thread : Type :=
| Allocating (pairs : list (Z * Descriptor))
| Building (pairs : list (Z * Descriptor)) (todo : list (Z * Descriptor)) (l : loc)
| Swapped (pairs : list (Z * Descriptor))
| Entering (q : Descriptor)
| Scanning (q : Descriptor) (l : loc) (k : nat) (best : option (Z * R))
| Answered (q : Descriptor) (l : loc) (r : RecognitionResult).

Definition start (c : Invocation) : Thread :=
  match c with
  | call_update_descriptors pairs => Allocating pairs
  | call_recognize_by_descriptor q => Entering q
  end.

(** What the threads share: the heap of dictionaries and the cache
    reference of the recognizer. *)
Record Shared : Type := mk_Shared {
  heap : gmap loc (gmap Z Descriptor);
  cache_ref : loc;
}.

(** The entries of a dictionary in the order a scan visits them. *)
Definition scan_order (m : gmap Z Descriptor) : list (Z * Descriptor) :=
  reverse (map_to_list m).

(** The scan of a reader over the entries it has visited. *)
Definition scan (q : Descriptor) (visited : list (Z * Descriptor))
    (best : option (Z * R)) : option (Z * R) :=
  fold_left (fun b e => consider q e.1 e.2 b) visited best.

Definition verdict {backends : Backends} (best : option (Z * R)) : RecognitionResult :=
  match best with
  | Some (i, dist) => if Rlt_dec dist threshold then Known i dist else Unknown
  | None => Unknown
  end.

(** Modelled from the spec: one atomic step of a thread.  A writer
    allocates a fresh dictionary, inserts one pair into it, or assigns the
    cache reference; a reader takes the cache reference, reads the next
    entry of the dictionary it holds, or answers when there is none left. *)
Inductive thread_step {backends : Backends} : Shared -> Thread -> Shared -> Thread -> Prop :=
| step_allocate sh l pairs :
    heap sh !! l = None ->
    thread_step sh (Allocating pairs)
                (mk_Shared (<[l := ∅]> (heap sh)) (cache_ref sh)) (Building pairs pairs l)
| step_insert sh l m pairs p todo :
    heap sh !! l = Some m ->
    thread_step sh (Building pairs (p :: todo) l)
                (mk_Shared (<[l := <[p.1 := p.2]> m]> (heap sh)) (cache_ref sh))
                (Building pairs todo l)
| step_swap sh l pairs :
    thread_step sh (Building pairs [] l)
                (mk_Shared (heap sh) l) (Swapped pairs)
| step_enter sh q :
    thread_step sh (Entering q)
                sh (Scanning q (cache_ref sh) 0 None)
| step_scan sh q l m k i d best :
    heap sh !! l = Some m ->
    scan_order m !! k = Some (i, d) ->
    thread_step sh (Scanning q l k best)
                sh (Scanning q l (S k) (consider q i d best))
| step_answer sh q l m k best :
    heap sh !! l = Some m ->
    scan_order m !! k = None ->
    thread_step sh (Scanning q l k best)
                sh (Answered q l (verdict best)).

(** The process: what is shared, and the threads. *)
Record Config : Type := mk_Config {
  shared : Shared;
  threads : list Thread;
}.

(** Any thread may take the next step. *)
Inductive step {backends : Backends} : Config -> Config -> Prop :=
| step_thread c n t sh' t' :
    threads c !! n = Some t ->
    thread_step (shared c) t sh' t' ->
    step c (mk_Config sh' (<[n := t']> (threads c))).

(** Before the run the cache reference points to the dictionary [cache],
    at location 0. *)
Definition initial (cache : gmap Z Descriptor) (calls : list Invocation) : Config :=
  mk_Config (mk_Shared {[ 0%nat := cache ]} 0%nat) (start <$> calls).

Definition reachable {backends : Backends} (cache : gmap Z Descriptor)
    (calls : list Invocation) (c : Config) : Prop :=
  rtc step (initial cache calls) c.

(** The complete snapshots of a run: the cache before it, and the full
    map of each update call. *)
Definition complete_snapshot (cache : gmap Z Descriptor)
    (calls : list Invocation) (m : gmap Z Descriptor) : Prop :=
  m = cache \/
  exists pairs, call_update_descriptors pairs ∈ calls /\ m = build_map pairs.

(** The dictionary a thread holds a reference to. *)
Definition location (t : Thread) : option loc :=
  match t with
  | Building _ _ l => Some l
  | Scanning _ l _ _ => Some l
  | Answered _ l _ => Some l
  | _ => None
  end.

(** What holds of a thread at every point of a run of [calls] started
    from [cache]: a writer is on its way to the full map of its call; what
    a reader has made of the [k] entries it visited is the scan of the
    first [k] entries of one complete snapshot. *)
Definition thread_ok {backends : Backends} (cache : gmap Z Descriptor)
    (calls : list Invocation) (h : gmap loc (gmap Z Descriptor)) (t : Thread) : Prop :=
  match t with
  | Allocating pairs => call_update_descriptors pairs ∈ calls
  | Building pairs todo l =>
      call_update_descriptors pairs ∈ calls /\
      exists m, h !! l = Some m /\
        fold_left (fun m p => <[p.1 := p.2]> m) todo m = build_map pairs
  | Swapped _ => True
  | Entering _ => True
  | Scanning q l k best =>
      exists m, h !! l = Some m /\ complete_snapshot cache calls m /\
        best = scan q (take k (scan_order m)) None
  | Answered q l r =>
      exists m, h !! l = Some m /\ complete_snapshot cache calls m /\
        r = match_descriptor m q
  end.

(** The dictionary at [l] is private to thread [n]: it is not the cache,
    and no other thread holds a reference to it. *)
Definition private (c : Config) (n : nat) (l : loc) : Prop :=
  l <> cache_ref (shared c) /\
  forall n' t', n' <> n -> threads c !! n' = Some t' -> location t' <> Some l.

Definition invariant {backends : Backends} (cache : gmap Z Descriptor)
    (calls : list Invocation) (c : Config) : Prop :=
  (exists m, heap (shared c) !! cache_ref (shared c) = Some m /\
             complete_snapshot cache calls m) /\
  (forall n t, threads c !! n = Some t ->
     thread_ok cache calls (heap (shared c)) t) /\
  (forall n pairs todo l, threads c !! n = Some (Building pairs todo l) ->
     private c n l).

(** A run of one update and one recognition, stopped after the writer has
    published its dictionary (at location 1) and the reader has taken the
    reference to it. *)
Definition demo_calls : list Invocation :=
  [call_update_descriptors [(7%Z, [0%R])]; call_recognize_by_descriptor [0%R]].

Definition demo_config : Config :=
  mk_Config
    (mk_Shared (<[1%nat := <[7%Z := [0%R]]> ∅]> (<[1%nat := ∅]> {[ 0%nat := ∅ ]})) 1%nat)
    [Swapped [(7%Z, [0%R])]; Scanning [0%R] 1%nat 0 None].

End Interleaving.


(* ===================================================================== *)
(** * Concrete back ends, images and databases used in the examples      *)
(* ===================================================================== *)

Module fixtures.

(** An acceptance threshold of 0.6 and descriptors of dimension 1. *)
Definition blind_backends : Backends := {|
  detector_find_faces := fun _ => Py.Return [];
  normalizer_normalize := fun image _ => Py.Return image;
  recognizer_calculate_descriptor := fun _ => Py.Return [0%R];
  descriptor_dim := 1;
  canonical_rows := 2;
  canonical_cols := 2;
  threshold := (6 / 10)%R;
|}.

(** The same engine behind a detector that reports one face. *)
Definition sighted_backends : Backends := {|
  detector_find_faces := fun _ => Py.Return [mk_Rectangle 0 0 2 2];
  normalizer_normalize := fun image _ => Py.Return image;
  recognizer_calculate_descriptor := fun _ => Py.Return [0%R];
  descriptor_dim := 1;
  canonical_rows := 2;
  canonical_cols := 2;
  threshold := (6 / 10)%R;
|}.

(** A 2x2 RGB image of 8-bit samples. *)
Definition rgb_2x2 : NumpyImage :=
  np.mk_ndarray np.uint8 [2; 2; 3]%nat (replicate 12 0%Z).

(** A 2x2 RGB image of doubles. *)
Definition float_2x2 : NumpyImage :=
  np.mk_ndarray np.float64 [2; 2; 3]%nat (replicate 12 0%Z).

(** A valid raw image that is not of the canonical size. *)
Definition rgb_4x4 : NumpyImage :=
  np.mk_ndarray np.uint8 [4; 4; 3]%nat (replicate 48 0%Z).

Definition ivan : User.t :=
  User.mk 1 "Ivan" "Petrov" "Ivanovich" (Some "Student").

(** One user with one enrolled descriptor (id 7) and access to room 10. *)
Definition enrolled_db : sql.Database := {|
  sql.tbl_User := [ivan];
  sql.tbl_UserFaceDescriptor := [UserFaceDescriptor.mk 7 [0%R] 1];
  sql.tbl_UserRoomAccessPermission := [(10%Z, 1%Z)];
  sql.seq_UserFaceDescriptor_id := 8;
|}.

(** The same user after his descriptor row was removed. *)
Definition unbound_db : sql.Database := {|
  sql.tbl_User := [ivan];
  sql.tbl_UserFaceDescriptor := [];
  sql.tbl_UserRoomAccessPermission := [(10%Z, 1%Z)];
  sql.seq_UserFaceDescriptor_id := 8;
|}.

(** A cache holding descriptor 7. *)
Definition cache_7 : gmap Z Descriptor := {[ 7%Z := [0%R] ]}.

Definition enrolled_store : Store sql.Database := mk_Store enrolled_db cache_7.

(** A cache that still holds descriptor 7 over a database that lost it. *)
Definition stale_store : Store sql.Database := mk_Store unbound_db cache_7.

Definition empty_store : Store sql.Database := mk_Store enrolled_db ∅.

End fixtures.

(* ********************************************************************* *)
(** * Part I, continued: the rest of the access-control service          *)
(* ********************************************************************* *)

(** ** More dataclasses and response models of [services/access_control.py]

    A [datetime] is modelled as an instant on one time line, in seconds;
    [astimezone()] keeps the instant. *)

Module Room.
Record t : Type := mk {
  id : Z;
  name : string;
}.
End Room.

Module RoomVisitReport.
Record t : Type := mk {
  id : Z;
  room_id : Z;
  user_id : Z;
  datetime : Z;
}.
End RoomVisitReport.

(** [class VisitRecording(BaseModel)] *)
Record VisitRecording : Type := mk_VisitRecording {
  allowed : bool;
  visit_id : option Z;
}.

(** [class RoomInfo(BaseModel)] with its [from_room]. *)
Module RoomInfo.
Record t : Type := mk {
  id : Z;
  name : string;
}.
Definition from_room (room : Room.t) : t :=
  mk (Room.id room) (Room.name room).
End RoomInfo.

(** [class VisitInfo(BaseModel)] with its [from_visit_report]. *)
Module VisitInfo.
Record t : Type := mk {
  datetime : Z;
  user_id : Z;
}.
Definition from_visit_report (report : RoomVisitReport.t) : t :=
  mk (RoomVisitReport.datetime report) (RoomVisitReport.user_id report).
End VisitInfo.

(** [class VisitsList(BaseModel)] *)
Record VisitsList : Type := mk_VisitsList {
  visits : list VisitInfo.t;
}.

Definition astimezone (datetime_ : Z) : Z := datetime_.

(** ** The other coroutines of [class AccessControlRepository(ABC)]

    Those used by [record_visit], [configure_access], [get_room],
    [get_visits] and [get_accessed_users].  A coroutine that reads may
    raise; a coroutine that writes returns the new state. *)
Class AccessControlRepositoryRest (DB : Type) : Type := {
  create_visit_report : Z -> Z -> Z -> DB -> RoomVisitReport.t * DB;
  create_access_permission : Z -> Z -> DB -> DB;
  delete_access_permission_by_room_id_and_user_id : Z -> Z -> DB -> DB;
  get_room_by_id : Z -> DB -> Py.outcome (option Room.t);
  get_visits_by_room_id_and_date : Z -> Z -> DB -> list RoomVisitReport.t;
  get_accessed_users_by_room_id : Z -> DB -> list User.t;
}.

(** The calendar day of an instant, as PostgreSQL's [date(...)] computes it
    in the session's time zone. *)
Class Calendar : Type := {
  date : Z -> Z;
}.

(** ** Two more ways to touch the database from a coroutine *)

Module EffectsRest.
Section ops.
Context {DB : Type}.

(** A query that may raise. *)
Definition try_db {A} (f : DB -> Py.outcome A) : M DB A :=
  fun _ s => (f (db s), s, []).

(** A statement that changes the database and returns a row. *)
Definition returning_db {A} (f : DB -> A * DB) : M DB A :=
  fun _ s => let '(a, d) := f (db s) in (Py.Return a, mk_Store d (descriptors s), []).

End ops.
End EffectsRest.

(** ** src/main_node/repositories/access_control_repository.py, continued *)

Module sqlx.

(** The permission queries work on the tables of [sql.Database]. *)

(** [insert into "UserRoomAccessPermission" (room_id, user_id)
      values ($1, $2) on conflict do nothing]; the pair is the key of the
    table, as the conflict clause presupposes. *)
Definition create_access_permission (room_id user_id : Z) (d : sql.Database) : sql.Database :=
  if bool_decide ((room_id, user_id) ∈ sql.tbl_UserRoomAccessPermission d) then d
  else {| sql.tbl_User := sql.tbl_User d;
          sql.tbl_UserFaceDescriptor := sql.tbl_UserFaceDescriptor d;
          sql.tbl_UserRoomAccessPermission :=
            sql.tbl_UserRoomAccessPermission d ++ [(room_id, user_id)];
          sql.seq_UserFaceDescriptor_id := sql.seq_UserFaceDescriptor_id d |}.

(** [delete from "UserRoomAccessPermission" where (room_id, user_id) = ($1, $2)] *)
Definition delete_access_permission_by_room_id_and_user_id (room_id user_id : Z)
    (d : sql.Database) : sql.Database :=
  {| sql.tbl_User := sql.tbl_User d;
     sql.tbl_UserFaceDescriptor := sql.tbl_UserFaceDescriptor d;
     sql.tbl_UserRoomAccessPermission :=
       filter (fun p => p <> (room_id, user_id)) (sql.tbl_UserRoomAccessPermission d);
     sql.seq_UserFaceDescriptor_id := sql.seq_UserFaceDescriptor_id d |}.

(** [select "User".* from "User" join "UserRoomAccessPermission" URAP
      on "User".id = URAP.user_id where URAP.room_id = $1]:
    one row per pair of a user and a permission of his for the room. *)
Definition get_accessed_users_by_room_id (room_id : Z) (d : sql.Database) : list User.t :=
  flat_map
    (fun u =>
       flat_map
         (fun p => if (User.id u =? p.2)%Z && (p.1 =? room_id)%Z then [u] else [])
         (sql.tbl_UserRoomAccessPermission d))
    (sql.tbl_User d).

(** The tables of the face flows together with rooms and visit reports. *)
Record Database : Type := mk_Database {
  face : sql.Database;
  tbl_Room : list Room.t;
  tbl_RoomVisitReport : list RoomVisitReport.t;
  seq_RoomVisitReport_id : Z;
}.

(** A statement on the tables of the face flows. *)
Definition on_face (f : sql.Database -> sql.Database) (d : Database) : Database :=
  {| face := f (face d);
     tbl_Room := tbl_Room d;
     tbl_RoomVisitReport := tbl_RoomVisitReport d;
     seq_RoomVisitReport_id := seq_RoomVisitReport_id d |}.

(** [insert into "RoomVisitReport" ("room_id", "user_id", "datetime")
      values ($1, $2, $3) returning *]; the id comes from a sequence. *)
Definition create_visit_report (room_id user_id datetime_ : Z) (d : Database)
    : RoomVisitReport.t * Database :=
  let row := RoomVisitReport.mk (seq_RoomVisitReport_id d) room_id user_id datetime_ in
  (row,
   {| face := face d;
      tbl_Room := tbl_Room d;
      tbl_RoomVisitReport := tbl_RoomVisitReport d ++ [row];
      seq_RoomVisitReport_id := (seq_RoomVisitReport_id d + 1)%Z |}).

(** [select * from "Room" where id = $1]; the record is then unpacked
    into the keyword arguments of [s.Room] with no test of it: unpacking
    [None] raises TypeError. *)
Definition get_room_by_id (room_id : Z) (d : Database) : Py.outcome (option Room.t) :=
  match sql.fetchrow (fun r => (Room.id r =? room_id)%Z) (tbl_Room d) with
  | Some record => Py.Return (Some record)
  | None => Py.Raise Py.TypeError
  end.

(** [select * from "RoomVisitReport"
      where (room_id, date(datetime)) = ($1, $2)] *)
Definition get_visits_by_room_id_and_date {calendar : Calendar} (room_id date_ : Z)
    (d : Database) : list RoomVisitReport.t :=
  filter (fun v => RoomVisitReport.room_id v = room_id /\
                   date (RoomVisitReport.datetime v) = date_)
         (tbl_RoomVisitReport d).

End sqlx.

#[global] Instance sqlx_repository : AccessControlRepository sqlx.Database := {|
  get_user_by_id := fun user_id d => sql.get_user_by_id user_id (sqlx.face d);
  get_user_by_descriptor_id := fun descriptor_id d =>
    sql.get_user_by_descriptor_id descriptor_id (sqlx.face d);
  check_access_permission_exist := fun user_id room_id d =>
    sql.check_access_permission_exist user_id room_id (sqlx.face d);
  get_all_face_descriptors := fun d => sql.get_all_face_descriptors (sqlx.face d);
  update_descriptor_by_user_id := fun user_id descriptor =>
    sqlx.on_face (sql.update_descriptor_by_user_id user_id descriptor);
|}.

#[global] Instance sqlx_repository_rest {calendar : Calendar}
    : AccessControlRepositoryRest sqlx.Database := {|
  create_visit_report := sqlx.create_visit_report;
  create_access_permission := fun room_id user_id =>
    sqlx.on_face (sqlx.create_access_permission room_id user_id);
  delete_access_permission_by_room_id_and_user_id := fun room_id user_id =>
    sqlx.on_face (sqlx.delete_access_permission_by_room_id_and_user_id room_id user_id);
  get_room_by_id := sqlx.get_room_by_id;
  get_visits_by_room_id_and_date := sqlx.get_visits_by_room_id_and_date;
  get_accessed_users_by_room_id := fun room_id d =>
    sqlx.get_accessed_users_by_room_id room_id (sqlx.face d);
|}.

(** ** src/main_node/services/access_control.py, continued

    The log of calls covers the coroutines of the face flows; the
    repository coroutines introduced here are not logged. *)
Module AccessControlServiceRest.
Import EffectsRest.
Section methods.
Context {DB : Type} {repository : AccessControlRepository DB}
        {repository_rest : AccessControlRepositoryRest DB}.

(** [async def record_visit(self, room_id, user_id, datetime_)] *)
Definition record_visit (room_id user_id datetime_ : Z) : M DB (Result VisitRecording) :=
  (* Check permission to the room exist *)
  permitted <- AccessControlService.repo_check_access_permission_exist user_id room_id ;;
  if negb permitted then ret (Ok (mk_VisitRecording false None)) else
  (* Write no visit to database_ *)
  visit <- returning_db (create_visit_report room_id user_id (astimezone datetime_)) ;;
  ret (Ok (mk_VisitRecording true (Some (RoomVisitReport.id visit)))).

(** [async def get_room(self, room_id)] *)
Definition get_room (room_id : Z) : M DB (Result RoomInfo.t) :=
  room <- try_db (get_room_by_id room_id) ;;
  match room with
  | None => ret (Err ("No room with provided id=" +:+ str_int room_id))
  | Some room => ret (Ok (RoomInfo.from_room room))
  end.

(** [async def get_visits(self, room_id, date_)] *)
Definition get_visits (room_id date_ : Z) : M DB (Result VisitsList) :=
  visit_reports <- read_db (get_visits_by_room_id_and_date room_id date_) ;;
  let visit_infos := map VisitInfo.from_visit_report visit_reports in
  ret (Ok (mk_VisitsList visit_infos)).

(** [async def configure_access(self, room_id, user_id, accessed)] *)
Definition configure_access (room_id user_id : Z) (accessed : bool) : M DB (Result unit) :=
  (if accessed
   then write_db (create_access_permission room_id user_id)
   else write_db (delete_access_permission_by_room_id_and_user_id room_id user_id)) ;;;
  ret (Plain true).

End methods.
End AccessControlServiceRest.

(** ** More back ends and stores for the examples *)

Module fixtures_rest.

(** An engine whose embedder fails. *)
Definition faulty_embedder : Backends := {|
  detector_find_faces := fun _ => Py.Return [mk_Rectangle 0 0 2 2];
  normalizer_normalize := fun image _ => Py.Return image;
  recognizer_calculate_descriptor := fun _ => Py.Raise Py.BackendFailure;
  descriptor_dim := 1;
  canonical_rows := 2;
  canonical_cols := 2;
  threshold := (6 / 10)%R;
|}.

(** An engine whose detector fails. *)
Definition faulty_detector : Backends := {|
  detector_find_faces := fun _ => Py.Raise Py.BackendFailure;
  normalizer_normalize := fun image _ => Py.Return image;
  recognizer_calculate_descriptor := fun _ => Py.Return [0%R];
  descriptor_dim := 1;
  canonical_rows := 2;
  canonical_cols := 2;
  threshold := (6 / 10)%R;
|}.

(** Days of 86400 seconds. *)
Definition utc_days : Calendar := {| date := fun t => (t / 86400)%Z |}.

(** The enrolled user, one room and no visit yet. *)
Definition building_db : sqlx.Database := {|
  sqlx.face := fixtures.enrolled_db;
  sqlx.tbl_Room := [Room.mk 10 "Lab"];
  sqlx.tbl_RoomVisitReport := [];
  sqlx.seq_RoomVisitReport_id := 1;
|}.

Definition building_store : Store sqlx.Database :=
  mk_Store building_db fixtures.cache_7.

End fixtures_rest.

(* ********************************************************************* *)
(** * Part I, continued: authorization                                   *)
(* ********************************************************************* *)

(** ** config.py *)

Module config.
Definition ROOM_TOKEN_LIFETIME_SEC : Z := 3600.
End config.

(** ** src/main_node/services/authorization.py

    The service reads the clock; each method takes the instant [now] that
    [datetime.now()] denotes at the call.  Naive local and aware datetimes
    are identified with the instant they denote. *)

(** [ROOM_TOKEN_LIFETIME = timedelta(seconds=ROOM_TOKEN_LIFETIME_SEC)] *)
Definition ROOM_TOKEN_LIFETIME : Z := config.ROOM_TOKEN_LIFETIME_SEC.

Module RoomLoginToken.
Record t : Type := mk {
  token : string;
  room_id : Z;
}.
End RoomLoginToken.

Module RoomTempToken.
Record t : Type := mk {
  token : string;
  room_id : Z;
  valid_before : Z;
}.
End RoomTempToken.

Module AdminToken.
Record t : Type := mk {
  token : string;
  admin_id : Z;
}.
End AdminToken.

(** [class TokenCheck(BaseModel)] *)
Module TokenCheck.
Record t : Type := mk {
  known : bool;
}.
End TokenCheck.

(** [class TempTokenCheck(TokenCheck)], with [valid] defaulting to None. *)
Module TempTokenCheck.
Record t : Type := mk {
  known : bool;
  valid : option bool;
}.
End TempTokenCheck.

(** [class AdminAuthorization(BaseModel)] *)
Module AdminAuthorization.
Record t : Type := mk {
  token_check : TokenCheck.t;
  admin_id : option Z;
}.
End AdminAuthorization.

(** [class RoomAuthorization(BaseModel)] *)
Module RoomAuthorization.
Record t : Type := mk {
  token_check : TempTokenCheck.t;
  room_id : option Z;
}.
End RoomAuthorization.

(** [class TempTokenInfo(BaseModel)] *)
Module TempTokenInfo.
Record t : Type := mk {
  temp_token : string;
  valid_before : Z;
}.
End TempTokenInfo.

(** [class AuthorizationRepository(ABC)] *)
Class AuthorizationRepository (DB : Type) : Type := {
  create_room_temp_token : Z -> Z -> DB -> RoomTempToken.t * DB;
  delete_room_temp_token : Z -> DB -> DB;
  get_room_temp_token : string -> DB -> option RoomTempToken.t;
  get_room_login_token : string -> DB -> option RoomLoginToken.t;
  get_admin_token : string -> DB -> option AdminToken.t;
}.

Module AuthorizationService.
Section methods.
Context {DB : Type} {repository : AuthorizationRepository DB}.

(** [async def authorize_room(self, temp_token_string)] *)
Definition authorize_room (now : Z) (temp_token_string : string) (d : DB)
    : RoomAuthorization.t :=
  (* Get TempRoomToken entity *)
  match get_room_temp_token temp_token_string d with
  | None => RoomAuthorization.mk (TempTokenCheck.mk false None) None
  | Some temp_token =>
      (* Check token is already invalid *)
      if (RoomTempToken.valid_before temp_token <? astimezone now)%Z
      then RoomAuthorization.mk (TempTokenCheck.mk true (Some false)) None
      else RoomAuthorization.mk (TempTokenCheck.mk true (Some true))
             (Some (RoomTempToken.room_id temp_token))
  end.

(** [async def authorize_admin(self, admin_token_string)] *)
Definition authorize_admin (admin_token_string : string) (d : DB) : AdminAuthorization.t :=
  (* Get AdminToken entity *)
  match get_admin_token admin_token_string d with
  | None => AdminAuthorization.mk (TokenCheck.mk false) None
  | Some token =>
      AdminAuthorization.mk (TokenCheck.mk true) (Some (AdminToken.admin_id token))
  end.

(** [async def log_in_room(self, login_token_string)] *)
Definition log_in_room (now : Z) (login_token_string : string) (d : DB)
    : Result TempTokenInfo.t * DB :=
  (* Get RoomLoginToken entity *)
  match get_room_login_token login_token_string d with
  | None => (Err "Unknown room login token.", d)
  | Some login_token =>
      (* Delete old temp token *)
      let d1 := delete_room_temp_token (RoomLoginToken.room_id login_token) d in
      (* Create new temp token *)
      let '(new_token, d2) :=
        create_room_temp_token (RoomLoginToken.room_id login_token)
          (now + ROOM_TOKEN_LIFETIME)%Z d1 in
      let temp_token_info :=
        TempTokenInfo.mk (RoomTempToken.token new_token)
          (RoomTempToken.valid_before new_token) in
      (Ok temp_token_info, d2)
  end.

End methods.
End AuthorizationService.

(** ** src/main_node/repositories/authorization_repository.py *)

(** The value the database gives the "token" column of a new
    "RoomTempToken" row: the insert names no token, so it is a default of
    the schema, which is not part of the sources.  [token_default n] is
    the value drawn for the [n]-th insert. *)
Class TokenDefault : Type := {
  token_default : Z -> string;
}.

Module sql_auth.

Record Database : Type := mk_Database {
  tbl_RoomTempToken : list RoomTempToken.t;
  tbl_RoomLoginToken : list RoomLoginToken.t;
  tbl_AdminToken : list AdminToken.t;
  inserts_RoomTempToken : Z;
}.

(** [insert into "RoomTempToken" ("room_id", "valid_before")
      values ($1, $2) returning *] *)
Definition create_room_temp_token {token_source : TokenDefault}
    (room_id valid_before : Z) (d : Database) : RoomTempToken.t * Database :=
  let record :=
    RoomTempToken.mk (token_default (inserts_RoomTempToken d)) room_id valid_before in
  (record,
   {| tbl_RoomTempToken := tbl_RoomTempToken d ++ [record];
      tbl_RoomLoginToken := tbl_RoomLoginToken d;
      tbl_AdminToken := tbl_AdminToken d;
      inserts_RoomTempToken := (inserts_RoomTempToken d + 1)%Z |}).

(** [delete from "RoomTempToken" where "room_id" = $1] *)
Definition delete_room_temp_token (room_id : Z) (d : Database) : Database :=
  {| tbl_RoomTempToken :=
       filter (fun r => RoomTempToken.room_id r <> room_id) (tbl_RoomTempToken d);
     tbl_RoomLoginToken := tbl_RoomLoginToken d;
     tbl_AdminToken := tbl_AdminToken d;
     inserts_RoomTempToken := inserts_RoomTempToken d |}.

(** [select * from "RoomTempToken" where "token" = $1] *)
Definition get_room_temp_token (token : string) (d : Database) : option RoomTempToken.t :=
  sql.fetchrow (fun r => bool_decide (RoomTempToken.token r = token)) (tbl_RoomTempToken d).

(** [select * from "RoomLoginToken" where "token" = $1] *)
Definition get_room_login_token (token : string) (d : Database) : option RoomLoginToken.t :=
  sql.fetchrow (fun r => bool_decide (RoomLoginToken.token r = token)) (tbl_RoomLoginToken d).

(** [select * from "AdminToken" where "token" = $1] *)
Definition get_admin_token (token : string) (d : Database) : option AdminToken.t :=
  sql.fetchrow (fun r => bool_decide (AdminToken.token r = token)) (tbl_AdminToken d).

End sql_auth.

#[global] Instance sql_auth_repository {token_source : TokenDefault}
    : AuthorizationRepository sql_auth.Database := {|
  create_room_temp_token := sql_auth.create_room_temp_token;
  delete_room_temp_token := sql_auth.delete_room_temp_token;
  get_room_temp_token := sql_auth.get_room_temp_token;
  get_room_login_token := sql_auth.get_room_login_token;
  get_admin_token := sql_auth.get_admin_token;
|}.

(** ** src/main_node/controllers: requirements and the [require] decorator *)

Module web.

(** An HTTP response, as far as the requirements build one. *)
Record Response : Type := mk_Response {
  status : Z;
  text : string;
}.

Definition HTTPBadRequest (text : string) : Response := mk_Response 400 text.
Definition HTTPUnauthorized (text : string) : Response := mk_Response 401 text.

(** A request, as far as the requirements read it: [header name] is what
    [request.headers.get(name)] returns. *)
Record Request : Type := mk_Request {
  header : string -> option string;
  content_type : string;
  body : string;
}.

End web.

(** The state of the application a controller runs against: the clock,
    the database behind the authorization service, and the state of the
    other services. *)
Record App (AuthDB Services : Type) : Type := mk_App {
  clock : Z;
  authorization : AuthDB;
  services : Services;
}.
Arguments mk_App {AuthDB Services} clock authorization services.
Arguments clock {AuthDB Services} a.
Arguments authorization {AuthDB Services} a.
Arguments services {AuthDB Services} a.

Module controllers.
Section requirements.
Context {AuthDB Services V : Type} {repository : AuthorizationRepository AuthDB}.

(** What [prepare_requirement] returns: a response that ends the request,
    or the value handed to the handler.  The wrapper tells them apart by
    [isinstance(..., Response)]. *)
Definition ControllerRequirement : Type :=
  web.Request -> App AuthDB Services -> (web.Response + V) * App AuthDB Services.

(** A handler, called with the request and the keyword arguments prepared
    for it. *)
Definition Handler : Type :=
  web.Request -> list (string * V) -> App AuthDB Services
  -> web.Response * App AuthDB Services.

(** [for checker in self._checkers: ...] *)
Fixpoint run_checkers (checkers : list ControllerRequirement)
    (request : web.Request) (a : App AuthDB Services)
    : option web.Response * App AuthDB Services :=
  match checkers with
  | [] => (None, a)
  | checker :: rest =>
      let '(checker_result, a1) := checker request a in
      match checker_result with
      | inl response => (Some response, a1)
      | inr _ => run_checkers rest request a1
      end
  end.

(** [for name, requirement in self._requirements.items(): ...] *)
Fixpoint run_requirements (requirements : list (string * ControllerRequirement))
    (requirements_kwargs : list (string * V))
    (request : web.Request) (a : App AuthDB Services)
    : (web.Response + list (string * V)) * App AuthDB Services :=
  match requirements with
  | [] => (inr requirements_kwargs, a)
  | (name, requirement) :: rest =>
      let '(preparing_result, a1) := requirement request a in
      match preparing_result with
      | inl response => (inl response, a1)
      | inr value => run_requirements rest (requirements_kwargs ++ [(name, value)]) request a1
      end
  end.

(** The decorator [require], applied to positional checkers and keyword
    requirements and then to a handler: the wrapped handler. *)
Definition require (checkers : list ControllerRequirement)
    (requirements : list (string * ControllerRequirement)) (handler : Handler)
    : web.Request -> App AuthDB Services -> web.Response * App AuthDB Services :=
  fun request a =>
    match run_checkers checkers request a with
    | (Some response, a1) => (response, a1)
    | (None, a1) =>
        match run_requirements requirements [] request a1 with
        | (inl response, a2) => (response, a2)
        | (inr requirements_kwargs, a2) => handler request requirements_kwargs a2
        end
    end.

(** [class RoomAuth(ControllerRequirement)]; [as_value] wraps the room id
    handed to the handler. *)
Definition RoomAuth (as_value : option Z -> V) : ControllerRequirement :=
  fun request a =>
    match web.header request "Room-Token" with
    | None => (inl (web.HTTPBadRequest "Room-Token header is required."), a)
    | Some token_string =>
        let auth := AuthorizationService.authorize_room (clock a) token_string
                      (authorization a) in
        if negb (TempTokenCheck.known (RoomAuthorization.token_check auth))
        then (inl (web.HTTPUnauthorized "Unknown Room-Token value."), a)
        else
          match TempTokenCheck.valid (RoomAuthorization.token_check auth) with
          | Some true => (inr (as_value (RoomAuthorization.room_id auth)), a)
          | _ => (inl (web.HTTPUnauthorized "Token has already invalid."), a)
          end
    end.

(** [class AdminAuth(ControllerRequirement)] *)
Definition AdminAuth (as_value : option Z -> V) : ControllerRequirement :=
  fun request a =>
    match web.header request "Admin-Token" with
    | None => (inl (web.HTTPBadRequest "Admin-Token header is required."), a)
    | Some token_string =>
        let auth := AuthorizationService.authorize_admin token_string (authorization a) in
        if negb (TokenCheck.known (AdminAuthorization.token_check auth))
        then (inl (web.HTTPUnauthorized "Unknown token."), a)
        else (inr (as_value (AdminAuthorization.admin_id auth)), a)
    end.

End requirements.
End controllers.

(** ** Tokens and requests for the examples *)

Module fixtures_auth.

Definition numbered_tokens : TokenDefault :=
  {| token_default := fun n => "temp-" +:+ str_int n |}.

(** Room 10 can log in with "door-10" and holds the temp token "old";
    one administrator. *)
Definition tokens_db : sql_auth.Database := {|
  sql_auth.tbl_RoomTempToken := [RoomTempToken.mk "old" 10 5000];
  sql_auth.tbl_RoomLoginToken := [RoomLoginToken.mk "door-10" 10];
  sql_auth.tbl_AdminToken := [AdminToken.mk "root" 1];
  sql_auth.inserts_RoomTempToken := 1;
|}.

Definition request_with (name value : string) : web.Request :=
  web.mk_Request (fun n => if bool_decide (n = name) then Some value else None)
    "application/json" "".

Definition bare_request : web.Request :=
  web.mk_Request (fun _ => None) "application/json" "".

End fixtures_auth.

(* ********************************************************************* *)
(** * Part I, continued: tasks for room nodes                            *)
(* ********************************************************************* *)

(** ** src/main_node/services/room_node_tasks_service.py *)

(** Converting a string to a member of a [str] enum: the member with that
    value, or ValueError. *)
Module PyEnum.
Inductive outcome (A : Type) : Type :=
| Return (a : A)
| RaiseValueError.
Arguments Return {A} a.
Arguments RaiseValueError {A}.
End PyEnum.

(** [", ".join(...)] *)
Fixpoint str_join (sep : string) (parts : list string) : string :=
  match parts with
  | [] => ""
  | [p] => p
  | p :: rest => p +:+ sep +:+ str_join sep rest
  end.

(** [class TaskStatus(str, Enum)] *)
Module TaskStatus.
Inductive t : Type :=
| UNSENT
| SENT
| DONE
| CANCELLED
| PERFORMING_ERROR
| KWARGS_ERROR
| NO_SUITABLE_HANDLER_ERROR.

#[global] Instance eq_dec : EqDecision t.
Proof. solve_decision. Defined.

Definition value (s : t) : string :=
  match s with
  | UNSENT => "UNSENT"
  | SENT => "SENT"
  | DONE => "DONE"
  | CANCELLED => "CANCELLED"
  | PERFORMING_ERROR => "PERFORMING_ERROR"
  | KWARGS_ERROR => "PARAMETERS_ERROR"
  | NO_SUITABLE_HANDLER_ERROR => "NO_SUITABLE_HANDLER_ERROR"
  end.

(** The members in definition order: what iterating the class and
    [__members__.values()] yield. *)
Definition members : list t :=
  [UNSENT; SENT; DONE; CANCELLED; PERFORMING_ERROR; KWARGS_ERROR;
   NO_SUITABLE_HANDLER_ERROR].

(** [x in TaskStatus.__members__.values()] for a string [x]: a member of a
    [str] enum equals the string that is its value. *)
Definition in_members (x : string) : bool :=
  existsb (fun m => bool_decide (value m = x)) members.

(** [TaskStatus(x)] *)
Definition of_value (x : string) : PyEnum.outcome t :=
  match find (fun m => bool_decide (value m = x)) members with
  | Some m => PyEnum.Return m
  | None => PyEnum.RaiseValueError
  end.
End TaskStatus.

(** [class TaskType(str, Enum)] *)
Module TaskType.
Inductive t : Type :=
| OPEN_DOOR
| SCHEDULE_TASK
| CANCEL_TASK.

#[global] Instance eq_dec : EqDecision t.
Proof. solve_decision. Defined.

Definition value (s : t) : string :=
  match s with
  | OPEN_DOOR => "OPEN_DOOR"
  | SCHEDULE_TASK => "SCHEDULE_TASK"
  | CANCEL_TASK => "CANCEL_TASK"
  end.

Definition members : list t := [OPEN_DOOR; SCHEDULE_TASK; CANCEL_TASK].

Definition in_members (x : string) : bool :=
  existsb (fun m => bool_decide (value m = x)) members.

Definition of_value (x : string) : PyEnum.outcome t :=
  match find (fun m => bool_decide (value m = x)) members with
  | Some m => PyEnum.Return m
  | None => PyEnum.RaiseValueError
  end.
End TaskType.

(** [class RoomTask]; [Kwargs] stands for the [dict[str, Any]] a task
    carries, which the service hands on without looking into it.  The
    columns "type" and "status" hold values of the two enums. *)
Module RoomTask.
Record t (Kwargs : Type) : Type := mk {
  id : Z;
  room_id : Z;
  type : TaskType.t;
  kwargs : Kwargs;
  status : TaskStatus.t;
}.
Arguments mk {Kwargs} id room_id type kwargs status.
Arguments id {Kwargs} t.
Arguments room_id {Kwargs} t.
Arguments type {Kwargs} t.
Arguments kwargs {Kwargs} t.
Arguments status {Kwargs} t.
End RoomTask.

(** [class TaskView(BaseModel)], built by [TaskView.parse_obj(vars(task))]:
    the fields [id], [type] and [kwargs] of the task. *)
Module TaskView.
Record t (Kwargs : Type) : Type := mk {
  id : Z;
  type : TaskType.t;
  kwargs : Kwargs;
}.
Arguments mk {Kwargs} id type kwargs.
Arguments id {Kwargs} t.
Arguments type {Kwargs} t.
Arguments kwargs {Kwargs} t.

Definition parse_obj_vars {Kwargs} (task : RoomTask.t Kwargs) : t Kwargs :=
  mk (RoomTask.id task) (RoomTask.type task) (RoomTask.kwargs task).
End TaskView.

(** [class TaskList(BaseModel)] *)
Record TaskList (Kwargs : Type) : Type := mk_TaskList {
  tasks : list (TaskView.t Kwargs);
}.
Arguments mk_TaskList {Kwargs} tasks.
Arguments tasks {Kwargs} t.

(** [class RoomTasksRepository(ABC)], the coroutines the service uses. *)
Class RoomTasksRepository (Kwargs DB : Type) : Type := {
  get_room_tasks_with_status : Z -> TaskStatus.t -> DB -> list (RoomTask.t Kwargs);
  check_room_exist : Z -> DB -> bool;
  update_task_status : TaskStatus.t -> list Z -> DB -> DB;
  create_task : Z -> TaskType.t -> Kwargs -> DB -> RoomTask.t Kwargs * DB;
  get_task_by_id : Z -> DB -> option (RoomTask.t Kwargs);
}.

Module RoomTasksService.
Section methods.
Context {Kwargs DB : Type} {repository : RoomTasksRepository Kwargs DB}.

(** [async def get_unsent_tasks(self, room_id)] *)
Definition get_unsent_tasks (room_id : Z) (d : DB) : Result (TaskList Kwargs) * DB :=
  let tasks := get_room_tasks_with_status room_id TaskStatus.UNSENT d in
  let d1 := update_task_status TaskStatus.SENT (map RoomTask.id tasks) d in
  let task_views := map TaskView.parse_obj_vars tasks in
  (Ok (mk_TaskList task_views), d1).

(** The f-string of the unknown-status error. *)
Definition cause_unknown_status : string :=
  "Unknown status. Possible statuses: "
  +:+ str_join ", " (map TaskStatus.value TaskStatus.members) +:+ ".".

(** [async def report_task_performed(self, room_id, task_id, new_status)] *)
Definition report_task_performed (room_id task_id : Z) (new_status : string) (d : DB)
    : PyEnum.outcome (Result unit) * DB :=
  (* Get task by id *)
  match get_task_by_id task_id d with
  | None => (PyEnum.Return (Err "No task with provided id."), d)
  | Some task =>
      (* Check the task bounded to the room *)
      if bool_decide (RoomTask.room_id task <> room_id)
      then (PyEnum.Return (Err "Room hasn't task with provided id."), d)
      (* Check new status valid *)
      else if negb (TaskStatus.in_members new_status)
      then (PyEnum.Return (Err cause_unknown_status), d)
      else
        match TaskStatus.of_value new_status with
        | PyEnum.RaiseValueError => (PyEnum.RaiseValueError, d)
        | PyEnum.Return status =>
            (PyEnum.Return (Plain true), update_task_status status [task_id] d)
        end
  end.

(** [async def create_task(self, room_id, type_, kwargs)] *)
Definition create_task (room_id : Z) (type_ : string) (kwargs : Kwargs) (d : DB)
    : PyEnum.outcome (Result (TaskView.t Kwargs)) * DB :=
  (* Check room exist *)
  if negb (check_room_exist room_id d)
  then (PyEnum.Return (Err "Unknown room."), d)
  else if negb (TaskType.in_members type_)
  then (PyEnum.Return (Err "Unknown task type."), d)
  else
    match TaskType.of_value type_ with
    | PyEnum.RaiseValueError => (PyEnum.RaiseValueError, d)
    | PyEnum.Return task_type =>
        let '(task, d1) := create_task room_id task_type kwargs d in
        (PyEnum.Return (Ok (TaskView.parse_obj_vars task)), d1)
    end.

End methods.
End RoomTasksService.

(** ** src/main_node/repositories/room_tasks_repository.py *)

Module sql_tasks.
Section queries.
Context {Kwargs : Type}.

Record Database : Type := mk_Database {
  tbl_RoomTask : list (RoomTask.t Kwargs);
  tbl_Room : list Room.t;
  seq_RoomTask_id : Z;
}.

(** [select * from "RoomTask" where "room_id" = $1 and "status" = $2] *)
Definition get_room_tasks_with_status (room_id : Z) (status : TaskStatus.t)
    (d : Database) : list (RoomTask.t Kwargs) :=
  filter (fun t => RoomTask.room_id t = room_id /\ RoomTask.status t = status)
         (tbl_RoomTask d).

(** [select from "Room" where "id" = $1], then [... is not None]. *)
Definition check_room_exist (id_ : Z) (d : Database) : bool :=
  match sql.fetchrow (fun r => (Room.id r =? id_)%Z) (tbl_Room d) with
  | Some _ => true
  | None => false
  end.

Definition with_status (new_status : TaskStatus.t) (t : RoomTask.t Kwargs)
    : RoomTask.t Kwargs :=
  RoomTask.mk (RoomTask.id t) (RoomTask.room_id t) (RoomTask.type t)
    (RoomTask.kwargs t) new_status.

(** [update "RoomTask" set "status" = $1 where "id" = $2], once. *)
Definition update_one (new_status : TaskStatus.t) (d : Database) (task_id : Z) : Database :=
  {| tbl_RoomTask :=
       map (fun t => if bool_decide (RoomTask.id t = task_id)
                     then with_status new_status t else t)
           (tbl_RoomTask d);
     tbl_Room := tbl_Room d;
     seq_RoomTask_id := seq_RoomTask_id d |}.

(** [conn.executemany(query, args)]: the statement once per task id, in
    order. *)
Definition update_task_status (new_status : TaskStatus.t) (task_ids : list Z)
    (d : Database) : Database :=
  fold_left (update_one new_status) task_ids d.

(** [insert into "RoomTask" ("room_id", "type", "kwargs", "status")
      values ($1, $2, $3, $4) returning *] with status UNSENT; the id
    comes from a sequence. *)
Definition create_task (room_id : Z) (type_ : TaskType.t) (kwargs : Kwargs)
    (d : Database) : RoomTask.t Kwargs * Database :=
  let record := RoomTask.mk (seq_RoomTask_id d) room_id type_ kwargs TaskStatus.UNSENT in
  (record,
   {| tbl_RoomTask := tbl_RoomTask d ++ [record];
      tbl_Room := tbl_Room d;
      seq_RoomTask_id := (seq_RoomTask_id d + 1)%Z |}).

(** [select * from "RoomTask" where "id" = $1] *)
Definition get_task_by_id (id_ : Z) (d : Database) : option (RoomTask.t Kwargs) :=
  sql.fetchrow (fun t => (RoomTask.id t =? id_)%Z) (tbl_RoomTask d).

End queries.
Arguments Database Kwargs : clear implicits.
End sql_tasks.

#[global] Instance sql_tasks_repository {Kwargs : Type}
    : RoomTasksRepository Kwargs (sql_tasks.Database Kwargs) := {|
  get_room_tasks_with_status := sql_tasks.get_room_tasks_with_status;
  check_room_exist := sql_tasks.check_room_exist;
  update_task_status := sql_tasks.update_task_status;
  create_task := sql_tasks.create_task;
  get_task_by_id := sql_tasks.get_task_by_id;
|}.

(** ** Tasks for the examples *)

Module fixtures_tasks.

(** Room 10 has an unsent and a done task, room 11 an unsent one. *)
Definition tasks_db : sql_tasks.Database string := {|
  sql_tasks.tbl_RoomTask :=
    [RoomTask.mk 1 10 TaskType.OPEN_DOOR "{}" TaskStatus.UNSENT;
     RoomTask.mk 2 10 TaskType.OPEN_DOOR "{}" TaskStatus.DONE;
     RoomTask.mk 3 11 TaskType.CANCEL_TASK "{}" TaskStatus.UNSENT];
  sql_tasks.tbl_Room := [Room.mk 10 "Lab"; Room.mk 11 "Hall"];
  sql_tasks.seq_RoomTask_id := 4;
|}.

End fixtures_tasks.


(* ===================================================================== *)
(** * Predicates on caches, answers and requests                         *)
(* ===================================================================== *)

(** The cache holds the descriptors of [rows] and nothing else: under
    each id the features of the row with that id (of the last such row,
    should the id occur more than once, as in a Python [dict] built from
    the pairs), and no entry under an id that no row carries. *)
Definition holds_exactly (rows : list UserFaceDescriptor.t)
    (cache : gmap Z Descriptor) : Prop :=
  forall i,
    cache !! i
    = UserFaceDescriptor.features
        <$> last (filter (fun row => UserFaceDescriptor.id row = i) rows).

(** Modelled from the spec: the contract of [recognize_by_descriptor],
    "the minimum-distance candidate is the match iff that minimum is
    below a fixed acceptance threshold, else is_known_face=false.  Ties
    at the minimum broken by lowest enrolled id". *)
Definition recognition_contract {backends : Backends}
    (cache : gmap Z Descriptor) (q : Descriptor) (answer : RecognitionResult) : Prop :=
  (exists i d,
     cache !! i = Some d /\
     answer = Known i (two_step.euclidean q d) /\
     (two_step.euclidean q d < threshold)%R /\
     (forall j d', cache !! j = Some d' ->
        (two_step.euclidean q d < two_step.euclidean q d')%R \/
        (two_step.euclidean q d = two_step.euclidean q d' /\ (i <= j)%Z)))
  \/
  (answer = Unknown /\
   forall j d', cache !! j = Some d' -> (threshold <= two_step.euclidean q d')%R).

(** The requests that write neither the database nor the cache: all but
    [update_user_descriptor] and [init]. *)
Definition reads_only (r : AccessControlService.Request) : bool :=
  match r with
  | AccessControlService.req_check_access_by_face _ _
  | AccessControlService.req_check_access_by_descriptor _ _
  | AccessControlService.req_calculate_descriptor _ => true
  | AccessControlService.req_update_user_descriptor _ _
  | AccessControlService.req_init => false
  end.

(** The store after a sequence of requests served one after the other. *)
Definition serve_all {DB : Type} {repository : AccessControlRepository DB}
    {backends : Backends} (requests : list AccessControlService.Request)
    (s : Store DB) : Store DB :=
  fold_left (fun s r => (AccessControlService.serve r s).1) requests s.
(* ********************************************************************* *)
(** * Part II: properties                                                *)
(* ********************************************************************* *)

(** ** Sanity checks on concrete arrays *)

Example opencv_rgb_ok :
  opencv._check_image_valid (np.mk_ndarray np.uint8 [2; 2; 3]%nat []) = Py.Return true.
Proof. reflexivity. Qed.

Example opencv_gray2d_rejected :
  opencv._check_image_valid (np.mk_ndarray np.uint8 [2; 2]%nat []) = Py.Return false.
Proof. reflexivity. Qed.

Example opencv_rgba_rejected :
  opencv._check_image_valid (np.mk_ndarray np.uint8 [2; 2; 4]%nat []) = Py.Return false.
Proof. reflexivity. Qed.

Example opencv_float_rejected :
  opencv._check_image_valid (np.mk_ndarray np.float64 [2; 2; 3]%nat []) = Py.Return false.
Proof. reflexivity. Qed.

(** C3.  [_check_image_valid] never raises, and it answers [True] exactly
    for arrays of dtype uint8, of rank 3, whose third shape component
    (the channel count) is 1 or 3. *)
Theorem check_image_valid_iff (image : NumpyImage) :
  (exists b, opencv._check_image_valid image = Py.Return b) /\
  ~ Py.raises (opencv._check_image_valid image) /\
  (opencv._check_image_valid image = Py.Return true <->
     np.dtype image = np.uint8 /\
     length (np.shape image) = 3%nat /\
     (np.shape image !! 2%nat = Some 1%nat \/ np.shape image !! 2%nat = Some 3%nat)).
Proof.
  destruct image as [dt sh buf]; unfold opencv._check_image_valid; simpl.
  destruct (decide (dt = np.uint8)) as [->|Hdt].
  2:{ rewrite bool_decide_eq_true_2 by done.
      split; [by eexists|]. split; [by intros [e ?]|].
      split; [done|]. by intros [? _]. }
  rewrite bool_decide_eq_false_2 by (intros H; by apply H).
  destruct (decide (length sh = 3%nat)) as [Hlen|Hlen].
  2:{ rewrite bool_decide_eq_true_2 by done.
      split; [by eexists|]. split; [by intros [e ?]|].
      split; [done|]. by intros (_ & ? & _). }
  rewrite bool_decide_eq_false_2 by (intros H; by apply H).
  destruct sh as [|r [|c [|ch [|? ?]]]]; try discriminate Hlen.
  simpl. unfold opencv.not_in_1_3.
  destruct (decide (ch = 1%nat)) as [->|H1]; simpl.
  { split; [by eexists|]. split; [by intros [e ?]|]. naive_solver. }
  destruct (decide (ch = 3%nat)) as [->|H3]; simpl.
  { split; [by eexists|]. split; [by intros [e ?]|]. naive_solver. }
  rewrite !bool_decide_eq_false_2 by done. simpl.
  split; [by eexists|]. split; [by intros [e ?]|].
  split; [done|]. intros (_ & _ & [?|?]); simplify_eq.
Qed.

(** Of three detected faces the first of the two largest is selected. *)
Example select_face_largest_first :
  two_step.select_face
    [mk_Rectangle 0 0 1 1; mk_Rectangle 5 5 2 2; mk_Rectangle 9 9 2 2]
  = Some (mk_Rectangle 5 5 2 2).
Proof. reflexivity. Qed.

(** The raw-image checks of the engine are those of the OpenCV detector. *)
Lemma image_checks_opencv (image : NumpyImage) :
  opencv._check_image_valid image = Py.Return (two_step.image_checks image).
Proof.
  destruct image as [dt sh buf].
  unfold opencv._check_image_valid, two_step.image_checks; simpl.
  destruct (decide (dt = np.uint8)) as [->|Hdt].
  2:{ rewrite bool_decide_eq_true_2 by done.
      by rewrite (bool_decide_eq_false_2 (dt = np.uint8)) by done. }
  rewrite bool_decide_eq_false_2 by (intros H; by apply H).
  rewrite (bool_decide_eq_true_2 (np.uint8 = np.uint8)) by done.
  destruct (decide (length sh = 3%nat)) as [Hlen|Hlen].
  2:{ rewrite bool_decide_eq_true_2 by done.
      by rewrite (bool_decide_eq_false_2 (length sh = 3%nat)) by done. }
  rewrite bool_decide_eq_false_2 by (intros H; by apply H).
  rewrite (bool_decide_eq_true_2 (length sh = 3%nat)) by done.
  destruct sh as [|r [|c [|ch [|? ?]]]]; try discriminate Hlen.
  simpl. unfold opencv.not_in_1_3.
  by destruct (bool_decide (ch = 1%nat)), (bool_decide (ch = 3%nat)).
Qed.

(* ===================================================================== *)
(** * Running the service                                                *)
(* ===================================================================== *)

(** Unfold the engine and the service down to the effect primitives. *)
Ltac unfold_service :=
  unfold AccessControlService.serve,
    AccessControlService.check_access_by_face,
    AccessControlService.check_access_by_descriptor,
    AccessControlService.calculate_descriptor,
    AccessControlService.update_user_descriptor,
    AccessControlService.init,
    AccessControlService._load_descriptors,
    AccessControlService.repo_get_user_by_id,
    AccessControlService.repo_get_user_by_descriptor_id,
    AccessControlService.repo_check_access_permission_exist,
    AccessControlService.repo_get_all_face_descriptors,
    AccessControlService.repo_update_descriptor_by_user_id,
    FaceImageNormalizer.check_image_valid,
    FaceImageNormalizer.normalize,
    FaceImageNormalizer.find_faces,
    FaceRecognizer.check_descriptor_valid,
    FaceRecognizer.check_image_normalized,
    FaceRecognizer.recognize,
    FaceRecognizer.calculate_descriptor,
    FaceRecognizer.recognize_by_descriptor,
    FaceRecognizer.update_descriptors in *.

Ltac unfold_effects :=
  unfold Effects.bind, Effects.ret, Effects.log, Effects.lift,
    Effects.to_thread, Effects.read_descriptors, Effects.write_descriptors,
    Effects.read_db, Effects.write_db,
    Effects.outcome_of, Effects.store_of, Effects.events_of in *.

Ltac run := unfold_service; unfold_effects; simpl in *.

(** C4.  When the raw-image check answers [False], the service's
    [calculate_descriptor] returns the error "Provided image is invalid."
    at once: the only call it makes is the check itself, so neither
    [normalize] nor the embedder's [calculate_descriptor] (nor any other
    CPU-bound call) is invoked, and nothing is sent to a worker thread. *)
Theorem calculate_descriptor_invalid_image_fails_fast
    {DB : Type} {repository : AccessControlRepository DB} {backends : Backends}
    (image : NumpyImage) (s : Store DB) :
  outcome_of (FaceImageNormalizer.check_image_valid image SchedulerThread s)
    = Py.Return false ->
  let r := AccessControlService.calculate_descriptor image SchedulerThread s in
  outcome_of r = Py.Return (Err "Provided image is invalid.") /\
  store_of r = s /\
  events_of r = [mk_Event SchedulerThread (CheckImageValid image)] /\
  (forall e, e ∈ events_of r ->
     place e = SchedulerThread /\ cpu_bound (call e) = false /\
     (forall im, call e <> Normalize im /\ call e <> CalculateDescriptor im)).
Proof.
  intros Hcheck. run.
  injection Hcheck as Hcheck. rewrite Hcheck. simpl.
  repeat split; auto.
  all: match goal with H : _ ∈ [_] |- _ => apply list_elem_of_singleton in H; subst end.
  all: simpl; congruence.
Qed.

(** An array of doubles is an instance. *)
Lemma calculate_descriptor_invalid_image_fails_fast_witness :
  outcome_of (FaceImageNormalizer.check_image_valid
                fixtures.float_2x2 SchedulerThread fixtures.enrolled_store)
    = Py.Return false /\
  outcome_of (AccessControlService.calculate_descriptor (backends := fixtures.sighted_backends)
                fixtures.float_2x2 SchedulerThread fixtures.enrolled_store)
    = Py.Return (Err "Provided image is invalid.").
Proof.
  split; [reflexivity|].
  apply (calculate_descriptor_invalid_image_fails_fast
           (backends := fixtures.sighted_backends)
           fixtures.float_2x2 fixtures.enrolled_store).
  reflexivity.
Defined.

(* ===================================================================== *)
(** * Matching: the nearest cached descriptor                            *)
(* ===================================================================== *)

Section matching.
Import two_step.
Context {backends : Backends}.
Implicit Types (cache : gmap Z Descriptor) (q d : Descriptor) (i j : Z).

Lemma closer_true (c b : Z * R) :
  closer c b = true <-> (c.2 < b.2)%R \/ (c.2 = b.2 /\ (c.1 < b.1)%Z).
Proof.
  unfold closer. destruct (Rlt_dec c.2 b.2) as [Hlt|Hnlt].
  { split; [by left | done]. }
  destruct (Rlt_dec b.2 c.2) as [Hgt|Hngt].
  { split; [done | intros [?|[? _]]; lra]. }
  rewrite bool_decide_eq_true. split.
  - intros ?. right. split; [lra | done].
  - intros [?|[_ ?]]; [lra | done].
Qed.

Lemma closer_false (c b : Z * R) :
  closer c b = false <-> (b.2 < c.2)%R \/ (c.2 = b.2 /\ (b.1 <= c.1)%Z).
Proof.
  destruct (closer c b) eqn:E.
  - apply closer_true in E. split; [done|].
    intros [?|[? ?]]; destruct E as [?|[? ?]]; lra || lia.
  - split; [|done]. intros _.
    destruct (Rlt_dec b.2 c.2) as [|Hn1]; [by left|].
    destruct (Rlt_dec c.2 b.2) as [Hlt|Hn2].
    { assert (closer c b = true) by (apply closer_true; by left). congruence. }
    right. split; [lra|].
    destruct (decide (c.1 < b.1)%Z) as [Hz|]; [|lia].
    assert (closer c b = true) by (apply closer_true; right; split; [lra|done]).
    congruence.
Qed.

(** The invariant of the pass over the cache. *)
Lemma nearest_spec cache q :
  match nearest cache q with
  | None => cache = ∅
  | Some c => is_nearest cache q c
  end.
Proof.
  unfold nearest.
  apply (map_fold_weak_ind
           (fun r m => match r with None => m = ∅ | Some c => is_nearest m q c end)).
  { done. }
  intros i x m r Hfresh IH. unfold consider.
  destruct r as [b|].
  - destruct IH as [(d & Hd & Hdist) Hmin].
    destruct (closer (i, euclidean q x) b) eqn:E.
    + apply closer_true in E. simpl in E. split.
      * exists x. simpl. by rewrite lookup_insert_eq.
      * intros j d' Hj. simpl.
        destruct (decide (i = j)) as [->|Hne].
        { rewrite lookup_insert_eq in Hj. simplify_eq. right. split; [done|lia]. }
        rewrite lookup_insert_ne in Hj by done.
        destruct (Hmin j d' Hj) as [?|[? ?]]; destruct E as [?|[? ?]];
          (left; lra) || (right; split; [lra|lia]).
    + apply closer_false in E. simpl in E. split.
      * exists d. split; [|done].
        rewrite lookup_insert_ne; [done|]. intros ->. congruence.
      * intros j d' Hj.
        destruct (decide (i = j)) as [->|Hne].
        { rewrite lookup_insert_eq in Hj. simplify_eq.
          destruct E as [?|[? ?]]; [by left | right; split; [lra|done]]. }
        rewrite lookup_insert_ne in Hj by done. by apply Hmin.
  - subst m. split.
    + exists x. simpl. by rewrite lookup_insert_eq.
    + intros j d' Hj. simpl.
      destruct (decide (i = j)) as [->|Hne].
      * rewrite lookup_insert_eq in Hj. simplify_eq. right. split; [done|lia].
      * rewrite lookup_insert_ne in Hj by done. by rewrite lookup_empty in Hj.
Qed.

(** The nearest entry is unique. *)
Lemma is_nearest_unique cache q (c1 c2 : Z * R) :
  is_nearest cache q c1 -> is_nearest cache q c2 -> c1 = c2.
Proof.
  intros [(d1 & Hd1 & E1) Hmin1] [(d2 & Hd2 & E2) Hmin2].
  specialize (Hmin1 _ _ Hd2). specialize (Hmin2 _ _ Hd1).
  destruct c1 as [i1 r1], c2 as [i2 r2]; simpl in *.
  assert (r1 = r2) as -> by (destruct Hmin1 as [?|[? ?]], Hmin2 as [?|[? ?]]; lra).
  f_equal.
  destruct Hmin1 as [?|[? ?]], Hmin2 as [?|[? ?]]; lra || lia.
Qed.

Lemma nearest_Some cache q (c : Z * R) :
  nearest cache q = Some c <-> is_nearest cache q c.
Proof.
  pose proof (nearest_spec cache q) as H.
  destruct (nearest cache q) as [c'|] eqn:E.
  - split; [by intros [= <-] | intros Hc; f_equal; by eapply is_nearest_unique].
  - split; [done|]. intros [(d & Hd & _) _]. subst cache.
    by rewrite lookup_empty in Hd.
Qed.

Lemma nearest_None cache q :
  nearest cache q = None <-> cache = ∅.
Proof.
  pose proof (nearest_spec cache q) as H.
  destruct (nearest cache q) as [c|] eqn:E; [|done].
  split; [done|]. intros ->. destruct H as [(d & Hd & _) _].
  by rewrite lookup_empty in Hd.
Qed.

(** A known face is the nearest entry, and it lies below the threshold. *)
Lemma match_descriptor_known cache q i :
  (is_known_face (match_descriptor cache q) = true /\
   descriptor_id (match_descriptor cache q) = Some i) <->
  exists d, cache !! i = Some d /\
    (euclidean q d < threshold)%R /\
    (forall j d', cache !! j = Some d' -> (euclidean q d <= euclidean q d')%R) /\
    (forall j d', cache !! j = Some d' -> euclidean q d' = euclidean q d -> (i <= j)%Z).
Proof.
  unfold match_descriptor. split.
  - destruct (nearest cache q) as [[i' dist]|] eqn:E; [|by intros [? _]].
    apply nearest_Some in E. destruct E as [(d & Hd & Hdist) Hmin]. simpl in *.
    destruct (Rlt_dec dist threshold) as [Hlt|]; [|by intros [? _]].
    simpl. intros [_ [= ->]]. exists d. subst dist. repeat split; [done..| |].
    + intros j d' Hj. destruct (Hmin j d' Hj) as [?|[? _]]; lra.
    + intros j d' Hj Heq. destruct (Hmin j d' Hj) as [?|[_ ?]]; [lra|done].
  - intros (d & Hd & Hlt & Hle & Htie).
    assert (nearest cache q = Some (i, euclidean q d)) as ->.
    { apply nearest_Some. split; [by exists d|]. simpl.
      intros j d' Hj. specialize (Hle j d' Hj). specialize (Htie j d' Hj).
      destruct (Rlt_dec (euclidean q d) (euclidean q d')); [by left|].
      right. split; [lra|]. apply Htie. lra. }
    by destruct (Rlt_dec (euclidean q d) threshold).
Qed.

(** An unknown face: no entry lies below the threshold. *)
Lemma match_descriptor_unknown cache q :
  is_known_face (match_descriptor cache q) = false <->
  forall j d', cache !! j = Some d' -> (threshold <= euclidean q d')%R.
Proof.
  unfold match_descriptor.
  destruct (nearest cache q) as [[i dist]|] eqn:E.
  - apply nearest_Some in E. destruct E as [(d & Hd & Hdist) Hmin]. simpl in *.
    destruct (Rlt_dec dist threshold) as [Hlt|Hge]; simpl.
    + split; [done|]. intros H. specialize (H i d Hd). lra.
    + split; [|done]. intros _ j d' Hj.
      destruct (Hmin j d' Hj) as [?|[? _]]; lra.
  - apply nearest_None in E. subst. split; [|done].
    intros _ j d' Hj. by rewrite lookup_empty in Hj.
Qed.

(** The reported distance is the distance to the matched entry. *)
Lemma match_descriptor_distance cache q :
  is_known_face (match_descriptor cache q) = true ->
  exists i d, match_descriptor cache q = Known i (euclidean q d) /\
              cache !! i = Some d.
Proof.
  unfold match_descriptor.
  destruct (nearest cache q) as [[i dist]|] eqn:E; [|done].
  apply nearest_Some in E. destruct E as [(d & Hd & Hdist) _]. simpl in *.
  destruct (Rlt_dec dist threshold); [|done].
  intros _. exists i, d. by subst.
Qed.

Lemma match_descriptor_empty q :
  match_descriptor ∅ q = Unknown.
Proof. unfold match_descriptor, nearest. by rewrite map_fold_empty. Qed.

Lemma build_map_nil : build_map [] = ∅.
Proof. reflexivity. Qed.

End matching.

(** ** Distances in dimension one, for the examples *)

Lemma euclidean_1 (x y : R) : two_step.euclidean [x] [y] = Rabs (x - y).
Proof.
  unfold two_step.euclidean, two_step.sum_squares. simpl.
  rewrite Rplus_0_r. apply sqrt_Rsqr_abs.
Qed.

Lemma euclidean_zero : two_step.euclidean [0%R] [0%R] = 0%R.
Proof. rewrite euclidean_1, Rminus_diag. apply Rabs_R0. Qed.

(** A query at distance 0 from the only entry of the cache is known. *)
Lemma match_cache_7 :
  two_step.match_descriptor (backends := fixtures.sighted_backends)
    fixtures.cache_7 [0%R] = Known 7 0.
Proof.
  unfold two_step.match_descriptor, two_step.nearest, fixtures.cache_7.
  rewrite map_fold_singleton. unfold two_step.consider.
  rewrite euclidean_zero. simpl.
  destruct (Rlt_dec 0 (6 / 10)) as [|Hn]; [done|]. exfalso. apply Hn. lra.
Qed.

(** The example of the specification: threshold 0.6, entry 1 at distance
    0.3 and entry 2 at distance 0.9: the match is entry 1. *)
Example match_two_entries :
  let cache : gmap Z Descriptor := {[ 1%Z := [(3/10)%R]; 2%Z := [(9/10)%R] ]} in
  let r := two_step.match_descriptor (backends := fixtures.sighted_backends) cache [0%R] in
  is_known_face r = true /\ descriptor_id r = Some 1%Z.
Proof.
  intros cache r. apply match_descriptor_known.
  exists [(3/10)%R]. split; [done|].
  assert (E1 : two_step.euclidean [0%R] [(3/10)%R] = (3/10)%R).
  { rewrite euclidean_1. rewrite Rabs_left; lra. }
  assert (E2 : two_step.euclidean [0%R] [(9/10)%R] = (9/10)%R).
  { rewrite euclidean_1. rewrite Rabs_left; lra. }
  rewrite E1. split; [simpl; lra|].
  assert (Hcases : forall j d', cache !! j = Some d' ->
            (j = 1%Z /\ d' = [(3/10)%R]) \/ (j = 2%Z /\ d' = [(9/10)%R])).
  { intros j d' Hj. subst cache.
    destruct (decide (j = 1%Z)) as [->|]; [left|right].
    - rewrite lookup_insert_eq in Hj. by simplify_eq.
    - rewrite lookup_insert_ne in Hj by done.
      apply lookup_singleton_Some in Hj. by destruct Hj as [<- <-]. }
  split; intros j d' Hj; destruct (Hcases j d' Hj) as [[-> ->]|[-> ->]];
    rewrite ?E1, ?E2; lra || lia.
Qed.

(** A query whose nearest entry is at distance 0.8 is unknown. *)
Example match_far_entry :
  let cache : gmap Z Descriptor := {[ 1%Z := [(8/10)%R] ]} in
  two_step.match_descriptor (backends := fixtures.sighted_backends) cache [0%R] = Unknown.
Proof.
  intros cache. unfold two_step.match_descriptor, two_step.nearest, cache.
  rewrite map_fold_singleton. unfold two_step.consider.
  rewrite euclidean_1. rewrite Rabs_left by lra. simpl.
  destruct (Rlt_dec (- (0 - 8 / 10)) (6 / 10)) as [H|]; [lra|done].
Qed.

(** C1.  [recognize_by_descriptor] returns (it does not raise) and leaves
    the store as it was.  Its answer is a known face with id [i] exactly
    when entry [i] of the cache is at the minimal Euclidean distance from
    the query over all cached descriptors, that minimum is strictly below
    the acceptance threshold, and [i] is the lowest id at that distance;
    the reported distance is then that minimum.  The answer is
    is_known_face = False exactly when no cached descriptor is strictly
    below the threshold.  After [update_descriptors([])] every
    [recognize_by_descriptor] answers is_known_face = False. *)
Theorem recognize_by_descriptor_nearest_below_threshold
    {DB : Type} {backends : Backends} (q : Descriptor) (p : Place) (s : Store DB) :
  let r := FaceRecognizer.recognize_by_descriptor q p s in
  (exists res,
     outcome_of r = Py.Return res /\ store_of r = s /\
     (forall i,
        (is_known_face res = true /\ descriptor_id res = Some i) <->
        exists d, descriptors s !! i = Some d /\
          (two_step.euclidean q d < threshold)%R /\
          (forall j d', descriptors s !! j = Some d' ->
             (two_step.euclidean q d <= two_step.euclidean q d')%R) /\
          (forall j d', descriptors s !! j = Some d' ->
             two_step.euclidean q d' = two_step.euclidean q d -> (i <= j)%Z)) /\
     (is_known_face res = true ->
        exists i d, descriptors s !! i = Some d /\
                    res = Known i (two_step.euclidean q d)) /\
     (is_known_face res = false <->
        forall j d', descriptors s !! j = Some d' ->
          (threshold <= two_step.euclidean q d')%R)) /\
  (forall p1 p2,
     let emptied := store_of (FaceRecognizer.update_descriptors [] p1 s) in
     outcome_of (FaceRecognizer.recognize_by_descriptor q p2 emptied)
       = Py.Return Unknown).
Proof.
  split.
  - exists (two_step.match_descriptor (descriptors s) q). run.
    split; [done|]. split; [done|]. split; [|split].
    + intros i. apply match_descriptor_known.
    + intros Hk. destruct (match_descriptor_distance _ _ Hk) as (i & d & -> & Hd).
      by exists i, d.
    + apply match_descriptor_unknown.
  - intros p1 p2. run. by rewrite match_descriptor_empty.
Qed.

(** Descriptor 7 at distance 0 is recognized; after the cache is emptied it
    is not. *)
Lemma recognize_by_descriptor_nearest_below_threshold_witness :
  outcome_of (FaceRecognizer.recognize_by_descriptor (backends := fixtures.sighted_backends)
                [0%R] WorkerThread
                (store_of (FaceRecognizer.update_descriptors []
                             SchedulerThread fixtures.enrolled_store)))
    = Py.Return Unknown.
Proof.
  apply (recognize_by_descriptor_nearest_below_threshold
           (backends := fixtures.sighted_backends)
           [0%R] WorkerThread fixtures.enrolled_store).
Defined.

(* ===================================================================== *)
(** * The service flows                                                  *)
(* ===================================================================== *)

(** Case analysis on the innermost scrutinee of the goal. *)
Ltac case_innermost :=
  match goal with
  | |- context [match ?x with _ => _ end] =>
      lazymatch x with
      | context [match _ with _ => _ end] => fail
      | _ => destruct x eqn:?
      end
  end.

Ltac case_all := repeat (case_innermost; simpl in * ).

(** Membership in an explicit list of events, case by case. *)
Ltac each_event H :=
  repeat (apply elem_of_cons in H as [->|H]);
  try (by apply elem_of_nil in H).

(** C9.  When [check_image_normalized] answers [False],
    [check_access_by_face] returns the error 'Provided image is not
    normalized.' and the check is the only call it makes: no recognition,
    no detection or normalization, no repository coroutine, and the store
    is untouched.  On every image, whatever the check answers, the flow
    never calls [check_image_valid], [normalize], the detector or the
    crop-and-align step. *)
Theorem check_access_by_face_requires_normalized_image
    {DB : Type} {repository : AccessControlRepository DB} {backends : Backends}
    (room_id : Z) (image : NumpyImage) (s : Store DB) :
  (outcome_of (FaceRecognizer.check_image_normalized image SchedulerThread s)
     = Py.Return false ->
   let r := AccessControlService.check_access_by_face room_id image SchedulerThread s in
   outcome_of r = Py.Return (Err "Provided image is not normalized.") /\
   store_of r = s /\
   events_of r = [mk_Event SchedulerThread (CheckImageNormalized image)]) /\
  (forall ev,
     ev ∈ events_of (AccessControlService.check_access_by_face room_id image SchedulerThread s) ->
     forall im face,
       call ev <> CheckImageValid im /\ call ev <> Normalize im /\
       call ev <> FindFaces im /\ call ev <> CropAlign im face).
Proof.
  split.
  - intros Hcheck. run. injection Hcheck as Hcheck. by rewrite Hcheck.
  - run. case_all; intros ev Hev im face; each_event Hev; simpl;
      repeat split; congruence.
Qed.

(** A valid raw image of the wrong size is turned away. *)
Lemma check_access_by_face_requires_normalized_image_witness :
  outcome_of (FaceRecognizer.check_image_normalized (backends := fixtures.sighted_backends)
                fixtures.rgb_4x4 SchedulerThread fixtures.enrolled_store)
    = Py.Return false /\
  outcome_of (AccessControlService.check_access_by_face (backends := fixtures.sighted_backends)
                10 fixtures.rgb_4x4 SchedulerThread fixtures.enrolled_store)
    = Py.Return (Err "Provided image is not normalized.").
Proof.
  split; [reflexivity|].
  apply (check_access_by_face_requires_normalized_image
           (backends := fixtures.sighted_backends)
           10 fixtures.rgb_4x4 fixtures.enrolled_store).
  reflexivity.
Defined.

(** C10.  In both access checks, when recognition reports a known face
    with descriptor id [i] and the repository binds no user to [i], the
    service returns an error whose cause ends in "(descriptor_id = i)"; and
    whenever the service returns an AccessCheck with is_known = True, the
    recognized descriptor id is bound to the user carried by the check. *)
Theorem known_but_unbound_descriptor_is_an_error
    {DB : Type} {repository : AccessControlRepository DB} {backends : Backends}
    (room_id : Z) (s : Store DB) :
  (forall image result i,
     outcome_of (FaceRecognizer.check_image_normalized image SchedulerThread s)
       = Py.Return true ->
     outcome_of (FaceRecognizer.recognize image WorkerThread s) = Py.Return result ->
     is_known_face result = true ->
     descriptor_id result = Some i ->
     get_user_by_descriptor_id i (db s) = None ->
     outcome_of (AccessControlService.check_access_by_face room_id image SchedulerThread s)
       = Py.Return (Err
           ("Calculated descriptor is known but not bound to user. (descriptor_id = "
            +:+ str_int i +:+ ")"))) /\
  (forall descriptor result i,
     outcome_of (FaceRecognizer.check_descriptor_valid descriptor SchedulerThread s)
       = Py.Return true ->
     outcome_of (FaceRecognizer.recognize_by_descriptor descriptor SchedulerThread s)
       = Py.Return result ->
     is_known_face result = true ->
     descriptor_id result = Some i ->
     get_user_by_descriptor_id i (db s) = None ->
     outcome_of (AccessControlService.check_access_by_descriptor room_id descriptor SchedulerThread s)
       = Py.Return (Err
           ("Provided descriptor is known, but not bound to user. (descriptor_id = "
            +:+ str_int i +:+ ")"))) /\
  (forall image check,
     outcome_of (AccessControlService.check_access_by_face room_id image SchedulerThread s)
       = Py.Return (Ok check) ->
     is_known check = true ->
     exists result i u,
       outcome_of (FaceRecognizer.recognize image WorkerThread s) = Py.Return result /\
       is_known_face result = true /\ descriptor_id result = Some i /\
       get_user_by_descriptor_id i (db s) = Some u /\ user check = Some u) /\
  (forall descriptor check,
     outcome_of (AccessControlService.check_access_by_descriptor room_id descriptor SchedulerThread s)
       = Py.Return (Ok check) ->
     is_known check = true ->
     exists result i u,
       outcome_of (FaceRecognizer.recognize_by_descriptor descriptor SchedulerThread s)
         = Py.Return result /\
       is_known_face result = true /\ descriptor_id result = Some i /\
       get_user_by_descriptor_id i (db s) = Some u /\ user check = Some u).
Proof.
  unfold AccessControlService.cause_not_bound_face,
    AccessControlService.cause_not_bound_descriptor.
  split; [|split; [|split]].
  - intros image result i Hcheck Hrec Hknown Hid Hnone. run.
    injection Hcheck as Hcheck. rewrite Hcheck. simpl.
    destruct (recognizer_calculate_descriptor image) as [d|ex]; simpl in *; [|done].
    injection Hrec as Hrec. rewrite Hrec, Hknown. simpl.
    by rewrite Hid, Hnone.
  - intros descriptor result i Hcheck Hrec Hknown Hid Hnone. run.
    injection Hcheck as Hcheck. rewrite Hcheck. simpl.
    injection Hrec as Hrec. rewrite Hrec, Hknown. simpl.
    by rewrite Hid, Hnone.
  - intros image check. run.
    destruct (two_step.image_checks image && FaceRecognizer.canonical_size image);
      simpl; [|done].
    destruct (recognizer_calculate_descriptor image) as [d|ex]; simpl; [|done].
    destruct (is_known_face (two_step.match_descriptor (descriptors s) d)) eqn:Hk;
      simpl; [|by intros [= <-]].
    destruct (descriptor_id (two_step.match_descriptor (descriptors s) d))
      as [i|] eqn:Hi; simpl; [|done].
    destruct (get_user_by_descriptor_id i (db s)) as [u|] eqn:Hu; simpl; [|done].
    intros [= <-] _. by exists (two_step.match_descriptor (descriptors s) d), i, u.
  - intros descriptor check. run.
    destruct (bool_decide (length descriptor = descriptor_dim)); simpl; [|done].
    destruct (is_known_face (two_step.match_descriptor (descriptors s) descriptor)) eqn:Hk;
      simpl; [|by intros [= <-]].
    destruct (descriptor_id (two_step.match_descriptor (descriptors s) descriptor))
      as [i|] eqn:Hi; simpl; [|done].
    destruct (get_user_by_descriptor_id i (db s)) as [u|] eqn:Hu; simpl; [|done].
    intros [= <-] _.
    by exists (two_step.match_descriptor (descriptors s) descriptor), i, u.
Qed.

(** Both flows on a cache that still holds descriptor 7 while the database
    no longer binds it. *)
Lemma known_but_unbound_descriptor_is_an_error_witness :
  outcome_of (AccessControlService.check_access_by_face (backends := fixtures.sighted_backends)
                10 fixtures.rgb_2x2 SchedulerThread fixtures.stale_store)
    = Py.Return (Err
        "Calculated descriptor is known but not bound to user. (descriptor_id = 7)") /\
  outcome_of (AccessControlService.check_access_by_descriptor (backends := fixtures.sighted_backends)
                10 [0%R] SchedulerThread fixtures.stale_store)
    = Py.Return (Err
        "Provided descriptor is known, but not bound to user. (descriptor_id = 7)").
Proof.
  pose proof (known_but_unbound_descriptor_is_an_error
                (backends := fixtures.sighted_backends) 10 fixtures.stale_store)
    as (Hface & Hdescriptor & _ & _).
  split.
  - apply (Hface fixtures.rgb_2x2 (Known 7 0) 7%Z).
    + reflexivity.
    + run. by rewrite match_cache_7.
    + reflexivity.
    + reflexivity.
    + reflexivity.
  - apply (Hdescriptor [0%R] (Known 7 0) 7%Z).
    + reflexivity.
    + run. by rewrite match_cache_7.
    + reflexivity.
    + reflexivity.
    + reflexivity.
Defined.

(** With the binding in place the same requests are granted. *)
Example enrolled_user_is_granted :
  outcome_of (AccessControlService.check_access_by_descriptor (backends := fixtures.sighted_backends)
                10 [0%R] SchedulerThread fixtures.enrolled_store)
    = Py.Return (Ok (mk_AccessCheck true (Some true) (Some fixtures.ivan))).
Proof. run. by rewrite match_cache_7. Qed.

(** C2 as stated fails: on a valid image in which the detector finds no
    face, [normalize] does return the no-face outcome without raising, but
    the service does not hand it on as a success. *)
Lemma no_face_is_not_a_success_counterexample :
  let image := fixtures.rgb_2x2 in
  let s := fixtures.enrolled_store in
  outcome_of (FaceImageNormalizer.check_image_valid image SchedulerThread s)
    = Py.Return true /\
  detector_find_faces (Backends := fixtures.blind_backends) image = Py.Return [] /\
  outcome_of (FaceImageNormalizer.normalize (backends := fixtures.blind_backends)
                image WorkerThread s) = Py.Return None /\
  ~ (exists res,
       outcome_of (AccessControlService.calculate_descriptor
                     (backends := fixtures.blind_backends) image SchedulerThread s)
         = Py.Return res /\
       success res = true).
Proof.
  repeat split. intros (res & Hres & Hsucc).
  injection Hres as <-. discriminate Hsucc.
Qed.

(** C2, amended.  On a valid image in which detection finds zero faces,
    [normalize] returns the no-face outcome [None] as a normal result: it
    does not raise and does not touch the store.  The service's
    [calculate_descriptor] turns that outcome into the error result
    "Can't normalize image. Maybe there is no face." (success = False);
    the embedder is not called. *)
Theorem no_face_is_reported_as_an_error
    {DB : Type} {repository : AccessControlRepository DB} {backends : Backends}
    (image : NumpyImage) (s : Store DB) :
  outcome_of (FaceImageNormalizer.check_image_valid image SchedulerThread s)
    = Py.Return true ->
  detector_find_faces image = Py.Return [] ->
  (forall p,
     let n := FaceImageNormalizer.normalize image p s in
     outcome_of n = Py.Return None /\ ~ Py.raises (outcome_of n) /\ store_of n = s) /\
  let r := AccessControlService.calculate_descriptor image SchedulerThread s in
  outcome_of r = Py.Return (Err "Can't normalize image. Maybe there is no face.") /\
  (forall res, outcome_of r = Py.Return res -> success res = false) /\
  store_of r = s /\
  events_of r = [mk_Event SchedulerThread (CheckImageValid image);
                 mk_Event WorkerThread (Normalize image);
                 mk_Event WorkerThread (FindFaces image)].
Proof.
  intros Hvalid Hnone. split.
  - intros p. run. rewrite Hnone. simpl.
    split; [done|]. split; [by intros [e ?] | done].
  - run. injection Hvalid as Hvalid. rewrite Hvalid, Hnone. simpl.
    split; [done|]. split; [by intros res [= <-] | done].
Qed.

Lemma no_face_is_reported_as_an_error_witness :
  outcome_of (AccessControlService.calculate_descriptor (backends := fixtures.blind_backends)
                fixtures.rgb_2x2 SchedulerThread fixtures.enrolled_store)
    = Py.Return (Err "Can't normalize image. Maybe there is no face.").
Proof.
  apply (no_face_is_reported_as_an_error (backends := fixtures.blind_backends)
           fixtures.rgb_2x2 fixtures.enrolled_store); reflexivity.
Defined.

(** With a detector that reports a face the same image yields a
    descriptor. *)
Example one_face_yields_a_descriptor :
  outcome_of (AccessControlService.calculate_descriptor (backends := fixtures.sighted_backends)
                fixtures.rgb_2x2 SchedulerThread fixtures.enrolled_store)
    = Py.Return (Ok (mk_AnonymousDescriptor [0%R])).
Proof. reflexivity. Qed.

(* ===================================================================== *)
(** * Cache reloads                                                      *)
(* ===================================================================== *)

Section reload.
Import two_step.
Implicit Types (pairs : list (Z * Descriptor)) (rows : list UserFaceDescriptor.t).

Lemma build_map_snoc pairs (p : Z * Descriptor) :
  build_map (pairs ++ [p]) = <[p.1 := p.2]> (build_map pairs).
Proof. unfold build_map. by rewrite fold_left_app. Qed.

(** Every entry of the map comes from a pair of the list. *)
Lemma build_map_lookup pairs i (d : Descriptor) :
  build_map pairs !! i = Some d -> (i, d) ∈ pairs.
Proof.
  induction pairs as [|p pairs IH] using rev_ind; [done|].
  rewrite build_map_snoc. destruct p as [j x]. simpl.
  destruct (decide (j = i)) as [->|Hne].
  - rewrite lookup_insert_eq. intros [= ->]. apply elem_of_app. right. apply list_elem_of_here.
  - rewrite lookup_insert_ne by done. intros H. apply elem_of_app. left. by apply IH.
Qed.

(** The map built from the (id, features) pairs of the rows holds the
    rows and nothing else. *)
Lemma build_map_holds_exactly rows :
  holds_exactly rows
    (build_map (map (fun row => (UserFaceDescriptor.id row, UserFaceDescriptor.features row))
                    rows)).
Proof.
  intros i. induction rows as [|row rows IH] using rev_ind.
  { unfold build_map. simpl. by rewrite lookup_empty. }
  rewrite List.map_app. simpl. rewrite build_map_snoc, filter_app. simpl.
  rewrite filter_cons, filter_nil.
  destruct (decide (UserFaceDescriptor.id row = i)) as [Hi|Hne].
  - rewrite Hi, lookup_insert_eq. by rewrite last_snoc.
  - rewrite lookup_insert_ne by done. rewrite app_nil_r. apply IH.
Qed.

End reload.

(** C5.  [init] and every successful [update_user_descriptor] end with one
    [update_descriptors] call whose argument is the complete list read
    from the repository at that moment: one (id, features) pair for each
    row of [get_all_face_descriptors], in the order of the rows (for
    [update_user_descriptor]: the rows after the mutation).  The cache
    they leave holds exactly those rows, whatever it held before.  A
    refused [update_user_descriptor] (unknown user) leaves database and
    cache as they were.  No request leaves the cache in any other state
    than the one it found or one holding exactly the rows of the
    database it leaves, and no request calls [update_descriptors] with
    anything but the complete list of that database. *)
Theorem cache_is_always_reloaded_in_full
    {DB : Type} {repository : AccessControlRepository DB} {backends : Backends}
    (s : Store DB) :
  (let r := AccessControlService.init SchedulerThread s in
   let rows := get_all_face_descriptors (db s) in
   outcome_of r = Py.Return tt /\
   db (store_of r) = db s /\
   holds_exactly rows (descriptors (store_of r)) /\
   events_of r =
     [mk_Event SchedulerThread (Repository q_get_all_face_descriptors);
      mk_Event SchedulerThread
        (UpdateDescriptors
           (map (fun row => (UserFaceDescriptor.id row, UserFaceDescriptor.features row))
                rows))]) /\
  (forall user_id descriptor,
     let r := AccessControlService.update_user_descriptor user_id descriptor SchedulerThread s in
     match get_user_by_id user_id (db s) with
     | Some _ =>
         let db' := update_descriptor_by_user_id user_id descriptor (db s) in
         let rows := get_all_face_descriptors db' in
         outcome_of r = Py.Return (Plain true) /\
         db (store_of r) = db' /\
         holds_exactly rows (descriptors (store_of r)) /\
         events_of r =
           [mk_Event SchedulerThread (Repository (q_get_user_by_id user_id));
            mk_Event SchedulerThread
              (Repository (q_update_descriptor_by_user_id user_id descriptor));
            mk_Event SchedulerThread (Repository q_get_all_face_descriptors);
            mk_Event SchedulerThread
              (UpdateDescriptors
                 (map (fun row => (UserFaceDescriptor.id row,
                                   UserFaceDescriptor.features row))
                      rows))]
     | None =>
         outcome_of r = Py.Return (Err "Unknown user id.") /\
         store_of r = s /\
         events_of r = [mk_Event SchedulerThread (Repository (q_get_user_by_id user_id))]
     end) /\
  (forall req,
     let after := (AccessControlService.serve req s).1 in
     descriptors after = descriptors s \/
     holds_exactly (get_all_face_descriptors (db after)) (descriptors after)) /\
  (forall req place pairs,
     let served := AccessControlService.serve req s in
     mk_Event place (UpdateDescriptors pairs) ∈ served.2 ->
     pairs = map (fun row => (UserFaceDescriptor.id row, UserFaceDescriptor.features row))
                 (get_all_face_descriptors (db served.1))).
Proof.
  split; [|split; [|split]].
  - run. repeat split. apply build_map_holds_exactly.
  - intros user_id descriptor. run.
    destruct (get_user_by_id user_id (db s)); simpl; [|done].
    repeat split. apply build_map_holds_exactly.
  - intros [room_id image|room_id descriptor|image|user_id descriptor|]; run.
    + left. by case_all.
    + left. by case_all.
    + left. by case_all.
    + destruct (get_user_by_id user_id (db s)); simpl; [right | by left].
      apply build_map_holds_exactly.
    + right. apply build_map_holds_exactly.
  - intros req place pairs served Hin. subst served.
    destruct req as [room_id image|room_id descriptor|image|user_id descriptor|];
      run; case_all;
      repeat (apply elem_of_cons in Hin as [Hin|Hin]; [by simplify_eq|]);
      by apply elem_of_nil in Hin.
Qed.

(** Re-enrolling the user replaces the whole cache: entry 7 is gone and
    the new row, with the next id of the sequence, is the only entry. *)
Example update_user_descriptor_replaces_cache :
  let r := AccessControlService.update_user_descriptor
             1 [(1/2)%R] SchedulerThread fixtures.enrolled_store in
  outcome_of r = Py.Return (Plain true) /\
  descriptors (store_of r) = {[ 8%Z := [(1/2)%R] ]}.
Proof.
  split; [reflexivity|]. run.
  unfold two_step.build_map. simpl.
  by rewrite insert_empty.
Qed.

Example update_unknown_user_is_refused :
  let r := AccessControlService.update_user_descriptor
             2 [(1/2)%R] SchedulerThread fixtures.enrolled_store in
  outcome_of r = Py.Return (Err "Unknown user id.") /\
  store_of r = fixtures.enrolled_store.
Proof. split; reflexivity. Qed.

(* ===================================================================== *)
(** * Where the calls run                                                *)
(* ===================================================================== *)

Section placement.
Context {DB : Type}.
Implicit Types (Q : Event -> Prop) (p : Place).

Lemma emits_ret {A} Q (a : A) p : emits (DB := DB) Q (Effects.ret a) p.
Proof. intros s e He. by apply elem_of_nil in He. Qed.

Lemma emits_lift {A} Q (o : Py.outcome A) p : emits (DB := DB) Q (Effects.lift o) p.
Proof. intros s e He. by apply elem_of_nil in He. Qed.

Lemma emits_read_descriptors Q p : emits (DB := DB) Q Effects.read_descriptors p.
Proof. intros s e He. by apply elem_of_nil in He. Qed.

Lemma emits_write_descriptors Q c p : emits (DB := DB) Q (Effects.write_descriptors c) p.
Proof. intros s e He. by apply elem_of_nil in He. Qed.

Lemma emits_read_db {A} Q (f : DB -> A) p : emits Q (Effects.read_db f) p.
Proof. intros s e He. by apply elem_of_nil in He. Qed.

Lemma emits_write_db Q (f : DB -> DB) p : emits Q (Effects.write_db f) p.
Proof. intros s e He. by apply elem_of_nil in He. Qed.

Lemma emits_log Q (c : Call) p : Q (mk_Event p c) -> emits (DB := DB) Q (Effects.log c) p.
Proof. intros HQ s e He. by apply list_elem_of_singleton in He as ->. Qed.

Lemma emits_bind {A B} Q (m : M DB A) (k : A -> M DB B) p :
  emits Q m p -> (forall a, emits Q (k a) p) -> emits Q (Effects.bind m k) p.
Proof.
  intros Hm Hk s e. unfold Effects.bind, events_of.
  specialize (Hm s). unfold events_of in Hm.
  destruct (m p s) as [[o s1] t1]. simpl in *.
  destruct o as [a|ex]; simpl; [|by apply Hm].
  specialize (Hk a s1). unfold events_of in Hk.
  destruct (k a p s1) as [[r s2] t2]. simpl in *.
  intros [?|?]%elem_of_app; auto.
Qed.

(** What runs inside [to_thread] is judged at the worker thread. *)
Lemma emits_to_thread {A} Q (m : M DB A) p :
  emits Q m WorkerThread -> emits Q (Effects.to_thread m) p.
Proof. intros Hm s e He. by apply (Hm s). Qed.

End placement.

Ltac emits_step :=
  lazymatch goal with
  | |- emits _ (Effects.bind _ _) _ => apply emits_bind; [|intros ?]
  | |- emits _ (Effects.ret _) _ => apply emits_ret
  | |- emits _ (Effects.lift _) _ => apply emits_lift
  | |- emits _ Effects.read_descriptors _ => apply emits_read_descriptors
  | |- emits _ (Effects.write_descriptors _) _ => apply emits_write_descriptors
  | |- emits _ (Effects.read_db _) _ => apply emits_read_db
  | |- emits _ (Effects.write_db _) _ => apply emits_write_db
  | |- emits _ (Effects.to_thread _) _ => apply emits_to_thread
  | |- emits _ (Effects.log _) _ =>
      apply emits_log; split; simpl; intros; done
  | |- emits _ (match ?x with _ => _ end) _ => destruct x
  end.

Ltac emits_all := unfold_service; repeat emits_step.

Section placement_of_the_service.
Context {DB : Type} {repository : AccessControlRepository DB} {backends : Backends}.

(** The engine's own calls are well placed wherever a cache read or a
    check runs, and on a worker thread for the CPU-bound ones. *)
Lemma normalize_on_worker image :
  emits (DB := DB) well_placed (FaceImageNormalizer.normalize image) WorkerThread.
Proof. emits_all. Qed.

Lemma recognize_on_worker image :
  emits (DB := DB) well_placed (FaceRecognizer.recognize image) WorkerThread.
Proof. emits_all. Qed.

Lemma calculate_descriptor_on_worker image :
  emits (DB := DB) well_placed (FaceRecognizer.calculate_descriptor image) WorkerThread.
Proof. emits_all. Qed.

Lemma check_access_by_face_placement room_id image :
  emits well_placed (AccessControlService.check_access_by_face room_id image) SchedulerThread.
Proof. emits_all. Qed.

Lemma check_access_by_descriptor_placement room_id descriptor :
  emits well_placed (AccessControlService.check_access_by_descriptor room_id descriptor)
        SchedulerThread.
Proof. emits_all. Qed.

Lemma calculate_descriptor_placement image :
  emits (DB := DB) well_placed (AccessControlService.calculate_descriptor image)
        SchedulerThread.
Proof. emits_all. Qed.

Lemma update_user_descriptor_placement user_id descriptor :
  emits well_placed (AccessControlService.update_user_descriptor user_id descriptor)
        SchedulerThread.
Proof. emits_all. Qed.

Lemma init_placement :
  emits well_placed AccessControlService.init SchedulerThread.
Proof. emits_all. Qed.

End placement_of_the_service.

(** C8.  Whatever request is served, from whatever store: every call to
    the detector, to [normalize] (with its crop-and-align step), to the
    embedder's [calculate_descriptor] and to [recognize] is logged on a
    worker thread, entered through [to_thread] and awaited; every call on
    the engine that is logged on the scheduler thread is a validity check
    or a cache read or write. *)
Theorem cpu_bound_calls_run_on_worker_threads
    {DB : Type} {repository : AccessControlRepository DB} {backends : Backends}
    (req : AccessControlService.Request) (s : Store DB) (e : Event) :
  e ∈ (AccessControlService.serve req s).2 ->
  (cpu_bound (call e) = true -> place e = WorkerThread) /\
  (place e = SchedulerThread -> engine_call (call e) = true ->
     validity_check (call e) || cache_access (call e) = true).
Proof.
  destruct req as [room_id image|room_id descriptor|image|user_id descriptor|];
    unfold AccessControlService.serve; cbv zeta; unfold snd; intros He.
  - by apply (check_access_by_face_placement room_id image s).
  - by apply (check_access_by_descriptor_placement room_id descriptor s).
  - by apply (calculate_descriptor_placement image s).
  - by apply (update_user_descriptor_placement user_id descriptor s).
  - by apply (init_placement s).
Qed.

(** The calls of one enrollment request, in order. *)
Example calculate_descriptor_trace :
  (AccessControlService.serve (backends := fixtures.sighted_backends)
     (AccessControlService.req_calculate_descriptor fixtures.rgb_2x2)
     fixtures.enrolled_store).2
  = [mk_Event SchedulerThread (CheckImageValid fixtures.rgb_2x2);
     mk_Event WorkerThread (Normalize fixtures.rgb_2x2);
     mk_Event WorkerThread (FindFaces fixtures.rgb_2x2);
     mk_Event WorkerThread (CropAlign fixtures.rgb_2x2 (mk_Rectangle 0 0 2 2));
     mk_Event WorkerThread (CalculateDescriptor fixtures.rgb_2x2)].
Proof. reflexivity. Qed.

(** The embedder's call of that request is on a worker thread. *)
Lemma cpu_bound_calls_run_on_worker_threads_witness :
  let e := mk_Event WorkerThread (CalculateDescriptor fixtures.rgb_2x2) in
  e ∈ (AccessControlService.serve (backends := fixtures.sighted_backends)
         (AccessControlService.req_calculate_descriptor fixtures.rgb_2x2)
         fixtures.enrolled_store).2 /\
  cpu_bound (call e) = true /\
  place e = WorkerThread.
Proof.
  assert (Hin : mk_Event WorkerThread (CalculateDescriptor fixtures.rgb_2x2)
            ∈ (AccessControlService.serve (backends := fixtures.sighted_backends)
                 (AccessControlService.req_calculate_descriptor fixtures.rgb_2x2)
                 fixtures.enrolled_store).2).
  { cbv [AccessControlService.serve snd]. run.
    do 4 apply list_elem_of_further. apply list_elem_of_here. }
  split; [exact Hin|]. split; [reflexivity|].
  apply (cpu_bound_calls_run_on_worker_threads
           (backends := fixtures.sighted_backends)
           (AccessControlService.req_calculate_descriptor fixtures.rgb_2x2)
           fixtures.enrolled_store _ Hin).
  reflexivity.
Defined.

(* ===================================================================== *)
(** * Interleavings: readers see complete snapshots                      *)
(* ===================================================================== *)

Section interleaving.
Import two_step Interleaving.
Context {backends : Backends}.
Implicit Types (cache : gmap Z Descriptor) (calls : list Invocation) (c : Config).
Implicit Types (h : gmap loc (gmap Z Descriptor)) (t : Thread) (l : loc).

(** Scanning a whole dictionary finds its nearest entry. *)
Lemma scan_all (m : gmap Z Descriptor) q :
  scan q (scan_order m) None = nearest m q.
Proof.
  unfold scan, scan_order, nearest. rewrite map_fold_foldr.
  generalize (map_to_list m). intros entries.
  induction entries as [|[i d] entries IH]; [done|].
  rewrite reverse_cons, fold_left_app. simpl. by rewrite IH.
Qed.

Lemma scan_snoc q visited i d :
  scan q (visited ++ [(i, d)]) None = consider q i d (scan q visited None).
Proof. unfold scan. by rewrite fold_left_app. Qed.

Lemma verdict_nearest (m : gmap Z Descriptor) q :
  verdict (nearest m q) = match_descriptor m q.
Proof. done. Qed.

(** A thread that holds a reference holds it to an allocated dictionary. *)
Lemma thread_ok_allocated cache calls h t l :
  thread_ok cache calls h t -> location t = Some l -> is_Some (h !! l).
Proof.
  destruct t; simpl; try done.
  - intros (_ & m & Hm & _) [= <-]. by exists m.
  - intros (m & Hm & _) [= <-]. by exists m.
  - intros (m & Hm & _) [= <-]. by exists m.
Qed.

(** Only the dictionary a thread refers to matters to it. *)
Lemma thread_ok_agree cache calls h h' t :
  (forall l, location t = Some l -> h' !! l = h !! l) ->
  thread_ok cache calls h t -> thread_ok cache calls h' t.
Proof.
  intros Hagree. destruct t; simpl in *; try done.
  - intros (Hcall & m & Hm & Hfold). split; [done|]. exists m.
    by rewrite Hagree.
  - intros (m & Hm & Hrest). exists m. by rewrite Hagree.
  - intros (m & Hm & Hrest). exists m. by rewrite Hagree.
Qed.

Lemma invariant_initial cache calls :
  invariant cache calls (initial cache calls).
Proof.
  split; [|split]; simpl.
  - exists cache. split; [apply lookup_singleton_eq | by left].
  - intros n t Hn. apply list_lookup_fmap_Some in Hn as (call & -> & Hcall).
    apply list_elem_of_lookup_2 in Hcall.
    by destruct call.
  - intros n pairs todo l Hn.
    apply list_lookup_fmap_Some in Hn as (call & Hstart & _).
    by destruct call.
Qed.

(** The threads after thread [n] has moved on to [t']. *)
Lemma lookup_moved (ts : list Thread) n t t' n' t1 :
  ts !! n = Some t ->
  <[n := t']> ts !! n' = Some t1 ->
  (n' = n /\ t1 = t') \/ (n' <> n /\ ts !! n' = Some t1).
Proof.
  intros Hn Hn'. apply list_lookup_insert_Some in Hn' as [(-> & -> & _)|[? ?]].
  - by left.
  - right. split; [congruence | done].
Qed.

Lemma step_preserves cache calls c c' :
  invariant cache calls c -> step c c' -> invariant cache calls c'.
Proof.
  intros (Hcache & Hok & Hprivate) Hstep.
  destruct Hstep as [c n t sh' t' Hn Ht].
  destruct c as [sh0 ts]. unfold private in *. simpl in *.
  pose proof (Hok n t Hn) as Hokn.
  destruct Ht as [sh l pairs Hfresh | sh l m pairs p todo Hl | sh l pairs
                 | sh q | sh q l m k i d best Hl Hk | sh q l m k best Hl Hk];
    simpl in *.
  - (* a writer allocates its dictionary *)
    assert (Hkeep : forall l1, is_Some (heap sh !! l1) ->
              <[l := ∅]> (heap sh) !! l1 = heap sh !! l1).
    { intros l1 [m1 Hm1]. rewrite lookup_insert_ne; [done|]. congruence. }
    split; [|split]; simpl.
    + destruct Hcache as (m & Hm & Hcomplete). exists m. split; [|done].
      rewrite Hkeep; by eauto.
    + intros n' t1 Hn'. destruct (lookup_moved _ _ _ _ _ _ Hn Hn') as [[-> ->]|[Hne Hold]].
      * simpl. split; [done|]. exists ∅. split; [apply lookup_insert_eq | done].
      * eapply thread_ok_agree; [|by apply (Hok n')].
        intros l1 Hl1. apply Hkeep. by eapply thread_ok_allocated; [apply (Hok n')|].
    + intros n1 pairs1 todo1 l1 Hn1.
      destruct (lookup_moved _ _ _ _ _ _ Hn Hn1) as [[-> [= <- <- <-]]|[Hne Hold]].
      * split; simpl.
        -- destruct Hcache as (m & Hm & _). congruence.
        -- intros n' t1 Hne Hn'.
           destruct (lookup_moved _ _ _ _ _ _ Hn Hn') as [[-> ->]|[_ Hold']]; [done|].
           intros Hloc.
           destruct (thread_ok_allocated _ _ _ _ _ (Hok n' t1 Hold') Hloc). congruence.
      * destruct (Hprivate _ _ _ _ Hold) as [Hnot Hothers]. split; simpl; [done|].
        intros n' t1 Hne' Hn'.
        destruct (lookup_moved _ _ _ _ _ _ Hn Hn') as [[-> ->]|[_ Hold']].
        -- simpl. intros [= ->].
           destruct (thread_ok_allocated _ _ _ _ l1 (Hok n1 _ Hold) eq_refl). congruence.
        -- by apply (Hothers n').
  - (* a writer inserts one pair into its dictionary *)
    destruct (Hprivate _ _ _ _ Hn) as [Hnot Hothers].
    destruct Hokn as (Hcall & m' & Hm' & Hfold). simplify_eq.
    split; [|split]; simpl.
    + destruct Hcache as (m0 & Hm0 & Hcomplete). exists m0.
      by rewrite lookup_insert_ne.
    + intros n' t1 Hn'. destruct (lookup_moved _ _ _ _ _ _ Hn Hn') as [[-> ->]|[Hne Hold]].
      * simpl. split; [done|]. eexists. split; [apply lookup_insert_eq | done].
      * eapply thread_ok_agree; [|by apply (Hok n')].
        intros l1 Hl1. rewrite lookup_insert_ne; [done|].
        intros ->. by apply (Hothers n' t1).
    + intros n1 pairs1 todo1 l1 Hn1.
      destruct (lookup_moved _ _ _ _ _ _ Hn Hn1) as [[-> [= <- <- <-]]|[Hne Hold]].
      * split; simpl; [done|]. intros n' t1 Hne Hn'.
        destruct (lookup_moved _ _ _ _ _ _ Hn Hn') as [[-> ->]|[_ Hold']]; [done|].
        by apply (Hothers n').
      * destruct (Hprivate _ _ _ _ Hold) as [Hnot1 Hothers1]. split; simpl; [done|].
        intros n' t1 Hne' Hn'.
        destruct (lookup_moved _ _ _ _ _ _ Hn Hn') as [[-> ->]|[_ Hold']].
        -- simpl. intros [= ->]. by apply (Hothers1 n _ Hne' Hn).
        -- by apply (Hothers1 n').
  - (* a writer publishes its dictionary *)
    destruct (Hprivate _ _ _ _ Hn) as [Hnot Hothers].
    destruct Hokn as (Hcall & m & Hm & Hfold). simpl in Hfold.
    split; [|split]; simpl.
    + exists m. split; [done|]. right. by exists pairs.
    + intros n' t1 Hn'. destruct (lookup_moved _ _ _ _ _ _ Hn Hn') as [[-> ->]|[Hne Hold]];
        [done | by apply (Hok n')].
    + intros n1 pairs1 todo1 l1 Hn1.
      destruct (lookup_moved _ _ _ _ _ _ Hn Hn1) as [[-> [=]]|[Hne Hold]].
      destruct (Hprivate _ _ _ _ Hold) as [Hnot1 Hothers1]. split; simpl.
      * intros ->. by apply (Hothers n1 _ Hne Hold).
      * intros n' t1 Hne' Hn'.
        destruct (lookup_moved _ _ _ _ _ _ Hn Hn') as [[-> ->]|[_ Hold']];
          [done | by apply (Hothers1 n')].
  - (* a reader takes the cache reference *)
    split; [|split]; simpl.
    + done.
    + intros n' t1 Hn'. destruct (lookup_moved _ _ _ _ _ _ Hn Hn') as [[-> ->]|[Hne Hold]];
        [|by apply (Hok n')].
      destruct Hcache as (m & Hm & Hcomplete). by exists m.
    + intros n1 pairs1 todo1 l1 Hn1.
      destruct (lookup_moved _ _ _ _ _ _ Hn Hn1) as [[-> [=]]|[Hne Hold]].
      destruct (Hprivate _ _ _ _ Hold) as [Hnot1 Hothers1]. split; simpl; [done|].
      intros n' t1 Hne' Hn'.
      destruct (lookup_moved _ _ _ _ _ _ Hn Hn') as [[-> ->]|[_ Hold']].
      * simpl. congruence.
      * by apply (Hothers1 n').
  - (* a reader reads the next entry *)
    destruct Hokn as (m' & Hm' & Hcomplete & Hbest). simplify_eq.
    split; [|split]; simpl.
    + done.
    + intros n' t1 Hn'. destruct (lookup_moved _ _ _ _ _ _ Hn Hn') as [[-> ->]|[Hne Hold]];
        [|by apply (Hok n')].
      exists m. split; [done|]. split; [done|].
      by rewrite (take_S_r _ _ _ Hk), scan_snoc.
    + intros n1 pairs1 todo1 l1 Hn1.
      destruct (lookup_moved _ _ _ _ _ _ Hn Hn1) as [[-> [=]]|[Hne Hold]].
      destruct (Hprivate _ _ _ _ Hold) as [Hnot1 Hothers1]. split; simpl; [done|].
      intros n' t1 Hne' Hn'.
      destruct (lookup_moved _ _ _ _ _ _ Hn Hn') as [[-> ->]|[_ Hold']].
      * by apply (Hothers1 n _ Hne' Hn).
      * by apply (Hothers1 n').
  - (* a reader answers *)
    destruct Hokn as (m' & Hm' & Hcomplete & Hbest). simplify_eq.
    split; [|split]; simpl.
    + done.
    + intros n' t1 Hn'. destruct (lookup_moved _ _ _ _ _ _ Hn Hn') as [[-> ->]|[Hne Hold]];
        [|by apply (Hok n')].
      exists m. split; [done|]. split; [done|].
      apply lookup_ge_None_1 in Hk. rewrite (take_ge _ _ Hk), scan_all.
      apply verdict_nearest.
    + intros n1 pairs1 todo1 l1 Hn1.
      destruct (lookup_moved _ _ _ _ _ _ Hn Hn1) as [[-> [=]]|[Hne Hold]].
      destruct (Hprivate _ _ _ _ Hold) as [Hnot1 Hothers1]. split; simpl; [done|].
      intros n' t1 Hne' Hn'.
      destruct (lookup_moved _ _ _ _ _ _ Hn Hn') as [[-> ->]|[_ Hold']].
      * by apply (Hothers1 n _ Hne' Hn).
      * by apply (Hothers1 n').
Qed.

Lemma reachable_invariant cache calls c :
  reachable cache calls c -> invariant cache calls c.
Proof.
  unfold reachable. intros Hrtc.
  assert (Hinit := invariant_initial cache calls).
  induction Hrtc as [c|c1 c2 c3 Hstep _ IH]; [done|].
  apply IH. by eapply step_preserves.
Qed.

End interleaving.

(** C6.  In every interleaving of [update_descriptors] and
    [recognize_by_descriptor] calls, where a writer fills a dictionary of
    its own and then publishes it in one assignment of the cache
    reference: the dictionary behind the cache reference is at every moment
    the map from before the run or the full map built by one of the
    update calls; the dictionary a reader scans is one of those complete
    maps, and what the reader has made of the [k] entries it visited so far
    is the scan of the first [k] entries of that one map; the answer of a
    reader is the match of its query against that one map. *)
Theorem readers_see_complete_snapshots {backends : Backends}
    (cache : gmap Z Descriptor) (calls : list Interleaving.Invocation)
    (c : Interleaving.Config) :
  Interleaving.reachable cache calls c ->
  (exists m,
     Interleaving.heap (Interleaving.shared c)
       !! Interleaving.cache_ref (Interleaving.shared c) = Some m /\
     Interleaving.complete_snapshot cache calls m) /\
  (forall q l k best,
     Interleaving.Scanning q l k best ∈ Interleaving.threads c ->
     exists m,
       Interleaving.heap (Interleaving.shared c) !! l = Some m /\
       Interleaving.complete_snapshot cache calls m /\
       best = Interleaving.scan q (take k (Interleaving.scan_order m)) None) /\
  (forall q l r,
     Interleaving.Answered q l r ∈ Interleaving.threads c ->
     exists m,
       Interleaving.heap (Interleaving.shared c) !! l = Some m /\
       Interleaving.complete_snapshot cache calls m /\
       r = two_step.match_descriptor m q).
Proof.
  intros Hreach. apply reachable_invariant in Hreach as (Hcache & Hok & _).
  split; [done|]. split.
  - intros q l k best Ht. apply list_elem_of_lookup_1 in Ht as [n Hn].
    apply (Hok n _ Hn).
  - intros q l r Ht. apply list_elem_of_lookup_1 in Ht as [n Hn].
    apply (Hok n _ Hn).
Qed.

Lemma demo_config_reachable :
  Interleaving.reachable (backends := fixtures.sighted_backends)
    ∅ Interleaving.demo_calls Interleaving.demo_config.
Proof.
  unfold Interleaving.reachable.
  eapply rtc_l.
  { eapply Interleaving.step_thread with (n := 0%nat); [reflexivity|].
    apply (Interleaving.step_allocate _ 1%nat). reflexivity. }
  eapply rtc_l.
  { eapply Interleaving.step_thread with (n := 0%nat); [reflexivity|].
    apply (Interleaving.step_insert _ 1%nat ∅). apply lookup_insert_eq. }
  eapply rtc_l.
  { eapply Interleaving.step_thread with (n := 0%nat); [reflexivity|].
    apply Interleaving.step_swap. }
  eapply rtc_l.
  { eapply Interleaving.step_thread with (n := 1%nat); [reflexivity|].
    apply Interleaving.step_enter. }
  apply rtc_refl.
Defined.

(** A reader that entered after the swap scans the new map, whole. *)
Lemma readers_see_complete_snapshots_witness :
  Interleaving.reachable (backends := fixtures.sighted_backends)
    ∅ Interleaving.demo_calls Interleaving.demo_config /\
  exists m,
    Interleaving.heap (Interleaving.shared Interleaving.demo_config) !! 1%nat = Some m /\
    Interleaving.complete_snapshot ∅ Interleaving.demo_calls m.
Proof.
  split; [apply demo_config_reachable|].
  apply (readers_see_complete_snapshots (backends := fixtures.sighted_backends)
           ∅ Interleaving.demo_calls Interleaving.demo_config).
  apply demo_config_reachable.
Defined.

(* ********************************************************************* *)
(** * Part III: further properties of the services                       *)
(* ********************************************************************* *)

(* ===================================================================== *)
(** * The access checks beyond their error cases                         *)
(* ===================================================================== *)

(** X1.  When [check_descriptor_valid] answers [False],
    [check_access_by_descriptor] returns the error 'Provided descriptor is
    invalid.'; the check is the only call it makes (the cache is not read,
    no repository coroutine is awaited) and the store is untouched. *)
Theorem check_access_by_descriptor_invalid_descriptor
    {DB : Type} {repository : AccessControlRepository DB} {backends : Backends}
    (room_id : Z) (descriptor : Descriptor) (s : Store DB) :
  outcome_of (FaceRecognizer.check_descriptor_valid descriptor SchedulerThread s)
    = Py.Return false ->
  let r := AccessControlService.check_access_by_descriptor room_id descriptor
             SchedulerThread s in
  outcome_of r = Py.Return (Err "Provided descriptor is invalid.") /\
  store_of r = s /\
  events_of r = [mk_Event SchedulerThread (CheckDescriptorValid descriptor)].
Proof.
  intros Hcheck. run. injection Hcheck as Hcheck. by rewrite Hcheck.
Qed.

(** A descriptor of two components, where the engine works with one. *)
Lemma check_access_by_descriptor_invalid_descriptor_witness :
  outcome_of (FaceRecognizer.check_descriptor_valid (backends := fixtures.sighted_backends)
                [0%R; 0%R] SchedulerThread fixtures.enrolled_store)
    = Py.Return false /\
  outcome_of (AccessControlService.check_access_by_descriptor
                (backends := fixtures.sighted_backends)
                10 [0%R; 0%R] SchedulerThread fixtures.enrolled_store)
    = Py.Return (Err "Provided descriptor is invalid.").
Proof.
  split; [reflexivity|].
  apply (check_access_by_descriptor_invalid_descriptor
           (backends := fixtures.sighted_backends)
           10 [0%R; 0%R] fixtures.enrolled_store).
  reflexivity.
Defined.

(** A query at distance 1 from the only entry of the cache is unknown. *)
Lemma match_cache_7_far :
  two_step.match_descriptor (backends := fixtures.sighted_backends)
    fixtures.cache_7 [1%R] = Unknown.
Proof.
  unfold two_step.match_descriptor, two_step.nearest, fixtures.cache_7.
  rewrite map_fold_singleton. unfold two_step.consider.
  rewrite euclidean_1. rewrite Rabs_right by lra. simpl.
  destruct (Rlt_dec (1 - 0) (6 / 10)) as [H|]; [lra|done].
Qed.

(** X2.  When recognition does not know the face, both access checks
    return Ok(AccessCheck(is_known=False)) with no [have_access] and no
    [user], and they await no repository coroutine at all. *)
Theorem unknown_face_needs_no_repository
    {DB : Type} {repository : AccessControlRepository DB} {backends : Backends}
    (room_id : Z) (s : Store DB) :
  (forall image result,
     outcome_of (FaceRecognizer.check_image_normalized image SchedulerThread s)
       = Py.Return true ->
     outcome_of (FaceRecognizer.recognize image WorkerThread s) = Py.Return result ->
     is_known_face result = false ->
     let r := AccessControlService.check_access_by_face room_id image SchedulerThread s in
     outcome_of r = Py.Return (Ok (mk_AccessCheck false None None)) /\
     store_of r = s /\
     (forall e, e ∈ events_of r -> repository_call (call e) = false)) /\
  (forall descriptor result,
     outcome_of (FaceRecognizer.check_descriptor_valid descriptor SchedulerThread s)
       = Py.Return true ->
     outcome_of (FaceRecognizer.recognize_by_descriptor descriptor SchedulerThread s)
       = Py.Return result ->
     is_known_face result = false ->
     let r := AccessControlService.check_access_by_descriptor room_id descriptor
                SchedulerThread s in
     outcome_of r = Py.Return (Ok (mk_AccessCheck false None None)) /\
     store_of r = s /\
     (forall e, e ∈ events_of r -> repository_call (call e) = false)).
Proof.
  split.
  - intros image result Hcheck Hrec Hunknown. run.
    injection Hcheck as Hcheck. rewrite Hcheck. simpl.
    destruct (recognizer_calculate_descriptor image) as [d|ex]; simpl in *; [|done].
    injection Hrec as Hrec. rewrite Hrec, Hunknown. simpl.
    split; [done|]. split; [done|]. intros e He. by each_event He.
  - intros descriptor result Hcheck Hrec Hunknown. run.
    injection Hcheck as Hcheck. rewrite Hcheck. simpl.
    injection Hrec as Hrec. rewrite Hrec, Hunknown. simpl.
    split; [done|]. split; [done|]. intros e He. by each_event He.
Qed.

Lemma unknown_face_needs_no_repository_witness :
  outcome_of (AccessControlService.check_access_by_descriptor
                (backends := fixtures.sighted_backends)
                10 [1%R] SchedulerThread fixtures.enrolled_store)
    = Py.Return (Ok (mk_AccessCheck false None None)).
Proof.
  apply (proj2 (unknown_face_needs_no_repository
                  (backends := fixtures.sighted_backends) 10 fixtures.enrolled_store)
           [1%R] Unknown).
  - reflexivity.
  - run. by rewrite match_cache_7_far.
  - reflexivity.
Defined.

(** X3.  The two access checks and [calculate_descriptor] are read-only:
    whatever the input and whatever the back ends do (return or fail),
    they leave the database and the descriptor cache exactly as they found
    them. *)
Theorem checks_and_calculation_are_read_only
    {DB : Type} {repository : AccessControlRepository DB} {backends : Backends}
    (s : Store DB) :
  (forall room_id image,
     store_of (AccessControlService.check_access_by_face room_id image SchedulerThread s) = s) /\
  (forall room_id descriptor,
     store_of (AccessControlService.check_access_by_descriptor room_id descriptor
                 SchedulerThread s) = s) /\
  (forall image,
     store_of (AccessControlService.calculate_descriptor image SchedulerThread s) = s).
Proof.
  split; [|split]; intros; run; by case_all.
Qed.

(** X4.  When the face is known and its descriptor id is bound to a user,
    both access checks return that user together with [have_access], and
    [have_access] is exactly what the repository answers for the pair
    (that user's id, the room of the request). *)
Theorem known_and_bound_face_gets_the_permission_of_its_user
    {DB : Type} {repository : AccessControlRepository DB} {backends : Backends}
    (room_id : Z) (s : Store DB) :
  (forall image result i u,
     outcome_of (FaceRecognizer.check_image_normalized image SchedulerThread s)
       = Py.Return true ->
     outcome_of (FaceRecognizer.recognize image WorkerThread s) = Py.Return result ->
     is_known_face result = true ->
     descriptor_id result = Some i ->
     get_user_by_descriptor_id i (db s) = Some u ->
     outcome_of (AccessControlService.check_access_by_face room_id image SchedulerThread s)
       = Py.Return (Ok (mk_AccessCheck true
           (Some (check_access_permission_exist (User.id u) room_id (db s)))
           (Some u)))) /\
  (forall descriptor result i u,
     outcome_of (FaceRecognizer.check_descriptor_valid descriptor SchedulerThread s)
       = Py.Return true ->
     outcome_of (FaceRecognizer.recognize_by_descriptor descriptor SchedulerThread s)
       = Py.Return result ->
     is_known_face result = true ->
     descriptor_id result = Some i ->
     get_user_by_descriptor_id i (db s) = Some u ->
     outcome_of (AccessControlService.check_access_by_descriptor room_id descriptor
                   SchedulerThread s)
       = Py.Return (Ok (mk_AccessCheck true
           (Some (check_access_permission_exist (User.id u) room_id (db s)))
           (Some u)))).
Proof.
  split.
  - intros image result i u Hcheck Hrec Hknown Hid Hu. run.
    injection Hcheck as Hcheck. rewrite Hcheck. simpl.
    destruct (recognizer_calculate_descriptor image) as [d|ex]; simpl in *; [|done].
    injection Hrec as Hrec. rewrite Hrec, Hknown. simpl.
    by rewrite Hid, Hu.
  - intros descriptor result i u Hcheck Hrec Hknown Hid Hu. run.
    injection Hcheck as Hcheck. rewrite Hcheck. simpl.
    injection Hrec as Hrec. rewrite Hrec, Hknown. simpl.
    by rewrite Hid, Hu.
Qed.

(** The enrolled user at the door of room 10, where he has access, and of
    room 11, where he has none. *)
Lemma known_and_bound_face_gets_the_permission_of_its_user_witness :
  outcome_of (AccessControlService.check_access_by_face (backends := fixtures.sighted_backends)
                10 fixtures.rgb_2x2 SchedulerThread fixtures.enrolled_store)
    = Py.Return (Ok (mk_AccessCheck true (Some true) (Some fixtures.ivan))) /\
  outcome_of (AccessControlService.check_access_by_descriptor
                (backends := fixtures.sighted_backends)
                11 [0%R] SchedulerThread fixtures.enrolled_store)
    = Py.Return (Ok (mk_AccessCheck true (Some false) (Some fixtures.ivan))).
Proof.
  assert (Hface : outcome_of (FaceRecognizer.recognize (backends := fixtures.sighted_backends)
                                fixtures.rgb_2x2 WorkerThread fixtures.enrolled_store)
                  = Py.Return (Known 7 0)).
  { run. by rewrite match_cache_7. }
  assert (Hdescriptor :
            outcome_of (FaceRecognizer.recognize_by_descriptor
                          (backends := fixtures.sighted_backends)
                          [0%R] SchedulerThread fixtures.enrolled_store)
            = Py.Return (Known 7 0)).
  { run. by rewrite match_cache_7. }
  split.
  - exact (proj1 (known_and_bound_face_gets_the_permission_of_its_user
                    (backends := fixtures.sighted_backends) 10 fixtures.enrolled_store)
             fixtures.rgb_2x2 (Known 7 0) 7%Z fixtures.ivan
             eq_refl Hface eq_refl eq_refl eq_refl).
  - exact (proj2 (known_and_bound_face_gets_the_permission_of_its_user
                    (backends := fixtures.sighted_backends) 11 fixtures.enrolled_store)
             [0%R] (Known 7 0) 7%Z fixtures.ivan
             eq_refl Hdescriptor eq_refl eq_refl eq_refl).
Defined.

(** X5.  A failure of a back end is not caught and not retried by the
    service: when the embedder fails on the image of
    [check_access_by_face], or the detector or the embedder fails inside
    [calculate_descriptor], the same exception leaves the service method,
    the failed call appears once in the log, nothing is awaited from the
    repository afterwards, and the store is untouched. *)
Theorem backend_failures_leave_the_service
    {DB : Type} {repository : AccessControlRepository DB} {backends : Backends}
    (s : Store DB) (ex : Py.exn) :
  (forall room_id image,
     outcome_of (FaceRecognizer.check_image_normalized image SchedulerThread s)
       = Py.Return true ->
     recognizer_calculate_descriptor image = Py.Raise ex ->
     let r := AccessControlService.check_access_by_face room_id image SchedulerThread s in
     outcome_of r = Py.Raise ex /\ store_of r = s /\
     events_of r = [mk_Event SchedulerThread (CheckImageNormalized image);
                    mk_Event WorkerThread (Recognize image);
                    mk_Event WorkerThread (CalculateDescriptor image)]) /\
  (forall image,
     outcome_of (FaceImageNormalizer.check_image_valid image SchedulerThread s)
       = Py.Return true ->
     detector_find_faces image = Py.Raise ex ->
     let r := AccessControlService.calculate_descriptor image SchedulerThread s in
     outcome_of r = Py.Raise ex /\ store_of r = s /\
     events_of r = [mk_Event SchedulerThread (CheckImageValid image);
                    mk_Event WorkerThread (Normalize image);
                    mk_Event WorkerThread (FindFaces image)]) /\
  (forall image normalized_image,
     outcome_of (FaceImageNormalizer.check_image_valid image SchedulerThread s)
       = Py.Return true ->
     outcome_of (FaceImageNormalizer.normalize image WorkerThread s)
       = Py.Return (Some normalized_image) ->
     recognizer_calculate_descriptor normalized_image = Py.Raise ex ->
     let r := AccessControlService.calculate_descriptor image SchedulerThread s in
     outcome_of r = Py.Raise ex /\ store_of r = s /\
     exists before,
       events_of r = before ++ [mk_Event WorkerThread (CalculateDescriptor normalized_image)] /\
       forall e, e ∈ before -> forall im, call e <> CalculateDescriptor im).
Proof.
  split; [|split].
  - intros room_id image Hcheck Hfail. run.
    injection Hcheck as Hcheck. by rewrite Hcheck, Hfail.
  - intros image Hvalid Hfail. run.
    injection Hvalid as Hvalid. by rewrite Hvalid, Hfail.
  - intros image normalized_image Hvalid Hnorm Hfail. run.
    injection Hvalid as Hvalid. rewrite Hvalid. simpl.
    destruct (detector_find_faces image) as [faces|]; simpl in *; [|done].
    destruct (two_step.select_face faces) as [face|]; simpl in *; [|done].
    destruct (normalizer_normalize image face) as [n|]; simpl in *; [|done].
    injection Hnorm as ->. rewrite Hfail. simpl.
    split; [done|]. split; [done|].
    eexists [_; _; _; _]. split; [reflexivity|].
    intros e He im. each_event He; simpl; congruence.
Qed.

Lemma backend_failures_leave_the_service_witness :
  outcome_of (AccessControlService.check_access_by_face
                (backends := fixtures_rest.faulty_embedder)
                10 fixtures.rgb_2x2 SchedulerThread fixtures.enrolled_store)
    = Py.Raise Py.BackendFailure /\
  outcome_of (AccessControlService.calculate_descriptor
                (backends := fixtures_rest.faulty_detector)
                fixtures.rgb_2x2 SchedulerThread fixtures.enrolled_store)
    = Py.Raise Py.BackendFailure.
Proof.
  split.
  - apply (proj1 (backend_failures_leave_the_service
                    (backends := fixtures_rest.faulty_embedder)
                    fixtures.enrolled_store Py.BackendFailure) 10%Z fixtures.rgb_2x2);
      reflexivity.
  - apply (proj1 (proj2 (backend_failures_leave_the_service
                    (backends := fixtures_rest.faulty_detector)
                    fixtures.enrolled_store Py.BackendFailure)) fixtures.rgb_2x2);
      reflexivity.
Defined.

(** X6.  On a valid image that [normalize] turns into a crop, the
    service's [calculate_descriptor] returns, as [features], the
    descriptor the embedder computes from that crop (not from the raw
    image), and the embedder is called exactly once, on a worker thread. *)
Theorem calculate_descriptor_embeds_the_normalized_crop
    {DB : Type} {repository : AccessControlRepository DB} {backends : Backends}
    (image normalized_image : NumpyImage) (descriptor : Descriptor) (s : Store DB) :
  outcome_of (FaceImageNormalizer.check_image_valid image SchedulerThread s)
    = Py.Return true ->
  outcome_of (FaceImageNormalizer.normalize image WorkerThread s)
    = Py.Return (Some normalized_image) ->
  recognizer_calculate_descriptor normalized_image = Py.Return descriptor ->
  let r := AccessControlService.calculate_descriptor image SchedulerThread s in
  outcome_of r = Py.Return (Ok (mk_AnonymousDescriptor descriptor)) /\
  exists before,
    events_of r = before ++ [mk_Event WorkerThread (CalculateDescriptor normalized_image)] /\
    forall e, e ∈ before -> forall im, call e <> CalculateDescriptor im.
Proof.
  intros Hvalid Hnorm Hembed. run.
  injection Hvalid as Hvalid. rewrite Hvalid. simpl.
  destruct (detector_find_faces image) as [faces|]; simpl in *; [|done].
  destruct (two_step.select_face faces) as [face|]; simpl in *; [|done].
  destruct (normalizer_normalize image face) as [n|]; simpl in *; [|done].
  injection Hnorm as ->. rewrite Hembed. simpl.
  split; [done|].
  eexists [_; _; _; _]. split; [reflexivity|].
  intros e He im. each_event He; simpl; congruence.
Qed.

Lemma calculate_descriptor_embeds_the_normalized_crop_witness :
  outcome_of (AccessControlService.calculate_descriptor (backends := fixtures.sighted_backends)
                fixtures.rgb_2x2 SchedulerThread fixtures.enrolled_store)
    = Py.Return (Ok (mk_AnonymousDescriptor [0%R])).
Proof.
  apply (calculate_descriptor_embeds_the_normalized_crop
           (backends := fixtures.sighted_backends)
           fixtures.rgb_2x2 fixtures.rgb_2x2 [0%R] fixtures.enrolled_store);
    reflexivity.
Defined.

(* ===================================================================== *)
(** * Enrollment against the SQL repository                              *)
(* ===================================================================== *)

Section enrollment.
Import two_step.
Implicit Types (pairs : list (Z * Descriptor)) (rows : list UserFaceDescriptor.t).

Lemma sum_squares_self (d : Descriptor) : sum_squares d d = 0%R.
Proof.
  unfold sum_squares. induction d as [|x d IH]; [done|].
  simpl. rewrite IH. lra.
Qed.

Lemma euclidean_self (d : Descriptor) : euclidean d d = 0%R.
Proof. unfold euclidean. rewrite sum_squares_self. apply sqrt_0. Qed.

Lemma euclidean_nonneg (a b : Descriptor) : (0 <= euclidean a b)%R.
Proof. apply sqrt_pos. Qed.

(** [fetchrow] over a table that grew at its end. *)
Lemma fetchrow_app {A} (where_ : A -> bool) (l1 l2 : list A) :
  sql.fetchrow where_ (l1 ++ l2)
  = match sql.fetchrow where_ l1 with
    | Some x => Some x
    | None => sql.fetchrow where_ l2
    end.
Proof.
  unfold sql.fetchrow. induction l1 as [|x l1 IH]; [done|].
  simpl. by destruct (where_ x).
Qed.

Lemma fetchrow_None {A} (where_ : A -> bool) (l : list A) :
  (forall x, x ∈ l -> where_ x = false) -> sql.fetchrow where_ l = None.
Proof.
  unfold sql.fetchrow. induction l as [|x l IH]; [done|].
  intros H. simpl. rewrite (H x) by apply list_elem_of_here.
  apply IH. intros y Hy. apply H. by apply list_elem_of_further.
Qed.

Lemma fetchrow_Some {A} (where_ : A -> bool) (l : list A) x :
  sql.fetchrow where_ l = Some x -> x ∈ l /\ where_ x = true.
Proof.
  unfold sql.fetchrow. induction l as [|y l IH]; [done|].
  simpl. destruct (where_ y) eqn:E.
  - intros [= ->]. split; [apply list_elem_of_here | done].
  - intros H. destruct (IH H). split; [by apply list_elem_of_further | done].
Qed.

Lemma fetchrow_is_Some {A} (where_ : A -> bool) (l : list A) x :
  x ∈ l -> where_ x = true -> is_Some (sql.fetchrow where_ l).
Proof.
  unfold sql.fetchrow. induction l as [|y l IH]; [by intros ?%elem_of_nil|].
  intros Hx Hw. simpl. destruct (where_ y) eqn:E; [by eexists|].
  apply elem_of_cons in Hx as [->|Hx]; [congruence | by apply IH].
Qed.

End enrollment.

(** X7.  [update_descriptor_by_user_id] leaves the user with exactly one
    descriptor row, which carries the new features and the next id of the
    sequence; the rows of all other users stay as they were, in their
    order; users and permissions are not touched, and the sequence
    advances by one. *)
Theorem update_descriptor_by_user_id_keeps_one_row_per_user
    (user_id : Z) (descriptor : list R) (d : sql.Database) :
  let d' := sql.update_descriptor_by_user_id user_id descriptor d in
  filter (fun r => UserFaceDescriptor.user_id r = user_id) (sql.tbl_UserFaceDescriptor d')
    = [UserFaceDescriptor.mk (sql.seq_UserFaceDescriptor_id d) descriptor user_id] /\
  filter (fun r => UserFaceDescriptor.user_id r <> user_id) (sql.tbl_UserFaceDescriptor d')
    = filter (fun r => UserFaceDescriptor.user_id r <> user_id) (sql.tbl_UserFaceDescriptor d) /\
  sql.tbl_User d' = sql.tbl_User d /\
  sql.tbl_UserRoomAccessPermission d' = sql.tbl_UserRoomAccessPermission d /\
  sql.seq_UserFaceDescriptor_id d' = (sql.seq_UserFaceDescriptor_id d + 1)%Z.
Proof.
  simpl. split; [|split; [|done]].
  - rewrite filter_app.
    assert (filter (fun r => UserFaceDescriptor.user_id r = user_id)
              (filter (fun r => UserFaceDescriptor.user_id r <> user_id)
                 (sql.tbl_UserFaceDescriptor d)) = []) as ->.
    { induction (sql.tbl_UserFaceDescriptor d) as [|r rows IH]; [done|].
      rewrite (filter_cons (fun r => UserFaceDescriptor.user_id r <> user_id)).
      destruct (decide (UserFaceDescriptor.user_id r <> user_id)) as [Hne|]; [|done].
      rewrite filter_cons. by rewrite decide_False. }
    rewrite filter_cons. simpl. by rewrite decide_True.
  - rewrite filter_app, list_filter_filter.
    rewrite filter_cons. simpl. rewrite decide_False by (intros H; by apply H).
    rewrite filter_nil, app_nil_r.
    apply list_filter_iff. intros r. tauto.
Qed.

Section enrolled_then_recognized.
Import two_step.
Context {backends : Backends}.

(** The cache right after [update_user_descriptor] of an existing user. *)
Lemma update_user_descriptor_store (user_id : Z) (d : Descriptor) (u : User.t)
    (s : Store sql.Database) :
  sql.get_user_by_id user_id (db s) = Some u ->
  let enrolled := store_of (AccessControlService.update_user_descriptor user_id d
                              SchedulerThread s) in
  db enrolled = sql.update_descriptor_by_user_id user_id d (db s) /\
  descriptors enrolled
  = <[sql.seq_UserFaceDescriptor_id (db s) := d]>
      (build_map (AccessControlService.numpy_descriptors
         (filter (fun r => UserFaceDescriptor.user_id r <> user_id)
                 (sql.tbl_UserFaceDescriptor (db s))))).
Proof.
  intros Hu. run. rewrite Hu. simpl. split; [done|].
  unfold AccessControlService.numpy_descriptors.
  rewrite List.map_app. cbn [map]. by rewrite build_map_snoc.
Qed.

(** The freshly enrolled descriptor is the nearest entry to itself. *)
Lemma enrolled_is_nearest (i : Z) (d : Descriptor) (cache : gmap Z Descriptor) :
  (forall j d', cache !! j = Some d' -> j <> i /\ euclidean d d' <> 0%R) ->
  nearest (<[i := d]> cache) d = Some (i, 0%R).
Proof.
  intros Hothers. apply nearest_Some. split; simpl.
  - exists d. by rewrite lookup_insert_eq, euclidean_self.
  - intros j d' Hj. destruct (decide (i = j)) as [<-|Hne].
    + rewrite lookup_insert_eq in Hj. injection Hj as <-.
      right. by rewrite euclidean_self.
    + rewrite lookup_insert_ne in Hj by done.
      destruct (Hothers j d' Hj) as [_ Hpos].
      left. pose proof (euclidean_nonneg d d'). lra.
Qed.

End enrolled_then_recognized.

(** X8.  Enrollment round trip on the SQL repository.  Let an existing
    user be given a descriptor [d] of the engine's dimension by
    [update_user_descriptor], in a database whose descriptor ids are all
    different from the next id of the sequence and in which no descriptor
    of another user lies at distance 0 from [d], and let the threshold be
    positive.  Then [check_access_by_descriptor] with [d] recognizes that
    very user, in any room, and reports his permission for that room. *)
Theorem enrolled_descriptor_is_recognized {backends : Backends}
    (user_id room_id : Z) (d : Descriptor) (u : User.t) (s : Store sql.Database) :
  sql.get_user_by_id user_id (db s) = Some u ->
  length d = descriptor_dim ->
  (0 < threshold)%R ->
  (forall row, row ∈ sql.tbl_UserFaceDescriptor (db s) ->
     UserFaceDescriptor.id row <> sql.seq_UserFaceDescriptor_id (db s)) ->
  (forall row, row ∈ sql.tbl_UserFaceDescriptor (db s) ->
     UserFaceDescriptor.user_id row <> user_id ->
     two_step.euclidean d (UserFaceDescriptor.features row) <> 0%R) ->
  let enrolled := store_of (AccessControlService.update_user_descriptor user_id d
                              SchedulerThread s) in
  outcome_of (AccessControlService.check_access_by_descriptor room_id d
                SchedulerThread enrolled)
  = Py.Return (Ok (mk_AccessCheck true
      (Some (sql.check_access_permission_exist user_id room_id (db s)))
      (Some u))).
Proof.
  intros Hu Hlen Hthr Hfresh Hapart enrolled.
  destruct (update_user_descriptor_store user_id d u s Hu) as [Hdb Hcache].
  fold enrolled in Hdb, Hcache.
  set (seq := sql.seq_UserFaceDescriptor_id (db s)) in *.
  set (kept := filter (fun r => UserFaceDescriptor.user_id r <> user_id)
                 (sql.tbl_UserFaceDescriptor (db s))) in *.
  assert (Hkept : forall row, row ∈ kept ->
            row ∈ sql.tbl_UserFaceDescriptor (db s) /\
            UserFaceDescriptor.user_id row <> user_id).
  { intros row Hrow. apply list_elem_of_filter in Hrow. tauto. }
  assert (Hnear : two_step.nearest (descriptors enrolled) d = Some (seq, 0%R)).
  { rewrite Hcache. apply enrolled_is_nearest. intros j d' Hj.
    apply build_map_lookup, list_elem_of_In, in_map_iff in Hj
      as (row & [= <- <-] & Hrow).
    apply list_elem_of_In in Hrow.
    destruct (Hkept row Hrow) as [Hin Hother]. split; [by apply Hfresh | by apply Hapart]. }
  assert (Hmatch : two_step.match_descriptor (descriptors enrolled) d = Known seq 0).
  { unfold two_step.match_descriptor. rewrite Hnear.
    by destruct (Rlt_dec 0 threshold). }
  assert (Hrow : sql.get_user_by_descriptor_id seq (db enrolled) = Some u).
  { rewrite Hdb. unfold sql.get_user_by_descriptor_id. simpl.
    fold kept. rewrite fetchrow_app, fetchrow_None.
    - simpl. fold seq. rewrite Z.eqb_refl. exact Hu.
    - intros row Hrow. destruct (Hkept row Hrow) as [Hin _].
      apply Z.eqb_neq. by apply Hfresh. }
  assert (Hid : User.id u = user_id).
  { apply fetchrow_Some in Hu as [_ Hu]. by apply Z.eqb_eq. }
  run. rewrite bool_decide_eq_true_2 by done. simpl.
  fold enrolled. rewrite Hmatch. simpl. rewrite Hrow. simpl.
  rewrite Hid, Hdb. done.
Qed.

(** The enrolled user is given a new descriptor and then recognized by it
    at room 10. *)
Lemma enrolled_descriptor_is_recognized_witness :
  outcome_of (AccessControlService.check_access_by_descriptor
                (backends := fixtures.sighted_backends)
                10 [(1/2)%R] SchedulerThread
                (store_of (AccessControlService.update_user_descriptor 1 [(1/2)%R]
                             SchedulerThread fixtures.enrolled_store)))
  = Py.Return (Ok (mk_AccessCheck true (Some true) (Some fixtures.ivan))).
Proof.
  refine (enrolled_descriptor_is_recognized (backends := fixtures.sighted_backends)
            1 10 [(1/2)%R] fixtures.ivan fixtures.enrolled_store
            eq_refl eq_refl _ _ _).
  - simpl. lra.
  - intros row Hrow. apply list_elem_of_singleton in Hrow as ->. simpl. lia.
  - intros row Hrow. apply list_elem_of_singleton in Hrow as ->. simpl. lia.
Defined.

(** The store right after [init]. *)
Lemma init_store {DB : Type} {repository : AccessControlRepository DB} (s : Store DB) :
  let loaded := store_of (AccessControlService.init SchedulerThread s) in
  db loaded = db s /\
  descriptors loaded
  = two_step.build_map
      (AccessControlService.numpy_descriptors (get_all_face_descriptors (db s))).
Proof. by run. Qed.

(** X9.  No unbound descriptor after a reload.  When every descriptor row
    of the SQL database refers to an existing user, then right after
    [init] the access checks never answer "known but not bound to user":
    the only error result [check_access_by_face] can return is the one for
    a non-normalized image, and the only one [check_access_by_descriptor]
    can return is the one for an invalid descriptor. *)
Theorem reloaded_cache_has_no_unbound_descriptor {backends : Backends}
    (s : Store sql.Database) :
  (forall row, row ∈ sql.tbl_UserFaceDescriptor (db s) ->
     exists u, u ∈ sql.tbl_User (db s) /\ User.id u = UserFaceDescriptor.user_id row) ->
  let loaded := store_of (AccessControlService.init SchedulerThread s) in
  (forall room_id image cause,
     outcome_of (AccessControlService.check_access_by_face room_id image
                   SchedulerThread loaded) = Py.Return (Err cause) ->
     cause = "Provided image is not normalized.") /\
  (forall room_id descriptor cause,
     outcome_of (AccessControlService.check_access_by_descriptor room_id descriptor
                   SchedulerThread loaded) = Py.Return (Err cause) ->
     cause = "Provided descriptor is invalid.").
Proof.
  intros Hfk loaded.
  assert (Hbound : forall q i,
            is_known_face (two_step.match_descriptor (descriptors loaded) q) = true ->
            descriptor_id (two_step.match_descriptor (descriptors loaded) q) = Some i ->
            is_Some (sql.get_user_by_descriptor_id i (db loaded))).
  { intros q i Hknown Hid.
    destruct (match_descriptor_distance _ _ Hknown) as (j & x & Hres & Hx).
    rewrite Hres in Hid. injection Hid as ->.
    destruct (init_store s) as [Hdb Hcache]. fold loaded in Hdb, Hcache.
    rewrite Hcache in Hx.
    apply build_map_lookup, list_elem_of_In, in_map_iff in Hx
      as (row & [= <- <-] & Hrow).
    apply list_elem_of_In in Hrow.
    unfold sql.get_user_by_descriptor_id. rewrite Hdb.
    destruct (fetchrow_is_Some
                (fun r => (UserFaceDescriptor.id r =? UserFaceDescriptor.id row)%Z)
                (sql.tbl_UserFaceDescriptor (db s)) row Hrow (Z.eqb_refl _))
      as [row' Hrow'].
    rewrite Hrow'.
    apply fetchrow_Some in Hrow' as [Hin' _].
    destruct (Hfk row' Hin') as (u & Hu & Huid).
    apply (fetchrow_is_Some _ _ u Hu). by apply Z.eqb_eq. }
  split.
  - intros room_id image cause. run.
    destruct (two_step.image_checks image && FaceRecognizer.canonical_size image);
      simpl; [|by intros [= <-]].
    destruct (recognizer_calculate_descriptor image) as [q|ex]; simpl; [|done].
    destruct (is_known_face (two_step.match_descriptor _ q)) eqn:Hk; simpl; [|done].
    destruct (descriptor_id (two_step.match_descriptor _ q)) as [i|] eqn:Hi; simpl.
    + destruct (Hbound q i Hk Hi) as [u Hu]. run. by rewrite Hu.
    + destruct (match_descriptor_distance _ _ Hk) as (j & x & Hres & _).
      rewrite Hres in Hi. done.
  - intros room_id q cause. run.
    destruct (bool_decide (length q = descriptor_dim)); simpl; [|by intros [= <-]].
    destruct (is_known_face (two_step.match_descriptor _ q)) eqn:Hk; simpl; [|done].
    destruct (descriptor_id (two_step.match_descriptor _ q)) as [i|] eqn:Hi; simpl.
    + destruct (Hbound q i Hk Hi) as [u Hu]. run. by rewrite Hu.
    + destruct (match_descriptor_distance _ _ Hk) as (j & x & Hres & _).
      rewrite Hres in Hi. done.
Qed.

Lemma reloaded_cache_has_no_unbound_descriptor_witness :
  (forall row, row ∈ sql.tbl_UserFaceDescriptor fixtures.enrolled_db ->
     exists u, u ∈ sql.tbl_User fixtures.enrolled_db /\
               User.id u = UserFaceDescriptor.user_id row) /\
  "Provided descriptor is invalid." = "Provided descriptor is invalid.".
Proof.
  assert (Hfk : forall row, row ∈ sql.tbl_UserFaceDescriptor fixtures.enrolled_db ->
            exists u, u ∈ sql.tbl_User fixtures.enrolled_db /\
                      User.id u = UserFaceDescriptor.user_id row).
  { intros row Hrow. apply list_elem_of_singleton in Hrow as ->.
    exists fixtures.ivan. split; [apply list_elem_of_here | reflexivity]. }
  split; [exact Hfk|].
  apply (proj2 (reloaded_cache_has_no_unbound_descriptor
                  (backends := fixtures.sighted_backends) fixtures.enrolled_store Hfk)
           10%Z [0%R; 0%R]).
  reflexivity.
Defined.

(** X24.  Re-enrollment unbinds the old descriptor ids.  After
    [update_descriptor_by_user_id], an id that was carried only by
    descriptor rows of that user, and that is not the id drawn for the new
    row, is bound to no user any more, while the new id is bound to the
    first user row with that user id. *)
Theorem update_descriptor_by_user_id_unbinds_old_ids
    (user_id old_id : Z) (descriptor : list R) (d : sql.Database) :
  (forall row, row ∈ sql.tbl_UserFaceDescriptor d ->
     UserFaceDescriptor.id row = old_id -> UserFaceDescriptor.user_id row = user_id) ->
  old_id <> sql.seq_UserFaceDescriptor_id d ->
  (forall row, row ∈ sql.tbl_UserFaceDescriptor d ->
     UserFaceDescriptor.id row <> sql.seq_UserFaceDescriptor_id d) ->
  let d' := sql.update_descriptor_by_user_id user_id descriptor d in
  sql.get_user_by_descriptor_id old_id d' = None /\
  sql.get_user_by_descriptor_id (sql.seq_UserFaceDescriptor_id d) d'
    = sql.get_user_by_id user_id d.
Proof.
  intros Hown Hnew Hfresh. unfold sql.get_user_by_descriptor_id. simpl.
  rewrite !fetchrow_app. split.
  - rewrite fetchrow_None.
    + simpl. by rewrite (proj2 (Z.eqb_neq _ _)) by done.
    + intros row Hrow. apply list_elem_of_filter in Hrow as [Hother Hin].
      apply Z.eqb_neq. intros Hid. by apply Hother, Hown.
  - rewrite fetchrow_None.
    + simpl. by rewrite Z.eqb_refl.
    + intros row Hrow. apply list_elem_of_filter in Hrow as [_ Hin].
      apply Z.eqb_neq. by apply Hfresh.
Qed.

(** Descriptor 7 of the enrolled user is unbound once he is given a new
    one, which gets id 8. *)
Lemma update_descriptor_by_user_id_unbinds_old_ids_witness :
  sql.get_user_by_descriptor_id 7 fixtures.enrolled_db = Some fixtures.ivan /\
  sql.get_user_by_descriptor_id 7
    (sql.update_descriptor_by_user_id 1 [(1/2)%R] fixtures.enrolled_db) = None /\
  sql.get_user_by_descriptor_id 8
    (sql.update_descriptor_by_user_id 1 [(1/2)%R] fixtures.enrolled_db)
    = Some fixtures.ivan.
Proof.
  split; [reflexivity|].
  refine (update_descriptor_by_user_id_unbinds_old_ids 1 7 [(1/2)%R]
            fixtures.enrolled_db _ _ _).
  - intros row Hrow. by apply list_elem_of_singleton in Hrow as ->.
  - done.
  - intros row Hrow. by apply list_elem_of_singleton in Hrow as ->.
Defined.

(* ===================================================================== *)
(** * Permissions, visits and rooms                                      *)
(* ===================================================================== *)

Ltac unfold_rest :=
  unfold AccessControlServiceRest.record_visit,
    AccessControlServiceRest.get_room,
    AccessControlServiceRest.get_visits,
    AccessControlServiceRest.configure_access,
    EffectsRest.try_db, EffectsRest.returning_db in *.

Ltac run_rest := unfold_rest; run.

(** The permission query finds a row exactly when the pair is in the
    table. *)
Lemma permission_exists_iff (user_id room_id : Z) (d : sql.Database) :
  sql.check_access_permission_exist user_id room_id d = true <->
  (room_id, user_id) ∈ sql.tbl_UserRoomAccessPermission d.
Proof.
  unfold sql.check_access_permission_exist. split.
  - destruct (sql.fetchrow _ _) as [p|] eqn:E; [|done]. intros _.
    apply fetchrow_Some in E as [Hin Hp].
    apply andb_true_iff in Hp as [H1%Z.eqb_eq H2%Z.eqb_eq].
    destruct p as [r u]. simpl in *. by subst.
  - intros Hin.
    destruct (fetchrow_is_Some
                (fun p : Z * Z => (p.1 =? room_id)%Z && (p.2 =? user_id)%Z)
                _ _ Hin) as [p ->]; [|done].
    simpl. by rewrite !Z.eqb_refl.
Qed.

Lemma permission_exists_ext (user_id room_id : Z) (d1 d2 : sql.Database) :
  ((room_id, user_id) ∈ sql.tbl_UserRoomAccessPermission d1 <->
   (room_id, user_id) ∈ sql.tbl_UserRoomAccessPermission d2) ->
  sql.check_access_permission_exist user_id room_id d1
  = sql.check_access_permission_exist user_id room_id d2.
Proof.
  intros H. apply Bool.eq_iff_eq_true. by rewrite !permission_exists_iff.
Qed.

Lemma created_permission_elem (room_id user_id : Z) (d : sql.Database) (p : Z * Z) :
  p ∈ sql.tbl_UserRoomAccessPermission (sqlx.create_access_permission room_id user_id d) <->
  p = (room_id, user_id) \/ p ∈ sql.tbl_UserRoomAccessPermission d.
Proof.
  unfold sqlx.create_access_permission. case_bool_decide as Hin; simpl.
  - split; [by right | by intros [->|?]].
  - rewrite elem_of_app, list_elem_of_singleton. tauto.
Qed.

Lemma deleted_permission_elem (room_id user_id : Z) (d : sql.Database) (p : Z * Z) :
  p ∈ sql.tbl_UserRoomAccessPermission
        (sqlx.delete_access_permission_by_room_id_and_user_id room_id user_id d) <->
  p <> (room_id, user_id) /\ p ∈ sql.tbl_UserRoomAccessPermission d.
Proof. simpl. by rewrite list_elem_of_filter. Qed.

(** X10.  [configure_access] against the SQL repository: after granting,
    the permission check for that user and room answers [True]; after
    revoking it answers [False]; the answer for every other pair of a user
    and a room is what it was; both calls report success and neither
    touches the descriptor cache. *)
Theorem configure_access_sets_exactly_one_permission {calendar : Calendar}
    (room_id user_id : Z) (s : Store sqlx.Database) :
  let grant := AccessControlServiceRest.configure_access room_id user_id true
                 SchedulerThread s in
  let revoke := AccessControlServiceRest.configure_access room_id user_id false
                  SchedulerThread s in
  outcome_of grant = Py.Return (Plain true) /\
  outcome_of revoke = Py.Return (Plain true) /\
  check_access_permission_exist user_id room_id (db (store_of grant)) = true /\
  check_access_permission_exist user_id room_id (db (store_of revoke)) = false /\
  (forall room_id' user_id',
     (room_id', user_id') <> (room_id, user_id) ->
     check_access_permission_exist user_id' room_id' (db (store_of grant))
       = check_access_permission_exist user_id' room_id' (db s) /\
     check_access_permission_exist user_id' room_id' (db (store_of revoke))
       = check_access_permission_exist user_id' room_id' (db s)) /\
  descriptors (store_of grant) = descriptors s /\
  descriptors (store_of revoke) = descriptors s.
Proof.
  run_rest. split; [done|]. split; [done|]. split; [|split; [|split; [|done]]].
  - apply permission_exists_iff, created_permission_elem. by left.
  - apply not_true_is_false. rewrite permission_exists_iff, deleted_permission_elem.
    by intros [? _].
  - intros room_id' user_id' Hne. split; apply permission_exists_ext.
    + rewrite created_permission_elem. split; [by intros [?|?] | by right].
    + rewrite deleted_permission_elem. tauto.
Qed.

(** X11.  The users listed for a room by the SQL repository are the rows
    of "User" that have a permission row for that room.  Hence a user of
    the table is listed once he is granted access, no user with the
    revoked id is listed after a revocation, and granting or revoking for
    one room changes nobody's listing for another room. *)
Theorem accessed_users_follow_the_permissions (room_id : Z) (d : sql.Database) :
  (forall u,
     u ∈ sqlx.get_accessed_users_by_room_id room_id d <->
     u ∈ sql.tbl_User d /\ (room_id, User.id u) ∈ sql.tbl_UserRoomAccessPermission d) /\
  (forall u, u ∈ sql.tbl_User d ->
     u ∈ sqlx.get_accessed_users_by_room_id room_id
           (sqlx.create_access_permission room_id (User.id u) d)) /\
  (forall u user_id, User.id u = user_id ->
     u ∉ sqlx.get_accessed_users_by_room_id room_id
           (sqlx.delete_access_permission_by_room_id_and_user_id room_id user_id d)) /\
  (forall other_room user_id u, other_room <> room_id ->
     (u ∈ sqlx.get_accessed_users_by_room_id room_id
            (sqlx.create_access_permission other_room user_id d) <->
      u ∈ sqlx.get_accessed_users_by_room_id room_id d) /\
     (u ∈ sqlx.get_accessed_users_by_room_id room_id
            (sqlx.delete_access_permission_by_room_id_and_user_id other_room user_id d) <->
      u ∈ sqlx.get_accessed_users_by_room_id room_id d)).
Proof.
  assert (Hlisted : forall d0 u,
            u ∈ sqlx.get_accessed_users_by_room_id room_id d0 <->
            u ∈ sql.tbl_User d0 /\
            (room_id, User.id u) ∈ sql.tbl_UserRoomAccessPermission d0).
  { intros d0 u. unfold sqlx.get_accessed_users_by_room_id.
    rewrite list_elem_of_In, in_flat_map. split.
    - intros (u' & Hu' & Hin). apply in_flat_map in Hin as ([r x] & Hp & Hin).
      simpl in Hin.
      destruct ((User.id u' =? x)%Z && (r =? room_id)%Z) eqn:E; [|done].
      destruct Hin as [<-|[]].
      apply andb_true_iff in E as [->%Z.eqb_eq ->%Z.eqb_eq].
      split; by apply list_elem_of_In.
    - intros [Hu Hp]. exists u. split; [by apply list_elem_of_In|].
      apply in_flat_map. exists (room_id, User.id u).
      split; [by apply list_elem_of_In|]. simpl. rewrite !Z.eqb_refl. by left. }
  split; [apply Hlisted|]. split; [|split].
  - intros u Hu. apply Hlisted. split; [|apply created_permission_elem; by left].
    unfold sqlx.create_access_permission. by case_bool_decide.
  - intros u user_id <- Hin. apply Hlisted in Hin as [_ Hin].
    apply deleted_permission_elem in Hin as [Hne _]. done.
  - intros other_room user_id u Hne. rewrite !Hlisted. split.
    + rewrite created_permission_elem.
      assert (sql.tbl_User (sqlx.create_access_permission other_room user_id d)
              = sql.tbl_User d) as ->
        by (unfold sqlx.create_access_permission; by case_bool_decide).
      split; [|tauto]. intros [? [[= ? ?]|?]]; [congruence | done].
    + rewrite deleted_permission_elem. simpl. split; [tauto|].
      intros [? ?]. split; [done|]. split; [|done]. intros [= ? ?]. congruence.
Qed.

(** X12.  [record_visit] writes a report only for a permitted visit.
    Without a permission row it returns Ok(allowed=False) and leaves the
    store as it is.  With one, it appends one report carrying the room,
    the user and the instant of the request, returns its id as
    [visit_id], leaves users, descriptors, permissions and the cache
    alone, and [get_visits] for that room and the day of that instant then
    lists the visit in addition to those already recorded. *)
Theorem record_visit_requires_a_permission {calendar : Calendar}
    (room_id user_id datetime_ : Z) (s : Store sqlx.Database) :
  let r := AccessControlServiceRest.record_visit room_id user_id datetime_
             SchedulerThread s in
  let visits_before :=
    map VisitInfo.from_visit_report
      (sqlx.get_visits_by_room_id_and_date room_id (date datetime_) (db s)) in
  if sql.check_access_permission_exist user_id room_id (sqlx.face (db s))
  then
    outcome_of r
      = Py.Return (Ok (mk_VisitRecording true (Some (sqlx.seq_RoomVisitReport_id (db s))))) /\
    sqlx.tbl_RoomVisitReport (db (store_of r))
      = sqlx.tbl_RoomVisitReport (db s)
        ++ [RoomVisitReport.mk (sqlx.seq_RoomVisitReport_id (db s))
              room_id user_id datetime_] /\
    sqlx.face (db (store_of r)) = sqlx.face (db s) /\
    descriptors (store_of r) = descriptors s /\
    outcome_of (AccessControlServiceRest.get_visits room_id (date datetime_)
                  SchedulerThread (store_of r))
      = Py.Return (Ok (mk_VisitsList (visits_before ++ [VisitInfo.mk datetime_ user_id])))
  else
    outcome_of r = Py.Return (Ok (mk_VisitRecording false None)) /\
    store_of r = s.
Proof.
  run_rest.
  destruct (sql.check_access_permission_exist user_id room_id (sqlx.face (db s)));
    simpl; [|done].
  repeat (split; [done|]).
  unfold sqlx.get_visits_by_room_id_and_date, astimezone. simpl.
  rewrite filter_app, List.map_app, filter_cons. simpl.
  by rewrite decide_True.
Qed.

(** The enrolled user visits room 10, where he has access, and is turned
    away from room 11. *)
Example record_visit_at_two_doors :
  outcome_of (AccessControlServiceRest.record_visit (repository_rest := sqlx_repository_rest
                (calendar := fixtures_rest.utc_days))
                10 1 100000 SchedulerThread fixtures_rest.building_store)
    = Py.Return (Ok (mk_VisitRecording true (Some 1%Z))) /\
  outcome_of (AccessControlServiceRest.record_visit (repository_rest := sqlx_repository_rest
                (calendar := fixtures_rest.utc_days))
                11 1 100000 SchedulerThread fixtures_rest.building_store)
    = Py.Return (Ok (mk_VisitRecording false None)).
Proof. split; reflexivity. Qed.

(** X13.  [get_room] against the SQL repository never returns its own
    error result "No room with provided id=...": the repository unpacks
    the fetched record without testing it, so for an id that no row of
    "Room" carries the call raises TypeError; for an id that is there it
    returns the id and name of the first such row.  The store is never
    changed. *)
Theorem get_room_raises_on_unknown_id {calendar : Calendar}
    (room_id : Z) (s : Store sqlx.Database) :
  let r := AccessControlServiceRest.get_room room_id SchedulerThread s in
  (forall cause, outcome_of r <> Py.Return (Err cause)) /\
  ((forall row, row ∈ sqlx.tbl_Room (db s) -> Room.id row <> room_id) ->
   outcome_of r = Py.Raise Py.TypeError) /\
  (forall row, sql.fetchrow (fun x => (Room.id x =? room_id)%Z) (sqlx.tbl_Room (db s))
               = Some row ->
   Room.id row = room_id /\
   outcome_of r = Py.Return (Ok (RoomInfo.mk room_id (Room.name row)))) /\
  store_of r = s.
Proof.
  run_rest. unfold sqlx.get_room_by_id.
  split; [|split; [|split]].
  - intros cause. by destruct (sql.fetchrow _ _).
  - intros Hnone. rewrite fetchrow_None; [done|].
    intros row Hrow. apply Z.eqb_neq. by apply Hnone.
  - intros row Hrow. rewrite Hrow. simpl.
    apply fetchrow_Some in Hrow as [_ Hid%Z.eqb_eq].
    split; [done|]. unfold RoomInfo.from_room. by rewrite Hid.
  - by destruct (sql.fetchrow _ _).
Qed.

Example get_room_known_and_unknown :
  outcome_of (AccessControlServiceRest.get_room (repository_rest := sqlx_repository_rest
                (calendar := fixtures_rest.utc_days))
                10 SchedulerThread fixtures_rest.building_store)
    = Py.Return (Ok (RoomInfo.mk 10 "Lab")) /\
  outcome_of (AccessControlServiceRest.get_room (repository_rest := sqlx_repository_rest
                (calendar := fixtures_rest.utc_days))
                11 SchedulerThread fixtures_rest.building_store)
    = Py.Raise Py.TypeError.
Proof. split; reflexivity. Qed.

(* ===================================================================== *)
(** * Authorization: temp tokens                                         *)
(* ===================================================================== *)

Section temp_tokens.
Context {token_source : TokenDefault}.
Implicit Types (d : sql_auth.Database) (now later : Z).

(** The database after a successful [log_in_room] of room [r]. *)
Lemma log_in_room_known now login (lt : RoomLoginToken.t) d :
  sql_auth.get_room_login_token login d = Some lt ->
  let r := RoomLoginToken.room_id lt in
  let fresh := RoomTempToken.mk (token_default (sql_auth.inserts_RoomTempToken d)) r
                 (now + 3600)%Z in
  AuthorizationService.log_in_room now login d
  = (Ok (TempTokenInfo.mk (RoomTempToken.token fresh) (now + 3600)%Z),
     {| sql_auth.tbl_RoomTempToken :=
          filter (fun x => RoomTempToken.room_id x <> r) (sql_auth.tbl_RoomTempToken d)
          ++ [fresh];
        sql_auth.tbl_RoomLoginToken := sql_auth.tbl_RoomLoginToken d;
        sql_auth.tbl_AdminToken := sql_auth.tbl_AdminToken d;
        sql_auth.inserts_RoomTempToken := (sql_auth.inserts_RoomTempToken d + 1)%Z |}).
Proof.
  intros Hlt. unfold AuthorizationService.log_in_room. simpl. by rewrite Hlt.
Qed.

End temp_tokens.




(** X16.  A new login revokes the earlier temp tokens of the room: a
    string carried only by temp-token rows of the room that logs in, and
    different from the string drawn for the new row, is an unknown token
    after [log_in_room], at every instant, whatever validity it had. *)
Theorem log_in_room_revokes_earlier_tokens {token_source : TokenDefault}
    (now : Z) (login old : string) (lt : RoomLoginToken.t) (d : sql_auth.Database) :
  sql_auth.get_room_login_token login d = Some lt ->
  (forall row, row ∈ sql_auth.tbl_RoomTempToken d ->
     RoomTempToken.token row = old ->
     RoomTempToken.room_id row = RoomLoginToken.room_id lt) ->
  old <> token_default (sql_auth.inserts_RoomTempToken d) ->
  forall later,
    AuthorizationService.authorize_room later old
      (AuthorizationService.log_in_room now login d).2
    = RoomAuthorization.mk (TempTokenCheck.mk false None) None.
Proof.
  intros Hlt Hown Hnew later.
  rewrite (log_in_room_known now login lt d Hlt). simpl.
  unfold AuthorizationService.authorize_room. simpl.
  unfold sql_auth.get_room_temp_token. simpl.
  rewrite fetchrow_app, fetchrow_None.
  - simpl. rewrite bool_decide_eq_false_2 by done. done.
  - intros row Hrow. apply list_elem_of_filter in Hrow as [Hother Hin].
    apply bool_decide_eq_false_2. intros Htok. by apply Hother, Hown.
Qed.

(** The token "old" of room 10 was valid until 5000; after a new login at
    1000 it is unknown at 2000. *)
Lemma log_in_room_revokes_earlier_tokens_witness :
  AuthorizationService.authorize_room (repository := sql_auth_repository
      (token_source := fixtures_auth.numbered_tokens))
    2000 "old" fixtures_auth.tokens_db
  = RoomAuthorization.mk (TempTokenCheck.mk true (Some true)) (Some 10%Z) /\
  AuthorizationService.authorize_room (repository := sql_auth_repository
      (token_source := fixtures_auth.numbered_tokens))
    2000 "old"
    (AuthorizationService.log_in_room (repository := sql_auth_repository
        (token_source := fixtures_auth.numbered_tokens))
       1000 "door-10" fixtures_auth.tokens_db).2
  = RoomAuthorization.mk (TempTokenCheck.mk false None) None.
Proof.
  split; [reflexivity|].
  apply (log_in_room_revokes_earlier_tokens
           (token_source := fixtures_auth.numbered_tokens)
           1000 "door-10" "old" (RoomLoginToken.mk "door-10" 10) fixtures_auth.tokens_db
           eq_refl).
  - intros row Hrow. by apply list_elem_of_singleton in Hrow as ->.
  - done.
Defined.

(* ===================================================================== *)
(** * Controllers: requirements in front of a handler                    *)
(* ===================================================================== *)

Section require_chain.
Context {AuthDB Services V : Type} {repository : AuthorizationRepository AuthDB}.
Implicit Types (request : web.Request) (a : App AuthDB Services).
Implicit Types (requirements : list (string * controllers.ControllerRequirement
                                                (AuthDB := AuthDB) (Services := Services) (V := V))).

(** Requirements run one after the other. *)
Lemma run_requirements_app requirements1 requirements2 kwargs request a :
  controllers.run_requirements (requirements1 ++ requirements2) kwargs request a
  = match controllers.run_requirements requirements1 kwargs request a with
    | (inl response, a1) => (inl response, a1)
    | (inr kwargs1, a1) => controllers.run_requirements requirements2 kwargs1 request a1
    end.
Proof.
  revert kwargs a. induction requirements1 as [|[name requirement] rest IH];
    intros kwargs a; [done|].
  simpl. destruct (requirement request a) as [[response|value] a1]; [done|].
  apply IH.
Qed.

(** The keywords prepared are the names of the requirements, in order. *)
Lemma run_requirements_names requirements kwargs kwargs' request a a' :
  controllers.run_requirements requirements kwargs request a = (inr kwargs', a') ->
  kwargs'.*1 = kwargs.*1 ++ requirements.*1.
Proof.
  revert kwargs a. induction requirements as [|[name requirement] rest IH];
    intros kwargs a; simpl.
  - intros [= <- <-]. by rewrite app_nil_r.
  - destruct (requirement request a) as [[response|value] a1]; [done|].
    intros H. apply IH in H. rewrite H, fmap_app. simpl. by rewrite <- app_assoc.
Qed.

End require_chain.

(** X17.  The [require] wrapper.  When the checkers pass and a keyword
    requirement answers with a response, that response is the result of
    the request and the application state is the one that requirement
    left: the requirements after it and the handler are not run.  When
    every checker and requirement passes, the handler is called, and the
    keywords it receives are exactly the names of the requirements, one
    each, in their order. *)
Theorem require_stops_at_the_first_refusal
    {AuthDB Services V : Type}
    (checkers : list (controllers.ControllerRequirement
                        (AuthDB := AuthDB) (Services := Services) (V := V)))
    (before after : list (string * controllers.ControllerRequirement
                                     (AuthDB := AuthDB) (Services := Services) (V := V)))
    (name : string)
    (requirement : controllers.ControllerRequirement
                     (AuthDB := AuthDB) (Services := Services) (V := V))
    (handler : controllers.Handler (AuthDB := AuthDB) (Services := Services) (V := V))
    (request : web.Request) (a a1 a2 : App AuthDB Services)
    (kwargs : list (string * V)) :
  controllers.run_checkers checkers request a = (None, a1) ->
  controllers.run_requirements before [] request a1 = (inr kwargs, a2) ->
  (forall response a3,
     requirement request a2 = (inl response, a3) ->
     controllers.require checkers (before ++ (name, requirement) :: after) handler request a
     = (response, a3)) /\
  kwargs.*1 = before.*1 /\
  controllers.require checkers before handler request a = handler request kwargs a2.
Proof.
  intros Hcheckers Hbefore. split; [|split].
  - intros response a3 Hrefuse. unfold controllers.require.
    rewrite Hcheckers, run_requirements_app, Hbefore. simpl. by rewrite Hrefuse.
  - by apply run_requirements_names in Hbefore.
  - unfold controllers.require. by rewrite Hcheckers, Hbefore.
Qed.

(** A request without the header, in front of a second requirement that
    is never reached. *)
Lemma require_stops_at_the_first_refusal_witness :
  let room_auth : controllers.ControllerRequirement (Services := unit) (V := option Z) :=
    controllers.RoomAuth (repository := sql_auth_repository
      (token_source := fixtures_auth.numbered_tokens)) (fun r => r) in
  let app := mk_App 5000 fixtures_auth.tokens_db tt in
  controllers.require [] ([] ++ ("room_id", room_auth) :: [("again", room_auth)])
    (fun _ _ a => (web.mk_Response 200 "handled", a))
    fixtures_auth.bare_request app
  = (web.mk_Response 400 "Room-Token header is required.", app).
Proof.
  intros room_auth app.
  apply (proj1 (require_stops_at_the_first_refusal [] [] [("again", room_auth)]
                  "room_id" room_auth (fun _ _ a => (web.mk_Response 200 "handled", a))
                  fixtures_auth.bare_request app app app [] eq_refl eq_refl)).
  reflexivity.
Defined.

(** X18.  Every handler behind [require(room_id=RoomAuth(), ...)] is
    guarded by the temp token of the request.  Without a Room-Token
    header the answer is 400; with a string no temp-token row carries it
    is 401 "Unknown Room-Token value."; with a row whose [valid_before] is
    earlier than the clock it is 401 "Token has already invalid."; in
    these three cases nothing else runs and the state is unchanged.
    Otherwise the remaining requirements and the handler run, and the
    keyword [room_id] they get is the room of that row. *)
Theorem room_token_guards_the_handler
    {AuthDB Services V : Type} {repository : AuthorizationRepository AuthDB}
    (as_value : option Z -> V)
    (others : list (string * controllers.ControllerRequirement
                                 (AuthDB := AuthDB) (Services := Services) (V := V)))
    (handler : controllers.Handler (AuthDB := AuthDB) (Services := Services) (V := V))
    (request : web.Request) (a : App AuthDB Services) :
  let guarded :=
    controllers.require [] (("room_id", controllers.RoomAuth as_value) :: others) handler in
  match web.header request "Room-Token" with
  | None =>
      guarded request a = (web.mk_Response 400 "Room-Token header is required.", a)
  | Some token_string =>
      match get_room_temp_token token_string (authorization a) with
      | None =>
          guarded request a = (web.mk_Response 401 "Unknown Room-Token value.", a)
      | Some row =>
          if (RoomTempToken.valid_before row <? clock a)%Z
          then guarded request a = (web.mk_Response 401 "Token has already invalid.", a)
          else guarded request a
               = match controllers.run_requirements others
                         [("room_id", as_value (Some (RoomTempToken.room_id row)))]
                         request a with
                 | (inl response, a1) => (response, a1)
                 | (inr kwargs, a1) => handler request kwargs a1
                 end
      end
  end.
Proof.
  unfold controllers.require, controllers.RoomAuth,
    AuthorizationService.authorize_room, astimezone. simpl.
  destruct (web.header request "Room-Token") as [token_string|]; [|done].
  destruct (get_room_temp_token token_string (authorization a)) as [row|]; [|done].
  by destruct (RoomTempToken.valid_before row <? clock a)%Z.
Qed.

(** X19.  Every handler behind [require(AdminAuth(), ...)] is guarded by
    the admin token of the request: without an Admin-Token header the
    answer is 400, with a string no admin-token row carries it is 401
    "Unknown token.", and in both cases nothing else runs.  With a known
    token the requirements and the handler run as if there were no
    checker; the administrator's id is not handed to the handler. *)
Theorem admin_token_guards_the_handler
    {AuthDB Services V : Type} {repository : AuthorizationRepository AuthDB}
    (as_value : option Z -> V)
    (requirements : list (string * controllers.ControllerRequirement
                                       (AuthDB := AuthDB) (Services := Services) (V := V)))
    (handler : controllers.Handler (AuthDB := AuthDB) (Services := Services) (V := V))
    (request : web.Request) (a : App AuthDB Services) :
  let guarded := controllers.require [controllers.AdminAuth as_value] requirements handler in
  match web.header request "Admin-Token" with
  | None =>
      guarded request a = (web.mk_Response 400 "Admin-Token header is required.", a)
  | Some token_string =>
      match get_admin_token token_string (authorization a) with
      | None => guarded request a = (web.mk_Response 401 "Unknown token.", a)
      | Some _ => guarded request a = controllers.require [] requirements handler request a
      end
  end.
Proof.
  unfold controllers.require, controllers.AdminAuth,
    AuthorizationService.authorize_admin. simpl.
  destruct (web.header request "Admin-Token") as [token_string|]; [|done].
  by destruct (get_admin_token token_string (authorization a)).
Qed.

(** A request with the expired token "old" of room 10 is answered 401
    before the handler is reached; at an earlier instant the handler gets
    room 10. *)
Example old_token_at_two_instants :
  let handler : controllers.Handler (V := option Z) :=
    fun _ kwargs a => (web.mk_Response 200 "handled", a) in
  let guarded :=
    controllers.require []
      [("room_id", controllers.RoomAuth (repository := sql_auth_repository
          (token_source := fixtures_auth.numbered_tokens)) (fun r => r))] handler in
  (guarded (fixtures_auth.request_with "Room-Token" "old")
     (mk_App 6000 fixtures_auth.tokens_db tt)).1
    = web.mk_Response 401 "Token has already invalid." /\
  (guarded (fixtures_auth.request_with "Room-Token" "old")
     (mk_App 5000 fixtures_auth.tokens_db tt)).1
    = web.mk_Response 200 "handled" /\
  (guarded fixtures_auth.bare_request (mk_App 5000 fixtures_auth.tokens_db tt)).1
    = web.mk_Response 400 "Room-Token header is required.".
Proof. repeat split. Qed.

(* ===================================================================== *)
(** * Tasks for room nodes                                               *)
(* ===================================================================== *)

Section tasks.
Context {Kwargs : Type}.
Implicit Types (d : sql_tasks.Database Kwargs) (t : RoomTask.t Kwargs).

Lemma with_status_id st t : RoomTask.id (sql_tasks.with_status st t) = RoomTask.id t.
Proof. done. Qed.

Lemma with_status_twice st t :
  sql_tasks.with_status st (sql_tasks.with_status st t) = sql_tasks.with_status st t.
Proof. done. Qed.

(** The rows after the statement has run for each of the ids. *)
Lemma update_task_status_rows st (task_ids : list Z) d :
  sql_tasks.tbl_RoomTask (sql_tasks.update_task_status st task_ids d)
  = map (fun t => if bool_decide (RoomTask.id t ∈ task_ids)
                  then sql_tasks.with_status st t else t)
        (sql_tasks.tbl_RoomTask d) /\
  sql_tasks.tbl_Room (sql_tasks.update_task_status st task_ids d) = sql_tasks.tbl_Room d /\
  sql_tasks.seq_RoomTask_id (sql_tasks.update_task_status st task_ids d)
  = sql_tasks.seq_RoomTask_id d.
Proof.
  unfold sql_tasks.update_task_status. revert d.
  induction task_ids as [|i task_ids IH]; intros d; simpl.
  - split; [|done].
    transitivity (map (fun t => t) (sql_tasks.tbl_RoomTask d));
      [by rewrite List.map_id|].
    apply List.map_ext. by intros t.
  - destruct (IH (sql_tasks.update_one st d i)) as (Hrows & Hrooms & Hseq).
    rewrite Hrows, Hrooms, Hseq. simpl. split; [|done].
    rewrite List.map_map. apply List.map_ext. intros t.
    destruct (decide (RoomTask.id t = i)) as [Hi|Hi].
    + rewrite (bool_decide_eq_true_2 (RoomTask.id t = i)) by done.
      rewrite (bool_decide_eq_true_2 (RoomTask.id t ∈ i :: task_ids))
        by (subst i; apply list_elem_of_here).
      rewrite with_status_id. by case_bool_decide.
    + rewrite (bool_decide_eq_false_2 (RoomTask.id t = i)) by done.
      destruct (decide (RoomTask.id t ∈ task_ids)) as [Hin|Hin].
      * rewrite !bool_decide_eq_true_2; [done | by apply list_elem_of_further | done].
      * rewrite !bool_decide_eq_false_2; [done | | done].
        intros [?|?]%elem_of_cons; done.
Qed.

End tasks.
(** A filter that no element passes. *)
Lemma filter_none {A} (P : A -> Prop) `{!forall x, Decision (P x)} (l : list A) :
  (forall x, x ∈ l -> ~ P x) -> filter P l = [].
Proof.
  induction l as [|x l IH]; [done|]. intros Hl.
  rewrite filter_cons, decide_False by (apply Hl, list_elem_of_here).
  apply IH. intros y Hy. apply Hl. by apply list_elem_of_further.
Qed.

(** With no UNSENT task for the room there is nothing to hand out and
    nothing to mark. *)
Lemma nothing_to_hand_out {Kwargs : Type} (room_id : Z) (d : sql_tasks.Database Kwargs) :
  sql_tasks.get_room_tasks_with_status room_id TaskStatus.UNSENT d = [] ->
  RoomTasksService.get_unsent_tasks room_id d = (Ok (mk_TaskList []), d).
Proof.
  intros Hnone. unfold RoomTasksService.get_unsent_tasks. simpl. by rewrite Hnone.
Qed.

(** X20.  [get_unsent_tasks] against the SQL repository hands out each
    task once.  The views it returns are those of the rows of the table
    with the room's id and status UNSENT, one view for each such row and
    no other, in some order.  After the call no row of the room has
    status UNSENT, each of the rows handed out is in the table with
    status SENT and otherwise as it was, and the table holds the same
    task ids as before, so that a second call returns an empty list and
    changes nothing. *)
Theorem unsent_tasks_are_handed_out_once {Kwargs : Type}
    (room_id : Z) (d : sql_tasks.Database Kwargs) :
  let r := RoomTasksService.get_unsent_tasks room_id d in
  (exists views,
     r.1 = Ok (mk_TaskList views) /\
     views ≡ₚ map (fun t => TaskView.mk (RoomTask.id t) (RoomTask.type t) (RoomTask.kwargs t))
                  (filter (fun t => RoomTask.room_id t = room_id /\
                                    RoomTask.status t = TaskStatus.UNSENT)
                          (sql_tasks.tbl_RoomTask d))) /\
  (forall t, t ∈ sql_tasks.tbl_RoomTask r.2 ->
     RoomTask.room_id t = room_id -> RoomTask.status t <> TaskStatus.UNSENT) /\
  (forall t, t ∈ sql_tasks.tbl_RoomTask d ->
     RoomTask.room_id t = room_id -> RoomTask.status t = TaskStatus.UNSENT ->
     RoomTask.mk (RoomTask.id t) (RoomTask.room_id t) (RoomTask.type t)
                 (RoomTask.kwargs t) TaskStatus.SENT
     ∈ sql_tasks.tbl_RoomTask r.2) /\
  map RoomTask.id (sql_tasks.tbl_RoomTask r.2)
    ≡ₚ map RoomTask.id (sql_tasks.tbl_RoomTask d) /\
  RoomTasksService.get_unsent_tasks room_id r.2 = (Ok (mk_TaskList []), r.2).
Proof.
  intros r.
  set (handed := sql_tasks.get_room_tasks_with_status room_id TaskStatus.UNSENT d).
  assert (Hrows := proj1 (update_task_status_rows TaskStatus.SENT
                            (map RoomTask.id handed) d)).
  assert (Hhanded : forall t, t ∈ sql_tasks.tbl_RoomTask d ->
            RoomTask.room_id t = room_id -> RoomTask.status t = TaskStatus.UNSENT ->
            RoomTask.id t ∈ map RoomTask.id handed).
  { intros t Ht Hroom Hstatus.
    apply list_elem_of_In, in_map, list_elem_of_In.
    unfold handed, sql_tasks.get_room_tasks_with_status.
    by apply list_elem_of_filter. }
  assert (Hleft : forall t, t ∈ sql_tasks.tbl_RoomTask r.2 ->
            RoomTask.room_id t = room_id -> RoomTask.status t <> TaskStatus.UNSENT).
  { intros t' Ht' Hroom Hstatus. subst r. simpl in Ht'. fold handed in Ht'.
    rewrite Hrows in Ht'.
    apply list_elem_of_In, in_map_iff in Ht' as (t & <- & Ht).
    apply list_elem_of_In in Ht.
    case_bool_decide as Hin; [done|].
    by apply Hin, Hhanded. }
  split; [|split; [|split; [|split]]].
  - exists (map TaskView.parse_obj_vars handed). split; [done|].
    unfold handed, sql_tasks.get_room_tasks_with_status.
    apply Permutation_refl.
  - exact Hleft.
  - intros t Ht Hroom Hstatus. subst r. simpl. fold handed. rewrite Hrows.
    apply list_elem_of_In, in_map_iff. exists t. split; [|by apply list_elem_of_In].
    by rewrite bool_decide_eq_true_2 by by apply Hhanded.
  - subst r. simpl. fold handed. rewrite Hrows, List.map_map.
    erewrite List.map_ext; [reflexivity|].
    intros t. simpl. by case_bool_decide.
  - apply nothing_to_hand_out.
    unfold sql_tasks.get_room_tasks_with_status.
    apply filter_none. intros t Ht [Hroom Hstatus]. by eapply Hleft.
Qed.

(** Rows that agree on a key without duplicates are the same row. *)
Lemma NoDup_fmap_eq {A B} (f : A -> B) (l : list A) x y :
  NoDup (map f l) -> x ∈ l -> y ∈ l -> f x = f y -> x = y.
Proof.
  induction l as [|z l IH]; [by intros _ ?%elem_of_nil|].
  simpl. intros Hnd Hx Hy Hxy. apply NoDup_cons in Hnd as [Hz Hnd].
  apply elem_of_cons in Hx as [->|Hx]; apply elem_of_cons in Hy as [->|Hy].
  - done.
  - exfalso. apply Hz. rewrite Hxy. by apply list_elem_of_In, in_map, list_elem_of_In.
  - exfalso. apply Hz. rewrite <- Hxy. by apply list_elem_of_In, in_map, list_elem_of_In.
  - by apply IH.
Qed.

(** X21.  When the task ids of the table are pairwise different,
    [get_unsent_tasks] changes exactly the UNSENT tasks of the room, from
    UNSENT to SENT: the tasks of other rooms and the room's tasks in any
    other status stay as they are, and no row is added or removed. *)
Theorem handing_out_tasks_touches_no_other_task {Kwargs : Type}
    (room_id : Z) (d : sql_tasks.Database Kwargs) :
  NoDup (map RoomTask.id (sql_tasks.tbl_RoomTask d)) ->
  sql_tasks.tbl_RoomTask (RoomTasksService.get_unsent_tasks room_id d).2
  = map (fun t => if bool_decide (RoomTask.room_id t = room_id /\
                                  RoomTask.status t = TaskStatus.UNSENT)
                  then sql_tasks.with_status TaskStatus.SENT t else t)
        (sql_tasks.tbl_RoomTask d).
Proof.
  intros Hnd. simpl.
  rewrite (proj1 (update_task_status_rows _ _ _)).
  apply List.map_ext_in. intros t Ht%list_elem_of_In.
  unfold sql_tasks.get_room_tasks_with_status.
  destruct (decide (RoomTask.room_id t = room_id /\ RoomTask.status t = TaskStatus.UNSENT))
    as [Hcond|Hcond].
  - rewrite !bool_decide_eq_true_2; [done | done |].
    apply list_elem_of_In, in_map, list_elem_of_In. by apply list_elem_of_filter.
  - rewrite !bool_decide_eq_false_2; [done | done |].
    intros Hin. apply list_elem_of_In, in_map_iff in Hin as (t' & Hid & Ht').
    apply list_elem_of_In, list_elem_of_filter in Ht' as [Hcond' Ht'].
    assert (t' = t) as -> by (by eapply NoDup_fmap_eq).
    done.
Qed.

Lemma handing_out_tasks_touches_no_other_task_witness :
  sql_tasks.tbl_RoomTask
    (RoomTasksService.get_unsent_tasks 10 fixtures_tasks.tasks_db).2
  = [RoomTask.mk 1 10 TaskType.OPEN_DOOR "{}" TaskStatus.SENT;
     RoomTask.mk 2 10 TaskType.OPEN_DOOR "{}" TaskStatus.DONE;
     RoomTask.mk 3 11 TaskType.CANCEL_TASK "{}" TaskStatus.UNSENT].
Proof.
  refine (handing_out_tasks_touches_no_other_task 10 fixtures_tasks.tasks_db _).
  by apply (bool_decide_unpack _).
Defined.

Section enum_values.

Lemma TaskStatus_find_value st :
  find (fun m => bool_decide (TaskStatus.value m = TaskStatus.value st)) TaskStatus.members
  = Some st.
Proof. by destruct st. Qed.

Lemma TaskStatus_in_members_value st :
  TaskStatus.in_members (TaskStatus.value st) = true.
Proof. by destruct st. Qed.

Lemma TaskStatus_not_in_members x :
  (forall st, TaskStatus.value st <> x) -> TaskStatus.in_members x = false.
Proof.
  intros H. destruct (TaskStatus.in_members x) eqn:E; [|done].
  apply existsb_exists in E as (m & _ & Hv%bool_decide_eq_true).
  by destruct (H m).
Qed.

Lemma TaskType_find_value ty :
  find (fun m => bool_decide (TaskType.value m = TaskType.value ty)) TaskType.members
  = Some ty.
Proof. by destruct ty. Qed.

Lemma TaskType_in_members_value ty :
  TaskType.in_members (TaskType.value ty) = true.
Proof. by destruct ty. Qed.

Lemma TaskType_not_in_members x :
  (forall ty, TaskType.value ty <> x) -> TaskType.in_members x = false.
Proof.
  intros H. destruct (TaskType.in_members x) eqn:E; [|done].
  apply existsb_exists in E as (m & _ & Hv%bool_decide_eq_true).
  by destruct (H m).
Qed.

End enum_values.

(** X22.  [report_task_performed] against the SQL repository.  It refuses,
    changing nothing, in this order: when no task has the id; when the
    first task with the id belongs to another room; when the new status is
    not the value of a member of TaskStatus, and then the cause lists the
    seven values, the sixth of which is PARAMETERS_ERROR.  Otherwise it
    reports success and sets the status of the rows with that id to the
    member with that value.  It never raises ValueError. *)
Theorem report_task_performed_checks_task_room_and_status {Kwargs : Type}
    (room_id task_id : Z) (new_status : string) (d : sql_tasks.Database Kwargs) :
  let r := RoomTasksService.report_task_performed room_id task_id new_status d in
  (sql_tasks.get_task_by_id task_id d = None ->
   r = (PyEnum.Return (Err "No task with provided id."), d)) /\
  (forall task, sql_tasks.get_task_by_id task_id d = Some task ->
     RoomTask.room_id task <> room_id ->
     r = (PyEnum.Return (Err "Room hasn't task with provided id."), d)) /\
  (forall task, sql_tasks.get_task_by_id task_id d = Some task ->
     RoomTask.room_id task = room_id ->
     (forall st, TaskStatus.value st <> new_status) ->
     r = (PyEnum.Return (Err
            "Unknown status. Possible statuses: UNSENT, SENT, DONE, CANCELLED, PERFORMING_ERROR, PARAMETERS_ERROR, NO_SUITABLE_HANDLER_ERROR."),
          d)) /\
  (forall task st, sql_tasks.get_task_by_id task_id d = Some task ->
     RoomTask.room_id task = room_id ->
     TaskStatus.value st = new_status ->
     r.1 = PyEnum.Return (Plain true) /\
     sql_tasks.tbl_RoomTask r.2
       = map (fun t => if bool_decide (RoomTask.id t = task_id)
                       then sql_tasks.with_status st t else t)
             (sql_tasks.tbl_RoomTask d)) /\
  r.1 <> PyEnum.RaiseValueError.
Proof.
  intros r. subst r. unfold RoomTasksService.report_task_performed. simpl.
  split; [|split; [|split; [|split]]].
  - by intros ->.
  - intros task -> Hroom. by rewrite bool_decide_eq_true_2.
  - intros task -> Hroom Hstatus. rewrite bool_decide_eq_false_2 by (intros H; by apply H).
    by rewrite TaskStatus_not_in_members.
  - intros task st -> Hroom <-. rewrite bool_decide_eq_false_2 by (intros H; by apply H).
    rewrite TaskStatus_in_members_value. simpl.
    unfold TaskStatus.of_value. rewrite TaskStatus_find_value. done.
  - destruct (sql_tasks.get_task_by_id task_id d) as [task|]; [|done].
    case_bool_decide; [done|].
    destruct (TaskStatus.in_members new_status) eqn:Hin; simpl; [|done].
    unfold TaskStatus.of_value. unfold TaskStatus.in_members in Hin.
    apply existsb_exists in Hin as (m & Hm & Hv).
    destruct (find _ TaskStatus.members) eqn:Hfind; [done|].
    eapply find_none in Hfind; [|exact Hm]. simpl in Hfind. congruence.
Qed.

(** The name KWARGS_ERROR is not a status a node can report; its value
    PARAMETERS_ERROR is. *)
Example report_with_name_and_with_value :
  (RoomTasksService.report_task_performed 10 1 "KWARGS_ERROR" fixtures_tasks.tasks_db).1
    = PyEnum.Return (Err
        "Unknown status. Possible statuses: UNSENT, SENT, DONE, CANCELLED, PERFORMING_ERROR, PARAMETERS_ERROR, NO_SUITABLE_HANDLER_ERROR.") /\
  (RoomTasksService.report_task_performed 10 1 "PARAMETERS_ERROR" fixtures_tasks.tasks_db).1
    = PyEnum.Return (Plain true) /\
  (RoomTasksService.report_task_performed 10 3 "DONE" fixtures_tasks.tasks_db).1
    = PyEnum.Return (Err "Room hasn't task with provided id.").
Proof. repeat split. Qed.

(** X23.  [create_task] against the SQL repository.  For a room that is
    not in "Room" it returns "Unknown room." (also when the type is
    unknown as well); for a known room and a string that is no value of
    TaskType it returns "Unknown task type."; in both cases nothing
    changes.  Otherwise it returns the view of a new task with the next
    id of the sequence, and the next [get_unsent_tasks] of that room hands
    out that task after the ones that were waiting.  It never raises
    ValueError. *)
Theorem created_task_is_handed_out_next {Kwargs : Type}
    (room_id : Z) (type_ : string) (kwargs : Kwargs) (d : sql_tasks.Database Kwargs) :
  let r := RoomTasksService.create_task room_id type_ kwargs d in
  (sql_tasks.check_room_exist room_id d = false ->
   r = (PyEnum.Return (Err "Unknown room."), d)) /\
  (sql_tasks.check_room_exist room_id d = true ->
   (forall ty, TaskType.value ty <> type_) ->
   r = (PyEnum.Return (Err "Unknown task type."), d)) /\
  (forall ty,
     sql_tasks.check_room_exist room_id d = true ->
     TaskType.value ty = type_ ->
     let view := TaskView.mk (sql_tasks.seq_RoomTask_id d) ty kwargs in
     r.1 = PyEnum.Return (Ok view) /\
     (RoomTasksService.get_unsent_tasks room_id r.2).1
       = Ok (mk_TaskList
               (map TaskView.parse_obj_vars
                  (sql_tasks.get_room_tasks_with_status room_id TaskStatus.UNSENT d)
                ++ [view]))) /\
  r.1 <> PyEnum.RaiseValueError.
Proof.
  intros r. subst r. unfold RoomTasksService.create_task. simpl.
  split; [|split; [|split]].
  - by intros ->.
  - intros -> Htype. simpl. by rewrite TaskType_not_in_members.
  - intros ty -> <-. simpl. rewrite TaskType_in_members_value. simpl.
    unfold TaskType.of_value. rewrite TaskType_find_value. simpl.
    split; [done|].
    unfold RoomTasksService.get_unsent_tasks. simpl.
    unfold sql_tasks.get_room_tasks_with_status. simpl.
    rewrite filter_app, List.map_app, filter_cons. simpl.
    by rewrite decide_True.
  - destruct (sql_tasks.check_room_exist room_id d); simpl; [|done].
    destruct (TaskType.in_members type_) eqn:Hin; simpl; [|done].
    unfold TaskType.of_value. unfold TaskType.in_members in Hin.
    apply existsb_exists in Hin as (m & Hm & Hv).
    destruct (find _ TaskType.members) eqn:Hfind; [done|].
    eapply find_none in Hfind; [|exact Hm]. simpl in Hfind. congruence.
Qed.

(* ===================================================================== *)
(** * Recognition as a function of query and cache                       *)
(* ===================================================================== *)

Section determinism.
Import two_step.
Context {backends : Backends}.
Implicit Types (cache : gmap Z Descriptor) (q : Descriptor).

(** The best candidate after the entries [visited] have been compared,
    whatever their order: the entry at the least distance, the lowest id
    among those at that distance. *)
Lemma scan_spec q (visited : list (Z * Descriptor)) :
  match Interleaving.scan q visited None with
  | None => visited = []
  | Some c =>
      (exists d, (c.1, d) ∈ visited /\ c.2 = euclidean q d) /\
      forall j d', (j, d') ∈ visited ->
        (c.2 < euclidean q d')%R \/ (c.2 = euclidean q d' /\ (c.1 <= j)%Z)
  end.
Proof.
  induction visited as [|[i x] visited IH] using rev_ind; [done|].
  rewrite scan_snoc. unfold consider.
  destruct (Interleaving.scan q visited None) as [b|].
  - destruct IH as [(d & Hd & Hdist) Hmin].
    destruct (closer (i, euclidean q x) b) eqn:E.
    + apply closer_true in E. simpl in E. split.
      * exists x. simpl. split; [|done].
        apply elem_of_app. right. apply list_elem_of_here.
      * intros j d' Hj. simpl. apply elem_of_app in Hj as [Hj|Hj].
        -- destruct (Hmin j d' Hj) as [?|[? ?]]; destruct E as [?|[? ?]];
             (left; lra) || (right; split; [lra|lia]).
        -- apply list_elem_of_singleton in Hj. simplify_eq.
           right. split; [done|lia].
    + apply closer_false in E. simpl in E. split.
      * exists d. split; [|done]. apply elem_of_app. by left.
      * intros j d' Hj. apply elem_of_app in Hj as [Hj|Hj]; [by apply Hmin|].
        apply list_elem_of_singleton in Hj. simplify_eq.
        destruct E as [?|[? ?]]; [by left | right; split; [lra|done]].
  - subst visited. split.
    + exists x. split; [apply list_elem_of_here | done].
    + intros j d' Hj. apply list_elem_of_singleton in Hj. simplify_eq.
      right. split; [done|]. simpl. lia.
Qed.

(** A scan over the entries of a dictionary finds its nearest entry in
    whatever order it visits them. *)
Lemma scan_any_order q cache (order : list (Z * Descriptor)) :
  order ≡ₚ map_to_list cache -> Interleaving.scan q order None = nearest cache q.
Proof.
  intros Hp. pose proof (scan_spec q order) as H.
  destruct (Interleaving.scan q order None) as [c|] eqn:E.
  - symmetry. apply nearest_Some. destruct H as [(d & Hd & Hdist) Hmin]. split.
    + exists d. split; [|done]. apply elem_of_map_to_list. by rewrite <- Hp.
    + intros j d' Hj. apply Hmin. rewrite Hp. by apply elem_of_map_to_list.
  - subst order. symmetry. apply nearest_None, map_to_list_empty_iff.
    symmetry. by apply Permutation_nil_l.
Qed.

(** The answer computed from the cache meets the contract. *)
Lemma match_descriptor_contract cache q :
  recognition_contract cache q (match_descriptor cache q).
Proof.
  unfold recognition_contract, match_descriptor.
  destruct (nearest cache q) as [[i dist]|] eqn:E.
  - apply nearest_Some in E. destruct E as [(d & Hd & Hdist) Hmin].
    simpl in *. subst dist.
    destruct (Rlt_dec (euclidean q d) threshold) as [Hlt|Hge].
    + left. by exists i, d.
    + right. split; [done|]. intros j d' Hj.
      destruct (Hmin j d' Hj) as [?|[? _]]; lra.
  - apply nearest_None in E. subst cache. right. split; [done|].
    intros j d' Hj. by rewrite lookup_empty in Hj.
Qed.

(** The contract leaves no choice: the tie-break decides between entries
    at the same distance. *)
Lemma recognition_contract_unique cache q (a1 a2 : RecognitionResult) :
  recognition_contract cache q a1 -> recognition_contract cache q a2 -> a1 = a2.
Proof.
  intros [(i1 & d1 & H1 & -> & Hlt1 & Hmin1)|[-> Hno1]]
         [(i2 & d2 & H2 & -> & Hlt2 & Hmin2)|[-> Hno2]].
  - assert ((i1, euclidean q d1) = (i2, euclidean q d2)) as Heq.
    { apply (is_nearest_unique cache q); (split; [by eexists|done]). }
    injection Heq as Hi Hd. by rewrite Hi, Hd.
  - specialize (Hno2 _ _ H1). lra.
  - specialize (Hno1 _ _ H2). lra.
  - done.
Qed.

(** A request that only reads leaves database and cache as they were. *)
Lemma reads_only_serve {DB : Type} {repository : AccessControlRepository DB}
    (r : AccessControlService.Request) (s : Store DB) :
  reads_only r = true -> (AccessControlService.serve r s).1 = s.
Proof.
  destruct r; try done; intros _; run; by case_all.
Qed.

Lemma reads_only_serve_all {DB : Type} {repository : AccessControlRepository DB}
    (requests : list AccessControlService.Request) (s : Store DB) :
  Forall (fun r => reads_only r = true) requests -> serve_all requests s = s.
Proof.
  unfold serve_all. induction 1 as [|r requests Hr _ IH]; [done|].
  simpl. by rewrite reads_only_serve.
Qed.

End determinism.

(** C7.  [recognize_by_descriptor] is a function of the query and the
    cache, and of nothing else.  The contract of recognition (the entry at
    the least distance if that distance is below the threshold, the lowest
    id among entries at the same distance, else unknown) admits one answer
    at most for a query and a cache, and the call returns exactly that
    answer, without raising, from every store that holds the cache and on
    every thread.  So two calls against the same cache agree, whatever the
    databases and the threads; the call leaves the store as it was, and a
    repeated call, also after any number of requests that only read,
    yields the identical answer; and the answer does not depend on the
    order in which the entries of the cache are visited. *)
Theorem recognize_by_descriptor_deterministic
    {DB : Type} {repository : AccessControlRepository DB} {backends : Backends}
    (q : Descriptor) :
  (forall (cache : gmap Z Descriptor) (a1 a2 : RecognitionResult),
     recognition_contract cache q a1 -> recognition_contract cache q a2 -> a1 = a2) /\
  (forall (p : Place) (s : Store DB),
     (exists a, outcome_of (FaceRecognizer.recognize_by_descriptor q p s) = Py.Return a) /\
     forall a,
       outcome_of (FaceRecognizer.recognize_by_descriptor q p s) = Py.Return a <->
       recognition_contract (descriptors s) q a) /\
  (forall (p1 p2 : Place) (s1 s2 : Store DB),
     descriptors s1 = descriptors s2 ->
     outcome_of (FaceRecognizer.recognize_by_descriptor q p1 s1)
     = outcome_of (FaceRecognizer.recognize_by_descriptor q p2 s2)) /\
  (forall (p1 p2 : Place) (s : Store DB) (requests : list AccessControlService.Request),
     Forall (fun r => reads_only r = true) requests ->
     let first := FaceRecognizer.recognize_by_descriptor q p1 s in
     let second :=
       FaceRecognizer.recognize_by_descriptor q p2 (serve_all requests (store_of first)) in
     store_of first = s /\
     outcome_of second = outcome_of first) /\
  (forall (p : Place) (s : Store DB) (order : list (Z * Descriptor)),
     order ≡ₚ map_to_list (descriptors s) ->
     outcome_of (FaceRecognizer.recognize_by_descriptor q p s)
     = Py.Return (Interleaving.verdict (Interleaving.scan q order None))).
Proof.
  split; [|split; [|split; [|split]]].
  - intros cache a1 a2. apply recognition_contract_unique.
  - intros p s. run. split; [by eexists|]. intros a. split.
    + intros [= <-]. apply match_descriptor_contract.
    + intros Ha. f_equal.
      by apply (recognition_contract_unique (descriptors s) q);
        [apply match_descriptor_contract|].
  - intros p1 p2 s1 s2 Hc. run. by rewrite Hc.
  - intros p1 p2 s requests Hreads first second. subst first second.
    assert (store_of (FaceRecognizer.recognize_by_descriptor q p1 s) = s) as Hs by by run.
    split; [done|]. rewrite Hs, reads_only_serve_all by done. by run.
  - intros p s order Hp. run. f_equal.
    rewrite (scan_any_order _ _ _ Hp). symmetry. apply verdict_nearest.
Qed.

(** The same cache over two different databases, on two different
    threads: the same answer. *)
Lemma recognize_by_descriptor_deterministic_witness :
  descriptors fixtures.enrolled_store = descriptors fixtures.stale_store /\
  outcome_of (FaceRecognizer.recognize_by_descriptor (backends := fixtures.sighted_backends)
                [0%R] SchedulerThread fixtures.enrolled_store)
  = outcome_of (FaceRecognizer.recognize_by_descriptor (backends := fixtures.sighted_backends)
                  [0%R] WorkerThread fixtures.stale_store).
Proof.
  split; [reflexivity|].
  apply (proj1 (proj2 (proj2 (recognize_by_descriptor_deterministic
                                (backends := fixtures.sighted_backends) [0%R])))
           SchedulerThread WorkerThread fixtures.enrolled_store fixtures.stale_store).
  reflexivity.
Defined.
